(** * video-reader-mcp: the progressive-disclosure planning layer

    A shallow embedding of [src/video-processor.ts] (class [VideoProcessor])
    and of the tool handlers of the MCP server ([CallToolRequestSchema]
    handler), with the properties the specification states about them.

    Conventions of the embedding.

    - A JavaScript [number] is [number] below: a finite value is the rational
      it denotes, plus [NaN] and the two infinities, which the code does meet
      (a division by a zero width).  Arithmetic on finite values is exact:
      the rounding of binary64, overflow to an infinity and the sign of zero
      are not modelled.  Decimal literals of the source ([0.1], [1.33],
      [0.25]) are the rationals they spell.
    - Platform routines the source calls but does not define (number to
      string, [path.basename], [path.join], [os.tmpdir], base64 encoding,
      [eval] of a frame-rate string) are fields of [Host].
    - External collaborators (the file system, ffprobe, ffmpeg, sharp) are
      deterministic oracles, fields of [World]; each call is recorded as an
      [Event] in the processor state, next to the per-path frame cache.
    - [async] code that awaits one operation at a time is sequential state
      passing with exceptions ([Outcome]).  The one place where promises run
      concurrently, the [Promise.all] of [get_frames_batch], is modelled as
      such: every fetch is a [Task] suspended at its [await]s, and the
      awaited operations complete in the order the field [schedule] of
      [World] picks, whatever that order is. *)

From Stdlib Require Import ZArith QArith Qround Qreduction Lia Lqa Sorted.
From stdpp Require Import gmap strings list pretty.

Set Default Proof Using "Type".

(** ** JavaScript numbers *)

Inductive number : Type :=
| NaN
| NegInfinity
| Num (q : Q)
| Infinity.

Definition num (q : Q) : number := Num (Qred q).
Definition ofZ (z : Z) : number := Num (inject_Z z).
Definition ofNat (n : nat) : number := ofZ (Z.of_nat n).

Definition qsign (q : Q) : comparison := (q ?= 0)%Q.

Definition nneg (a : number) : number :=
  match a with
  | NaN => NaN
  | NegInfinity => Infinity
  | Infinity => NegInfinity
  | Num q => num (- q)
  end.

Definition nadd (a b : number) : number :=
  match a, b with
  | NaN, _ | _, NaN => NaN
  | Infinity, NegInfinity | NegInfinity, Infinity => NaN
  | Infinity, _ | _, Infinity => Infinity
  | NegInfinity, _ | _, NegInfinity => NegInfinity
  | Num x, Num y => num (x + y)
  end.

Definition nsub (a b : number) : number := nadd a (nneg b).

Definition nmul (a b : number) : number :=
  match a, b with
  | NaN, _ | _, NaN => NaN
  | Num x, Num y => num (x * y)
  | Num x, Infinity | Infinity, Num x =>
      match qsign x with Eq => NaN | Gt => Infinity | Lt => NegInfinity end
  | Num x, NegInfinity | NegInfinity, Num x =>
      match qsign x with Eq => NaN | Gt => NegInfinity | Lt => Infinity end
  | Infinity, Infinity | NegInfinity, NegInfinity => Infinity
  | Infinity, NegInfinity | NegInfinity, Infinity => NegInfinity
  end.

Definition ndiv (a b : number) : number :=
  match a, b with
  | NaN, _ | _, NaN => NaN
  | Num x, Num y =>
      match qsign y with
      | Eq => match qsign x with Eq => NaN | Gt => Infinity | Lt => NegInfinity end
      | _ => num (x / y)
      end
  | Num _, Infinity | Num _, NegInfinity => Num 0
  | Infinity, Num y =>
      match qsign y with Lt => NegInfinity | _ => Infinity end
  | NegInfinity, Num y =>
      match qsign y with Lt => Infinity | _ => NegInfinity end
  | _, _ => NaN
  end.

(** [a < b]; every comparison with [NaN] is false. *)
Definition nlt (a b : number) : bool :=
  match a, b with
  | NaN, _ | _, NaN => false
  | _, NegInfinity => false
  | NegInfinity, _ => true
  | Infinity, _ => false
  | Num _, Infinity => true
  | Num x, Num y => match (x ?= y)%Q with Lt => true | _ => false end
  end.

Definition ngt (a b : number) : bool := nlt b a.

(** [a >= b]. *)
Definition nge (a b : number) : bool :=
  match a, b with
  | NaN, _ | _, NaN => false
  | _, _ => negb (nlt a b)
  end.

(** [Math.min], [Math.max]: [NaN] as soon as an argument is. *)
Definition nmin (a b : number) : number :=
  match a, b with
  | NaN, _ | _, NaN => NaN
  | _, _ => if nlt b a then b else a
  end.

Definition nmax (a b : number) : number :=
  match a, b with
  | NaN, _ | _, NaN => NaN
  | _, _ => if nlt a b then b else a
  end.

Definition nfloor (a : number) : number :=
  match a with Num q => ofZ (Qfloor q) | _ => a end.

Definition nceil (a : number) : number :=
  match a with Num q => ofZ (Qceiling q) | _ => a end.

(** [Math.round]: to the nearest integer, a half going up. *)
Definition nround (a : number) : number :=
  match a with Num q => ofZ (Qfloor (q + (1 # 2))) | _ => a end.

Definition qtrunc (q : Q) : Z :=
  match qsign q with Lt => Qceiling q | _ => Qfloor q end.

(** [a % b]: the remainder has the sign of the dividend. *)
Definition nmod (a b : number) : number :=
  match a, b with
  | Num x, Num y =>
      match qsign y with
      | Eq => NaN
      | _ => num (x - y * inject_Z (qtrunc (x / y)))
      end
  | Num x, Infinity | Num x, NegInfinity => a
  | _, _ => NaN
  end.

(** Truthiness of a number, as [||] and [if] read it. *)
Definition truthy (a : number) : bool :=
  match a with
  | NaN => false
  | Num q => match qsign q with Eq => false | _ => true end
  | _ => true
  end.

(** [x || 0] on a possibly missing number. *)
Definition orZero (o : option number) : number :=
  match o with
  | Some a => if truthy a then a else Num 0
  | None => Num 0
  end.

(** A non-negative integer: what a token count is meant to be. *)
Definition isNonNegInteger (a : number) : bool :=
  match a with
  | Num q => Qle_bool 0 q && Qeq_bool q (inject_Z (Qfloor q))
  | _ => false
  end.

Declare Scope js_scope.
Delimit Scope js_scope with js.
Bind Scope js_scope with number.
Infix "+" := nadd : js_scope.
Infix "-" := nsub : js_scope.
Infix "*" := nmul : js_scope.
Infix "/" := ndiv : js_scope.
Infix "%%" := nmod (at level 40, left associativity) : js_scope.
Infix "<?" := nlt : js_scope.
Infix ">?" := ngt : js_scope.
Infix ">=?" := nge : js_scope.

Local Open Scope string_scope.

(** ** Platform routines *)

Class Host : Type := {
  (** [String(n)], also what a template literal does to a number *)
  numToString : number -> string;
  (** [path.basename], [path.join], [os.tmpdir()] *)
  basename : string -> string;
  joinPath : string -> string -> string;
  tmpdir : string;
  (** [buffer.toString('base64')] *)
  toBase64 : string -> string;
  (** [eval] of ffprobe's [r_frame_rate], e.g. ["30000/1001"] *)
  evalNumber : string -> number
}.

(** [s.padStart(2, '0')] *)
Definition padStart2 (s : string) : string :=
  match String.length s with
  | 0%nat => "00"
  | 1%nat => "0" +:+ s
  | _ => s
  end.

(** ** Data model ([types.ts]) *)

Record VideoMetadata : Type := {
  duration : number;
  width : number;
  height : number;
  fps : number;
  codec : string;
  format : string;
  bitrate : number;
  hasAudio : bool;
  audioCodec : option string;
  fileSize : option number
}.

Inductive Aspect : Type := AspDuration | AspResolution | AspAudio | AspFormat.

Record AnalysisHint : Type := {
  aspect : Aspect;
  recommendation : string;
  parameters : option (list (string * number))
}.

Record VideoMetadataSummary : Type := {
  durationFormatted : string;
  resolutionSummary : string;
  humanDescription : string;
  analysisHints : list AnalysisHint
}.

Record FrameReference : Type := {
  index : nat;
  timestamp : number;
  timestampFormatted : string;
  resolution : string;
  estimatedTokens : number
}.

Inductive ImageFormat : Type := jpeg | png.

Definition formatExt (f : ImageFormat) : string :=
  match f with jpeg => "jpeg" | png => "png" end.

Definition mimeOf (f : ImageFormat) : string :=
  match f with jpeg => "image/jpeg" | png => "image/png" end.

Record FrameData : Type := {
  frameRef : FrameReference;
  base64 : string;
  mimeType : string
}.

Record VideoFrame : Type := {
  vfTimestamp : number;
  vfBase64 : string;
  vfWidth : number;
  vfHeight : number
}.

Inductive HintType : Type := action | warning | info | suggestion.

Record ContextHint : Type := {
  hintType : HintType;
  message : string;
  suggestedTool : option string;
  priority : number
}.

Record AudioStatus : Type := {
  available : bool;
  durationSeconds : option number
}.

Record VideoOverview : Type := {
  videoPath : string;
  filename : string;
  metadata : VideoMetadataSummary;
  availableFrames : list FrameReference;
  audio : AudioStatus;
  contextHints : list ContextHint
}.

Record VideoAnalysis : Type := {
  vaMetadata : VideoMetadata;
  vaFrames : list VideoFrame;
  vaAudioPath : option string
}.

Record TokenEstimate : Type := {
  teMetadata : number;
  tePerFrame : number;
  teTotal : number;
  teWarning : option string
}.

(** ** Token estimation constants *)

Definition TOKENS_PER_KB_BASE64 : number := Num (133 # 100).
Definition TOKENS_PER_CHAR : number := Num (1 # 4).
Definition BASE_METADATA_TOKENS : number := ofZ 150.
Definition WARNING_TOKEN_THRESHOLD : number := ofZ 50000.

(** [Array.prototype.sort(cmp)]: ECMAScript requires a stable sort, so for a
    consistent comparator the result is the one of a stable insertion sort.
    [x] stays in front of [y] unless [cmp x y > 0]. *)
Fixpoint insertBy {A : Type} (cmp : A -> A -> number) (x : A) (l : list A) : list A :=
  match l with
  | [] => [x]
  | y :: l' => if ngt (cmp x y) (Num 0) then y :: insertBy cmp x l' else x :: l
  end.

Definition sortBy {A : Type} (cmp : A -> A -> number) (l : list A) : list A :=
  foldr (insertBy cmp) [] l.

(** ** Pure methods of [VideoProcessor] *)

Section Pure.
Context `{host : Host}.
Local Open Scope js_scope.

(** [formatTimestamp] *)
Definition formatTimestamp (seconds : number) : string :=
  let mins := nfloor (seconds / ofZ 60) in
  let secs := nfloor (seconds %% ofZ 60) in
  numToString mins +:+ ":" +:+ padStart2 (numToString secs).

(** [estimateBase64Tokens] *)
Definition estimateBase64Tokens (base64Length : number) : number :=
  let kbSize := base64Length / ofZ 1024 in
  nceil (kbSize * TOKENS_PER_KB_BASE64 * ofZ 1000 * TOKENS_PER_CHAR).

(** [getResolutionLabel] *)
Definition getResolutionLabel (width height : number) : string :=
  let pixels := width * height in
  if pixels >=? ofZ (3840 * 2160) then "4K Ultra HD"
  else if pixels >=? ofZ (1920 * 1080) then "Full HD"
  else if pixels >=? ofZ (1280 * 720) then "HD"
  else if pixels >=? ofZ (854 * 480) then "SD"
  else "Low resolution".

(** [getDurationLabel] *)
Definition getDurationLabel (seconds : number) : string :=
  if seconds <? ofZ 60 then numToString (nround seconds) +:+ " seconds"
  else if seconds <? ofZ 3600 then
    numToString (nround (seconds / ofZ 60)) +:+ " minutes"
  else
    let hours := nfloor (seconds / ofZ 3600) in
    let mins := nround ((seconds %% ofZ 3600) / ofZ 60) in
    numToString hours +:+ "h " +:+ numToString mins +:+ "m".

(** The duration-based hint of [generateAnalysisHints]. *)
Definition durationHint (md : VideoMetadata) : AnalysisHint :=
  if duration md <? ofZ 30 then
    {| aspect := AspDuration;
       recommendation :=
         "Short video - extract all key frames (5-10 frames recommended)";
       parameters :=
         Some [("maxFrames", ofZ 10);
               ("interval", nmax (ofZ 1) (duration md / ofZ 10))] |}
  else if duration md <? ofZ 300 then
    {| aspect := AspDuration;
       recommendation := "Medium video - sample frames at regular intervals";
       parameters :=
         Some [("maxFrames", ofZ 15);
               ("interval", nfloor (duration md / ofZ 15))] |}
  else
    {| aspect := AspDuration;
       recommendation :=
         "Long video - consider extracting frames progressively by time ranges";
       parameters :=
         Some [("maxFrames", ofZ 20);
               ("interval", nfloor (duration md / ofZ 20))] |}.

(** [generateAnalysisHints] *)
Definition generateAnalysisHints (md : VideoMetadata) : list AnalysisHint :=
  let hints := [durationHint md] in
  let hints :=
    if width md >? ofZ 1920 then
      app hints [{| aspect := AspResolution;
                   recommendation :=
                     "High resolution video - frames will be resized to 1920px max width for efficiency";
                   parameters := Some [("maxWidth", ofZ 1920)] |}]
    else hints in
  let hints :=
    if hasAudio md then
      app hints [{| aspect := AspAudio;
                   recommendation :=
                     "Video has audio track - consider extracting for transcription";
                   parameters := None |}]
    else hints in
  hints.

(** [estimateFrameTokens] *)
Definition estimateFrameTokens (width height : number) : number :=
  let effectiveWidth := nmin width (ofZ 1920) in
  let effectiveHeight := nround (effectiveWidth * height / width) in
  let estimatedKB :=
    (effectiveWidth * effectiveHeight * Num (1 # 10)) / ofZ 1024 in
  nceil (estimatedKB * TOKENS_PER_KB_BASE64 * ofZ 1000 * TOKENS_PER_CHAR).

(** The pixel count the estimator charges for: after the clamp of the width. *)
Definition effectivePixels (width height : number) : number :=
  let effectiveWidth := nmin width (ofZ 1920) in
  effectiveWidth * nround (effectiveWidth * height / width).

(** [generateContextHints] *)
Definition generateContextHints (md : VideoMetadata)
    (frames : list FrameReference) : list ContextHint :=
  let totalFrameTokens :=
    foldl (fun sum f => sum + estimatedTokens f)%js (Num 0) frames in
  let hints := [] in
  let hints :=
    if totalFrameTokens >? WARNING_TOKEN_THRESHOLD then
      app hints [{| hintType := warning;
                   message :=
                     "Extracting all " +:+ numToString (ofNat (length frames))
                     +:+ " frames would use ~"
                     +:+ numToString (nround (totalFrameTokens / ofZ 1000))
                     +:+ "K tokens. Consider fetching specific frames instead.";
                   suggestedTool := Some "get_frame";
                   priority := ofZ 10 |}]
    else hints in
  let hints :=
    if duration md >? ofZ 300 then
      app hints [{| hintType := suggestion;
                   message :=
                     "For long videos, fetch frames progressively: start with a few key timestamps, then request more if needed.";
                   suggestedTool := Some "get_frame";
                   priority := ofZ 8 |}]
    else hints in
  let hints :=
    if hasAudio md then
      app hints [{| hintType := info;
                   message :=
                     "Audio track available. Use extract_audio to get the audio file for transcription.";
                   suggestedTool := Some "extract_audio";
                   priority := ofZ 5 |}]
    else hints in
  let hints :=
    app hints [{| hintType := action;
                 message :=
                   "Review the frame timestamps above. Use get_frame to fetch specific frames for visual analysis.";
                 suggestedTool := Some "get_frame";
                 priority := ofZ 3 |}] in
  sortBy (fun a b => priority b - priority a)%js hints.

End Pure.

(** ** The frame-reference planner (the loop of [getVideoOverview]) *)

Section Planner.
Context `{host : Host}.
Local Open Scope js_scope.

(** [frameInterval = Math.max(1, Math.floor(metadata.duration / frameCount))] *)
Definition frameIntervalOf (duration frameCount : number) : number :=
  nmax (ofZ 1) (nfloor (duration / frameCount)).

(** The reference pushed at iteration [i]. *)
Definition frameAt (md : VideoMetadata) (frameInterval : number) (i : nat)
    : FrameReference :=
  let timestamp := ofNat i * frameInterval in
  {| index := i;
     timestamp := timestamp;
     timestampFormatted := formatTimestamp timestamp;
     resolution :=
       numToString (nmin (width md) (ofZ 1920)) +:+ "x"
       +:+ numToString
             (nround (nmin (width md) (ofZ 1920) * height md / width md));
     estimatedTokens := estimateFrameTokens (width md) (height md) |}.

(** [for (let i = 0; i < frameCount && i * frameInterval < duration; i++)];
    [None] is a loop that has not ended within [fuel] iterations. *)
Fixpoint planLoop (fuel : nat) (md : VideoMetadata)
    (frameCount frameInterval : number) (i : nat)
    : option (list FrameReference) :=
  match fuel with
  | O => None
  | S fuel' =>
      if (ofNat i <? frameCount) && (ofNat i * frameInterval <? duration md)
      then cons (frameAt md frameInterval i)
             <$> planLoop fuel' md frameCount frameInterval (S i)
      else Some []
  end.

(** Iterations after which the loop test has failed, whatever the input. *)
Definition loopBound (duration frameCount : number) : nat :=
  match frameCount with
  | Num q => Z.to_nat (Qceiling q)
  | Infinity =>
      match duration with Num d => Z.to_nat (Qceiling d) | _ => 0%nat end
  | _ => 0%nat
  end.

Definition planFrames (md : VideoMetadata) (frameCount : number)
    : option (list FrameReference) :=
  planLoop (S (loopBound (duration md) frameCount)) md frameCount
    (frameIntervalOf (duration md) frameCount) 0.

End Planner.

(** ** External collaborators *)

Record ProbeStream : Type := {
  codec_type : string;
  streamWidth : option number;
  streamHeight : option number;
  r_frame_rate : option string;
  codec_name : option string
}.

Record ProbeData : Type := {
  streams : list ProbeStream;
  formatDuration : option number;
  format_name : option string;
  bit_rate : option number
}.

Record ImageMeta : Type := {
  imWidth : option number;
  imHeight : option number
}.

Inductive AudioFormat : Type := mp3 | wav.

Definition audioExt (f : AudioFormat) : string :=
  match f with mp3 => "mp3" | wav => "wav" end.

(** The ffmpeg command [extractAudio] builds. *)
Record AudioCommand : Type := {
  acSeekInput : option number;
  acDuration : option number;
  acCodec : string;
  acBitrate : option string
}.

(** How a run of ffmpeg for one frame ends: the ['error'] event, or ['end']
    with the output file written or not. *)
Inductive FfmpegResult : Type :=
| FfError (msg : string)
| FfEnd (written : option string).

Record World : Type := {
  (** [Date.now()] *)
  now : Z;
  (** [fs.access] succeeds *)
  fsAccess : string -> bool;
  (** [fs.stat(path).size]; [None] when it throws *)
  fsStat : string -> option number;
  (** [fs.mkdir(dir, {recursive: true})]; [Some msg] when it throws *)
  fsMkdir : string -> option string;
  (** [ffmpeg.ffprobe] *)
  ffprobe : string -> string + ProbeData;
  (** [ffmpeg(input).seekInput(t).frames(1).output(out).run()] *)
  ffmpegFrame : string -> number -> string -> FfmpegResult;
  (** [ffmpeg(input).noVideo()...output(out).run()]; [Some msg] on ['error'] *)
  ffmpegAudio : string -> AudioCommand -> string -> option string;
  (** [sharp(buffer).metadata()] *)
  sharpMetadata : string -> string + ImageMeta;
  (** [sharp(buffer)[.resize(w)].jpeg({quality}) | .png()).toBuffer()] *)
  sharpEncode :
    string -> option number -> ImageFormat -> option number -> string + string;
  (** The order in which the operations awaited by concurrent promises
      complete: at the [k]-th completion, of the promises then waiting, in
      the order they were started, the one of index [schedule k] modulo
      their number is resumed. *)
  schedule : nat -> nat
}.

Inductive Event : Type :=
| EvAccess (path : string)
| EvProbe (path : string)
| EvStat (path : string)
| EvMkdir (dir : string)
| EvFfmpegFrame (input : string) (seek : number) (output : string)
| EvReadFile (path : string)
| EvSharpMetadata (buffer : string)
| EvSharpEncode (buffer : string)
| EvRm (path : string)
| EvFfmpegAudio (input : string) (cmd : AudioCommand) (output : string)
| EvConsoleError (msg : string).

(** ** The processor state and the monad of [async] methods *)

Record ProcState : Type := {
  frameCache : gmap string (list FrameReference);
  trace : list Event
}.

Inductive Outcome (A : Type) : Type :=
| Ok (a : A)
| Throw (msg : string)
| Diverge.
Arguments Ok {A} a.
Arguments Throw {A} msg.
Arguments Diverge {A}.

Definition M (A : Type) : Type := ProcState -> Outcome A * ProcState.

Definition ret {A : Type} (a : A) : M A := fun s => (Ok a, s).

Definition bind {A B : Type} (m : M A) (k : A -> M B) : M B := fun s =>
  match m s with
  | (Ok a, s') => k a s'
  | (Throw msg, s') => (Throw msg, s')
  | (Diverge, s') => (Diverge, s')
  end.

Definition throw {A : Type} (msg : string) : M A := fun s => (Throw msg, s).

Definition diverge {A : Type} : M A := fun s => (Diverge, s).

Definition emit (e : Event) : M unit := fun s =>
  (Ok tt, {| frameCache := frameCache s; trace := (trace s ++ [e])%list |}).

(** [this.frameCache.set(key, refs)] *)
Definition cacheSet (key : string) (refs : list FrameReference) : M unit :=
  fun s =>
    (Ok tt, {| frameCache := <[key := refs]> (frameCache s); trace := trace s |}).

(** [try { body } finally { fin }] *)
Definition tryFinally {A : Type} (body : M A) (fin : M unit) : M A := fun s =>
  match body s with
  | (Diverge, s') => (Diverge, s')
  | (r, s') =>
      match fin s' with
      | (Ok _, s'') => (r, s'')
      | (Throw msg, s'') => (Throw msg, s'')
      | (Diverge, s'') => (Diverge, s'')
      end
  end.

(** [try { body } catch (error) { handler(error) }] *)
Definition tryCatch {A : Type} (body : M A) (handler : string -> M A) : M A :=
  fun s =>
    match body s with
    | (Throw msg, s') => handler msg s'
    | r => r
    end.

(** *** Concurrent promises

    A promise under way is a [Task]: settled, or suspended at an [await],
    with the operation awaited and what the function does with its value.
    An operation takes effect at once when it completes: it acts on the
    files the tasks share and the collaborators called are recorded. *)

(** The files the tasks share: path to content. *)
Abbreviation Files := (gmap string string).

Definition Op (X : Type) : Type := Files -> list Event * Files * X.

Inductive Task (A : Type) : Type :=
| Resolved (a : A)
| Rejected (msg : string)
| Await {X : Type} (op : Op X) (k : X -> Task A).
Arguments Resolved {A} a.
Arguments Rejected {A} msg.
Arguments Await {A X} op k.

(** [await op], where [op] fulfils with a value or rejects with a message. *)
Definition await {X A : Type} (op : Op (string + X)) (k : X -> Task A) : Task A :=
  Await op (fun r => match r with inl msg => Rejected msg | inr x => k x end).

(** [try { body } finally { await fin }], for a [fin] that cannot reject. *)
Fixpoint taskFinally {A : Type} (body : Task A) (fin : Op unit) : Task A :=
  match body with
  | Resolved a => Await fin (fun _ => Resolved a)
  | Rejected msg => Await fin (fun _ => Rejected msg)
  | Await op k => Await op (fun x => taskFinally (k x) fin)
  end.

Definition isPending {A : Type} (t : Task A) : bool :=
  match t with Await _ _ => true | _ => false end.

Definition rejectionOf {A : Type} (t : Task A) : option string :=
  match t with Rejected msg => Some msg | _ => None end.

Definition resolvedValue {A : Type} (t : Task A) : option A :=
  match t with Resolved a => Some a | _ => None end.

(** [firstOf a b]: the rejection that came first. *)
Definition firstOf (a b : option string) : option string :=
  match a with Some _ => a | None => b end.

(** The operation awaited by the [j]-th waiting task of the pool completes
    and the task runs on to its next [await] or to its end; the last
    component is its rejection, if this is how it ends. *)
Fixpoint advance {A : Type} (j : nat) (pool : list (Task A)) (fs : Files)
    : list Event * Files * list (Task A) * option string :=
  match pool with
  | [] => ([], fs, [], None)
  | Await op k :: rest =>
      match j with
      | O =>
          let '(evs, fs', x) := op fs in
          (evs, fs', k x :: rest, rejectionOf (k x))
      | S j' =>
          let '(evs, fs', rest', rej) := advance j' rest fs in
          (evs, fs', Await op k :: rest', rej)
      end
  | t :: rest =>
      let '(evs, fs', rest', rej) := advance j rest fs in
      (evs, fs', t :: rest', rej)
  end.

(** The tasks of the pool that wait for an operation. *)
Definition waiting {A : Type} (pool : list (Task A)) : nat :=
  length (List.filter isPending pool).

Section Concurrent.
Context (W : World).

(** The event loop on a pool of tasks: as long as a task waits, the
    schedule picks the one whose operation completes next.  [None] is a pool
    that has not settled within [fuel] completions. *)
Fixpoint runPool {A : Type} (fuel step : nat) (pool : list (Task A))
    (fs : Files) (evs : list Event) (rejection : option string)
    : option (list Event * list (Task A) * option string) :=
  match waiting pool with
  | O => Some (evs, pool, rejection)
  | S n =>
      match fuel with
      | O => None
      | S fuel' =>
          let '(evs', fs', pool', rej) :=
            advance (schedule W step `mod` S n) pool fs in
          runPool fuel' (S step) pool' fs' (evs ++ evs')%list
            (firstOf rejection rej)
      end
  end.

(** [Promise.all(tasks)], the tasks having all been started: it fulfils with
    the values in the order of [tasks] when all of them fulfil and rejects
    with the first rejection otherwise.  A task that is still under way when
    another rejects runs to its end all the same, so what it does is part of
    the run.  No temporary file exists when the tasks start. *)
Definition promiseAll {A : Type} (fuel : nat) (tasks : list (Task A))
    : M (list A) := fun s =>
  match runPool fuel 0 tasks ∅ []
          (foldr (fun t r => firstOf (rejectionOf t) r) None tasks) with
  | None => (Diverge, s)
  | Some (evs, pool, rejection) =>
      (match rejection with
       | Some msg => Throw msg
       | None => Ok (omap resolvedValue pool)
       end,
       {| frameCache := frameCache s; trace := (trace s ++ evs)%list |})
  end.

End Concurrent.

Declare Scope proc_scope.
Delimit Scope proc_scope with proc.
Notation "'let!' x := m 'in' k" := (bind m (fun x => k))
  (at level 10, x name, m at level 100, k at level 200, only parsing)
  : proc_scope.

(** ** The [async] methods of [VideoProcessor] *)

(** [s || d] on a possibly missing string. *)
Definition orString (o : option string) (d : string) : string :=
  match o with
  | Some s => if String.eqb s "" then d else s
  | None => d
  end.

Record FrameExtractionOptions : Type := {
  feMaxFrames : option number;
  feInterval : option number;
  feMaxWidth : option number;
  feOutputFormat : option ImageFormat;
  feJpegQuality : option number
}.

Record AudioExtractionOptions : Type := {
  aeFormat : option AudioFormat;
  aeBitrate : option string;
  aeStartTime : option number;
  aeEndTime : option number
}.

Section Processor.
Context `{host : Host} (W : World).
Local Open Scope proc_scope.

Definition tempDir : string := joinPath tmpdir "mcp-video-reader".

(** [ensureTempDir]: a failure of [mkdir] is logged, never thrown. *)
Definition ensureTempDir : M unit :=
  let! _ := emit (EvMkdir tempDir) in
  match fsMkdir W tempDir with
  | None => ret tt
  | Some msg => emit (EvConsoleError ("Error creating temp directory: " +:+ msg))
  end.

(** [getMetadata] *)
Definition getMetadata (videoPath : string) : M VideoMetadata :=
  let! _ := emit (EvProbe videoPath) in
  match ffprobe W videoPath with
  | inl msg => throw ("Failed to read video metadata: " +:+ msg)
  | inr data =>
      let videoStream :=
        List.find (fun s => String.eqb (codec_type s) "video") (streams data) in
      let audioStream :=
        List.find (fun s => String.eqb (codec_type s) "audio") (streams data) in
      match videoStream with
      | None => throw "No video stream found"
      | Some vs =>
          let! _ := emit (EvStat videoPath) in
          ret {| duration := orZero (formatDuration data);
                 width := orZero (streamWidth vs);
                 height := orZero (streamHeight vs);
                 fps := orZero (Some (evalNumber (orString (r_frame_rate vs) "0")));
                 codec := orString (codec_name vs) "unknown";
                 format := orString (format_name data) "unknown";
                 bitrate := orZero (bit_rate data);
                 hasAudio := match audioStream with Some _ => true | None => false end;
                 audioCodec := audioStream ≫= codec_name;
                 fileSize := fsStat W videoPath |}
      end
  end.

(** [getMetadataSummary] *)
Definition getMetadataSummary (videoPath : string) : M VideoMetadataSummary :=
  let! md := getMetadata videoPath in
  let resolutionLabel := getResolutionLabel (width md) (height md) in
  let orientation :=
    if (width md >? height md)%js then "landscape"
    else if (width md <? height md)%js then "portrait" else "square" in
  let durationLabel := getDurationLabel (duration md) in
  let humanDescription :=
    String.concat ", "
      [resolutionLabel; orientation; "video";
       numToString (nround (fps md)) +:+ "fps";
       durationLabel;
       if hasAudio md then "with audio" else "no audio"] in
  ret {| durationFormatted := formatTimestamp (duration md);
         resolutionSummary :=
           numToString (width md) +:+ "x" +:+ numToString (height md);
         humanDescription := humanDescription;
         analysisHints := generateAnalysisHints md |}.

(** [getVideoOverview]; [frameCount] is [options.frameCount], 10 when absent. *)
Definition getVideoOverview (videoPath : string) (frameCount : option number)
    : M VideoOverview :=
  let frameCount := default (ofZ 10) frameCount in
  let! md := getMetadata videoPath in
  let! summary := getMetadataSummary videoPath in
  match planFrames md frameCount with
  | None => diverge
  | Some frames =>
      let! _ := cacheSet videoPath frames in
      let hints := generateContextHints md frames in
      ret {| videoPath := videoPath;
             filename := basename videoPath;
             metadata := summary;
             availableFrames := frames;
             audio := {| available := hasAudio md;
                         durationSeconds :=
                           if hasAudio md then Some (duration md) else None |};
             contextHints := hints |}
  end.

Definition showDim (o : option number) : string :=
  match o with Some n => numToString n | None => "undefined" end.

(** [imageMetadata.width && imageMetadata.width > maxWidth] *)
Definition needsResize (m : ImageMeta) (maxWidth : number) : bool :=
  match imWidth m with
  | Some w => truthy w && (w >? maxWidth)%js
  | None => false
  end.

Definition sharpMeta (buffer : string) : M ImageMeta :=
  let! _ := emit (EvSharpMetadata buffer) in
  match sharpMetadata W buffer with
  | inl msg => throw msg
  | inr m => ret m
  end.

(** Resize if needed, then convert to the desired format. *)
Definition sharpConvert (buffer : string) (m : ImageMeta) (maxWidth : number)
    (fmt : ImageFormat) (quality : number) : M string :=
  let! _ := emit (EvSharpEncode buffer) in
  match sharpEncode W buffer
          (if needsResize m maxWidth then Some maxWidth else None) fmt
          (match fmt with jpeg => Some quality | png => None end) with
  | inl msg => throw msg
  | inr out => ret out
  end.

(** One run of ffmpeg for one frame, then [fs.readFile] of its output. *)
Definition decodeFrameTo (videoPath : string) (timestamp : number)
    (framePath : string) : M string :=
  let! _ := emit (EvFfmpegFrame videoPath timestamp framePath) in
  match ffmpegFrame W videoPath timestamp framePath with
  | FfError msg => throw msg
  | FfEnd written =>
      let! _ := emit (EvReadFile framePath) in
      match written with
      | None =>
          throw ("ENOENT: no such file or directory, open '" +:+ framePath +:+ "'")
      | Some buffer => ret buffer
      end
  end.

(** [extractSingleFrame] *)
Definition extractSingleFrame (videoPath : string) (timestamp : number)
    (maxWidth : option number) (fmt : option ImageFormat)
    (quality : option number) : M FrameData :=
  let maxWidth := default (ofZ 1920) maxWidth in
  let fmt := default jpeg fmt in
  let quality := default (ofZ 80) quality in
  let! _ := ensureTempDir in
  let framePath :=
    joinPath tempDir
      ("frame-" +:+ numToString (ofZ (now W)) +:+ "." +:+ formatExt fmt) in
  tryFinally
    (let! imageBuffer := decodeFrameTo videoPath timestamp framePath in
     let! imageMetadata := sharpMeta imageBuffer in
     let! imageBuffer := sharpConvert imageBuffer imageMetadata maxWidth fmt quality in
     let b64 := toBase64 imageBuffer in
     let! finalMetadata := sharpMeta imageBuffer in
     ret {| frameRef :=
              {| index := 0;
                 timestamp := timestamp;
                 timestampFormatted := formatTimestamp timestamp;
                 resolution :=
                   showDim (imWidth finalMetadata) +:+ "x"
                   +:+ showDim (imHeight finalMetadata);
                 estimatedTokens :=
                   estimateBase64Tokens (ofNat (String.length b64)) |};
            base64 := b64;
            mimeType := mimeOf fmt |})
    (emit (EvRm framePath)).

(** The operations [extractSingleFrame] awaits, as they act on the files. *)
Definition opEnsureTempDir : Op (string + unit) := fun fs =>
  (EvMkdir tempDir
   :: match fsMkdir W tempDir with
      | None => []
      | Some msg =>
          [EvConsoleError ("Error creating temp directory: " +:+ msg)]
      end,
   fs, inr tt).

(** A run of ffmpeg for one frame: at its ['end'] the output file holds what
    this run wrote, if it wrote. *)
Definition opFfmpegFrame (videoPath : string) (timestamp : number)
    (framePath : string) : Op (string + unit) := fun fs =>
  match ffmpegFrame W videoPath timestamp framePath with
  | FfError msg => ([EvFfmpegFrame videoPath timestamp framePath], fs, inl msg)
  | FfEnd written =>
      ([EvFfmpegFrame videoPath timestamp framePath],
       match written with
       | Some buffer => <[framePath := buffer]> fs
       | None => fs
       end,
       inr tt)
  end.

Definition opReadFile (framePath : string) : Op (string + string) := fun fs =>
  ([EvReadFile framePath], fs,
   match fs !! framePath with
   | Some buffer => inr buffer
   | None =>
       inl ("ENOENT: no such file or directory, open '" +:+ framePath +:+ "'")
   end).

Definition opSharpMetadata (buffer : string) : Op (string + ImageMeta) :=
  fun fs => ([EvSharpMetadata buffer], fs, sharpMetadata W buffer).

Definition opSharpConvert (buffer : string) (m : ImageMeta) (maxWidth : number)
    (fmt : ImageFormat) (quality : number) : Op (string + string) := fun fs =>
  ([EvSharpEncode buffer], fs,
   sharpEncode W buffer
     (if needsResize m maxWidth then Some maxWidth else None) fmt
     (match fmt with jpeg => Some quality | png => None end)).

(** [fs.rm(framePath, {force: true}).catch(() => {})] *)
Definition opRm (framePath : string) : Op unit := fun fs =>
  ([EvRm framePath], delete framePath fs, tt).

(** [extractSingleFrame] as one of several promises under way: the same
    method, suspended at each of its seven [await]s, acting on the files the
    promises share.  [Date.now()] is [now W] for every promise of the run,
    so the fetches of one batch name the same temporary file. *)
Definition extractSingleFrameTask (videoPath : string) (timestamp : number)
    (maxWidth : option number) (fmt : option ImageFormat)
    (quality : option number) : Task FrameData :=
  let maxWidth := default (ofZ 1920) maxWidth in
  let fmt := default jpeg fmt in
  let quality := default (ofZ 80) quality in
  await opEnsureTempDir (fun _ =>
  let framePath :=
    joinPath tempDir
      ("frame-" +:+ numToString (ofZ (now W)) +:+ "." +:+ formatExt fmt) in
  taskFinally
    (await (opFfmpegFrame videoPath timestamp framePath) (fun _ =>
     await (opReadFile framePath) (fun imageBuffer =>
     await (opSharpMetadata imageBuffer) (fun imageMetadata =>
     await (opSharpConvert imageBuffer imageMetadata maxWidth fmt quality)
       (fun imageBuffer =>
     let b64 := toBase64 imageBuffer in
     await (opSharpMetadata imageBuffer) (fun finalMetadata =>
     Resolved
       {| frameRef :=
            {| index := 0;
               timestamp := timestamp;
               timestampFormatted := formatTimestamp timestamp;
               resolution :=
                 showDim (imWidth finalMetadata) +:+ "x"
                 +:+ showDim (imHeight finalMetadata);
               estimatedTokens :=
                 estimateBase64Tokens (ofNat (String.length b64)) |};
          base64 := b64;
          mimeType := mimeOf fmt |}))))))
    (opRm framePath)).

(** The body of the loop of [extractFrames], iteration [i]. *)
Definition extractFrameAt (videoPath frameDir : string) (frameInterval : number)
    (maxWidth : number) (fmt : ImageFormat) (quality : number) (i : nat)
    : M VideoFrame :=
  let timestamp := (ofNat i * frameInterval)%js in
  let framePath :=
    joinPath frameDir ("frame-" +:+ numToString (ofNat i) +:+ ".png") in
  let! imageBuffer := decodeFrameTo videoPath timestamp framePath in
  let! imageMetadata := sharpMeta imageBuffer in
  let! imageBuffer := sharpConvert imageBuffer imageMetadata maxWidth fmt quality in
  let b64 := toBase64 imageBuffer in
  let! finalMetadata := sharpMeta imageBuffer in
  ret {| vfTimestamp := timestamp;
         vfBase64 := b64;
         vfWidth := orZero (imWidth finalMetadata);
         vfHeight := orZero (imHeight finalMetadata) |}.

(** [for (let i = 0; i < totalFrames; i++)] of [extractFrames]. *)
Fixpoint extractLoop (fuel : nat) (totalFrames : number) (body : nat -> M VideoFrame)
    (i : nat) : M (list VideoFrame) :=
  match fuel with
  | O => diverge
  | S fuel' =>
      if (ofNat i <? totalFrames)%js then
        let! f := body i in
        let! fs := extractLoop fuel' totalFrames body (S i) in
        ret (f :: fs)
      else ret []
  end.

(** Iterations that end the loop: for a finite [totalFrames] the test fails
    within its ceiling; for [Infinity] it never does, and the loop is
    [diverge]. *)
Definition extractFuel (totalFrames : number) : nat :=
  match totalFrames with
  | Num q => S (Z.to_nat (Qceiling q))
  | Infinity => 0%nat
  | _ => 1%nat
  end.

(** [extractFrames] *)
Definition extractFrames (videoPath : string) (options : FrameExtractionOptions)
    : M (list VideoFrame) :=
  let maxFrames := default (ofZ 10) (feMaxFrames options) in
  let maxWidth := default (ofZ 1920) (feMaxWidth options) in
  let outputFormat := default jpeg (feOutputFormat options) in
  let jpegQuality := default (ofZ 80) (feJpegQuality options) in
  let! _ := ensureTempDir in
  let frameDir :=
    joinPath tempDir ("frames-" +:+ numToString (ofZ (now W))) in
  let! _ := emit (EvMkdir frameDir) in
  match fsMkdir W frameDir with
  | Some msg => throw msg
  | None =>
      let! md := getMetadata videoPath in
      let frameInterval :=
        match feInterval options with
        | Some v =>
            if truthy v then v
            else nmax (ofZ 1) (nfloor (duration md / maxFrames)%js)
        | None => nmax (ofZ 1) (nfloor (duration md / maxFrames)%js)
        end in
      let totalFrames :=
        nmin maxFrames (nfloor (duration md / frameInterval)%js) in
      tryFinally
        (extractLoop (extractFuel totalFrames) totalFrames
           (extractFrameAt videoPath frameDir frameInterval maxWidth
              outputFormat jpegQuality) 0)
        (emit (EvRm frameDir))
  end.

(** [extractAudio] *)
Definition extractAudio (videoPath : string) (options : AudioExtractionOptions)
    : M string :=
  let fmt := default mp3 (aeFormat options) in
  let bitrate := default "128k" (aeBitrate options) in
  let! _ := ensureTempDir in
  let audioPath :=
    joinPath tempDir
      ("audio-" +:+ numToString (ofZ (now W)) +:+ "." +:+ audioExt fmt) in
  let cmd :=
    {| acSeekInput := aeStartTime options;
       acDuration :=
         match aeEndTime options, aeStartTime options with
         | Some e, Some s => Some (e - s)%js
         | _, _ => None
         end;
       acCodec := match fmt with mp3 => "libmp3lame" | wav => "pcm_s16le" end;
       acBitrate := match fmt with mp3 => Some bitrate | wav => None end |} in
  let! _ := emit (EvFfmpegAudio videoPath cmd audioPath) in
  match ffmpegAudio W videoPath cmd audioPath with
  | None => ret audioPath
  | Some msg => throw ("Failed to extract audio: " +:+ msg)
  end.

Definition noAudioOptions : AudioExtractionOptions :=
  {| aeFormat := None; aeBitrate := None; aeStartTime := None; aeEndTime := None |}.

(** [analyzeVideo] *)
Definition analyzeVideo (videoPath : string) (shouldExtractFrames : option bool)
    (maxFrames : option number) (shouldExtractAudio : option bool)
    (frameInterval : option number) : M VideoAnalysis :=
  let shouldExtractFrames := default true shouldExtractFrames in
  let maxFrames := default (ofZ 10) maxFrames in
  let shouldExtractAudio := default true shouldExtractAudio in
  let! md := getMetadata videoPath in
  let! frames :=
    (if shouldExtractFrames then
       extractFrames videoPath
         {| feMaxFrames := Some maxFrames; feInterval := frameInterval;
            feMaxWidth := None; feOutputFormat := Some jpeg;
            feJpegQuality := Some (ofZ 80) |}
     else ret []) in
  let! audioPath :=
    (if shouldExtractAudio && hasAudio md then
       tryCatch
         (let! p := extractAudio videoPath noAudioOptions in ret (Some p))
         (fun msg =>
            let! _ := emit (EvConsoleError ("Failed to extract audio: " +:+ msg)) in
            ret None)
     else ret None) in
  ret {| vaMetadata := md; vaFrames := frames; vaAudioPath := audioPath |}.

(** [estimateTokens] *)
Definition estimateTokens (videoPath : string) (frameCount : option number)
    : M TokenEstimate :=
  let frameCount := default (ofZ 10) frameCount in
  let! md := getMetadata videoPath in
  let perFrameTokens := estimateFrameTokens (width md) (height md) in
  let totalFrameTokens := (frameCount * perFrameTokens)%js in
  let total := (BASE_METADATA_TOKENS + totalFrameTokens)%js in
  ret {| teMetadata := BASE_METADATA_TOKENS;
         tePerFrame := perFrameTokens;
         teTotal := total;
         teWarning :=
           if (total >? WARNING_TOKEN_THRESHOLD)%js then
             Some ("Estimated " +:+ numToString (nround (total / ofZ 1000)%js)
                   +:+ "K tokens exceeds recommended limit. Consider reducing frame count or fetching frames progressively.")
           else None |}.

End Processor.

(** ** The tool handlers of the server *)

Inductive ToolCall : Type :=
| GetVideoOverview (videoPath : string) (frameCount : option number)
| GetVideoMetadata (videoPath : string)
| EstimateAnalysisCost (videoPath : string) (frameCount : option number)
| GetFrame (videoPath : string) (timestamp : number) (maxWidth : option number)
    (fmt : option ImageFormat) (quality : option number)
| GetFramesBatch (videoPath : string) (timestamps : list number)
    (maxWidth : option number) (fmt : option ImageFormat)
| ExtractAudio (videoPath : string) (options : AudioExtractionOptions)
| AnalyzeVideoFull (videoPath : string) (maxFrames : option number)
    (extractAudio : option bool) (frameInterval : option number)
| UnknownTool (name : string).

(** The JSON payload of a response, field by field. *)
Inductive ToolResult : Type :=
| RFailure (error : string) (hint : option string) (isError : bool)
| ROverview (filename : string) (metadata : VideoMetadataSummary)
    (audio : AudioStatus) (availableFrames : list FrameReference)
    (contextHints : list ContextHint)
| RMetadata (filename : string) (summary : VideoMetadataSummary)
    (md : VideoMetadata) (bitrateText : string)
| REstimate (estimate : TokenEstimate) (totalForFrames : number)
    (recommendation : string)
| RFrame (frame : FrameData)
| RBatch (framesExtracted totalTimestampsRequested : nat) (limited : bool)
    (frames : list FrameData)
| RAudio (audioPath : string) (fmt : AudioFormat)
    (segment : option (number * number))
| RFull (contextWarning : option string) (filename : string)
    (summary : VideoMetadataSummary) (md : VideoMetadata)
    (bitrateText : string) (frames : list VideoFrame)
    (audioPath : option string).

Section Server.
Context `{host : Host} (W : World).
Local Open Scope proc_scope.

(** [checkFile] *)
Definition checkFile (filePath : string) : M bool :=
  let! _ := emit (EvAccess filePath) in
  ret (fsAccess W filePath).

Definition fileNotFound (videoPath : string) (hint : option string) : ToolResult :=
  RFailure ("File not found: " +:+ videoPath) hint false.

Definition kbps (bitrate : number) : string :=
  numToString (nround (bitrate / ofZ 1000)%js) +:+ " kbps".

(** The [switch] of the request handler, one case per tool. *)
Definition dispatch (call : ToolCall) : M ToolResult :=
  match call with
  | GetVideoOverview videoPath frameCount =>
      let frameCount := default (ofZ 10) frameCount in
      let! found := checkFile videoPath in
      if negb found then
        ret (fileNotFound videoPath
               (Some "Please provide an absolute path to an existing video file."))
      else
        let! overview := getVideoOverview W videoPath (Some frameCount) in
        ret (ROverview (filename overview) (metadata overview) (audio overview)
               (availableFrames overview) (contextHints overview))
  | GetVideoMetadata videoPath =>
      let! found := checkFile videoPath in
      if negb found then ret (fileNotFound videoPath None)
      else
        let! md := getMetadata W videoPath in
        let! summary := getMetadataSummary W videoPath in
        ret (RMetadata (basename videoPath) summary md (kbps (bitrate md)))
  | EstimateAnalysisCost videoPath frameCount =>
      let frameCount := default (ofZ 10) frameCount in
      let! found := checkFile videoPath in
      if negb found then ret (fileNotFound videoPath None)
      else
        let! estimate := estimateTokens W videoPath (Some frameCount) in
        ret (REstimate estimate (frameCount * tePerFrame estimate)%js
               (match teWarning estimate with
                | Some _ =>
                    "Consider using progressive frame fetching (get_frame) instead of full analysis"
                | None => "Context budget is manageable for this analysis"
                end))
  | GetFrame videoPath timestamp maxWidth fmt quality =>
      let maxWidth := default (ofZ 1920) maxWidth in
      let fmt := default jpeg fmt in
      let quality := default (ofZ 80) quality in
      let! found := checkFile videoPath in
      if negb found then ret (fileNotFound videoPath None)
      else
        let! frame :=
          extractSingleFrame W videoPath timestamp (Some maxWidth) (Some fmt)
            (Some quality) in
        ret (RFrame frame)
  | GetFramesBatch videoPath timestamps maxWidth fmt =>
      let maxWidth := default (ofZ 1920) maxWidth in
      let fmt := default jpeg fmt in
      let! found := checkFile videoPath in
      if negb found then ret (fileNotFound videoPath None)
      else
        let limitedTimestamps := take 5 timestamps in
        let! _ :=
          (if (5 <? length timestamps)%nat then
             emit (EvConsoleError
                     ("Warning: Limited from "
                      +:+ numToString (ofNat (length timestamps))
                      +:+ " to 5 frames for context management"))
           else ret tt) in
        let! frames :=
          promiseAll W (7 * length limitedTimestamps)
            (map (fun ts =>
                    extractSingleFrameTask W videoPath ts (Some maxWidth)
                      (Some fmt) (Some (ofZ 80)))
               limitedTimestamps) in
        ret (RBatch (length frames) (length timestamps)
               (5 <? length timestamps)%nat frames)
  | ExtractAudio videoPath options =>
      let fmt := default mp3 (aeFormat options) in
      let bitrate := default "128k" (aeBitrate options) in
      let! found := checkFile videoPath in
      if negb found then ret (fileNotFound videoPath None)
      else
        let! md := getMetadata W videoPath in
        if negb (hasAudio md) then
          ret (RFailure "Video does not have an audio track" None false)
        else
          let! audioPath :=
            extractAudio W videoPath
              {| aeFormat := Some fmt; aeBitrate := Some bitrate;
                 aeStartTime := aeStartTime options;
                 aeEndTime := aeEndTime options |} in
          ret (RAudio audioPath fmt
                 (match aeStartTime options with
                  | Some startTime =>
                      Some (startTime,
                            match aeEndTime options with
                            | Some e => if truthy e then e else duration md
                            | None => duration md
                            end)
                  | None => None
                  end))
  | AnalyzeVideoFull videoPath maxFrames shouldExtractAudio frameInterval =>
      let maxFrames := default (ofZ 8) maxFrames in
      let shouldExtractAudio := default true shouldExtractAudio in
      let! found := checkFile videoPath in
      if negb found then ret (fileNotFound videoPath None)
      else
        let! estimate := estimateTokens W videoPath (Some maxFrames) in
        let! analysis :=
          analyzeVideo W videoPath (Some true) (Some (nmin maxFrames (ofZ 15)))
            (Some shouldExtractAudio) frameInterval in
        let! summary := getMetadataSummary W videoPath in
        ret (RFull (teWarning estimate) (basename videoPath) summary
               (vaMetadata analysis) (kbps (bitrate (vaMetadata analysis)))
               (vaFrames analysis) (vaAudioPath analysis))
  | UnknownTool name => ret (RFailure ("Unknown tool: " +:+ name) None false)
  end.

(** The request handler: [dispatch] inside the outer [try]/[catch]. *)
Definition callTool (call : ToolCall) : M ToolResult :=
  tryCatch (dispatch call)
    (fun msg =>
       ret (RFailure msg
              (Some "Check that the video file exists and is in a supported format.")
              true)).

End Server.

(** What a run of a method emits, started on an empty trace. *)
Definition eventsOf {A : Type} (m : M A) (cache : gmap string (list FrameReference))
    : list Event :=
  trace (m {| frameCache := cache; trace := [] |}).2.

Definition resultOf {A : Type} (m : M A) (s : ProcState) : Outcome A := (m s).1.

(** The events of the frame decoder and of the audio extractor. *)
Definition isExtraction (e : Event) : bool :=
  match e with
  | EvFfmpegFrame _ _ _ | EvFfmpegAudio _ _ _ => true
  | _ => false
  end.

(** The events that only probe a file: [fs.access], ffprobe, [fs.stat]. *)
Definition isProbe (e : Event) : bool :=
  match e with
  | EvAccess _ | EvProbe _ | EvStat _ => true
  | _ => false
  end.

(** The timestamps handed to the frame decoder. *)
Definition decodedTimestamps (evs : list Event) : list number :=
  omap (fun e => match e with EvFfmpegFrame _ ts _ => Some ts | _ => None end) evs.

(** ** A concrete host and concrete worlds, to run the model on *)

Definition showNumber (a : number) : string :=
  match a with
  | NaN => "NaN"
  | Infinity => "Infinity"
  | NegInfinity => "-Infinity"
  | Num q =>
      match Qden (Qred q) with
      | 1%positive => pretty (Qnum (Qred q))
      | d => pretty (Qnum (Qred q)) +:+ "/" +:+ pretty (Zpos d)
      end
  end.

Definition sampleHost : Host :=
  {| numToString := showNumber;
     basename := fun p => p;
     joinPath := fun a b => a +:+ "/" +:+ b;
     tmpdir := "/tmp";
     toBase64 := fun b => b;
     evalNumber := fun _ => ofZ 30 |}.

Definition videoStream1080 : ProbeStream :=
  {| codec_type := "video"; streamWidth := Some (ofZ 1920);
     streamHeight := Some (ofZ 1080); r_frame_rate := Some "30/1";
     codec_name := Some "h264" |}.

Definition audioStreamAac : ProbeStream :=
  {| codec_type := "audio"; streamWidth := None; streamHeight := None;
     r_frame_rate := None; codec_name := Some "aac" |}.

(** A 100 s Full HD file; [withAudio] adds an audio stream.  The decoder
    writes a frame for whatever timestamp it is given. *)
Definition sampleWorld (withAudio : bool) : World :=
  {| now := 1700000000000;
     fsAccess := fun _ => true;
     fsStat := fun _ => Some (ofZ 1048576);
     fsMkdir := fun _ => None;
     ffprobe := fun _ =>
       inr {| streams :=
                if withAudio then [videoStream1080; audioStreamAac]
                else [videoStream1080];
              formatDuration := Some (ofZ 100);
              format_name := Some "mp4";
              bit_rate := Some (ofZ 2000000) |};
     ffmpegFrame := fun _ _ _ => FfEnd (Some "raw");
     ffmpegAudio := fun _ _ _ => None;
     sharpMetadata := fun _ =>
       inr {| imWidth := Some (ofZ 1920); imHeight := Some (ofZ 1080) |};
     sharpEncode := fun _ _ _ _ => inr "encoded";
     schedule := fun _ => 0%nat |}.

(** The same file behind a decoder that rejects seeks outside [0, 100). *)
Definition strictWorld : World :=
  {| now := now (sampleWorld false);
     fsAccess := fsAccess (sampleWorld false);
     fsStat := fsStat (sampleWorld false);
     fsMkdir := fsMkdir (sampleWorld false);
     ffprobe := ffprobe (sampleWorld false);
     ffmpegFrame := fun _ ts _ =>
       if (ts <? ofZ 0)%js || (ts >=? ofZ 100)%js
       then FfError "seek out of range" else FfEnd (Some "raw");
     ffmpegAudio := ffmpegAudio (sampleWorld false);
     sharpMetadata := sharpMetadata (sampleWorld false);
     sharpEncode := sharpEncode (sampleWorld false);
     schedule := schedule (sampleWorld false) |}.

(** The sample file behind a decoder whose frame tells the timestamp it was
    decoded at and an encoder that leaves the image as it is; the awaited
    operations of concurrent promises complete in the order [order]. *)
Definition racingWorld (order : nat -> nat) : World :=
  {| now := now (sampleWorld false);
     fsAccess := fsAccess (sampleWorld false);
     fsStat := fsStat (sampleWorld false);
     fsMkdir := fsMkdir (sampleWorld false);
     ffprobe := ffprobe (sampleWorld false);
     ffmpegFrame := fun _ ts _ => FfEnd (Some ("frame@" +:+ showNumber ts));
     ffmpegAudio := ffmpegAudio (sampleWorld false);
     sharpMetadata := sharpMetadata (sampleWorld false);
     sharpEncode := fun buffer _ _ _ => inr buffer;
     schedule := order |}.

Definition emptyState : ProcState := {| frameCache := ∅; trace := [] |}.

Definition sampleMetadata (d w h : Z) : VideoMetadata :=
  {| duration := ofZ d; width := ofZ w; height := ofZ h; fps := ofZ 30;
     codec := "h264"; format := "mp4"; bitrate := ofZ 2000000;
     hasAudio := false; audioCodec := None; fileSize := None |}.

(** ** Vocabulary of the properties *)

(** Both finite, and in order. *)
Definition finle (a b : number) : Prop :=
  match a, b with
  | Num x, Num y => (x <= y)%Q
  | _, _ => False
  end.

(** What [estimateFrameTokens] charges for a pixel count. *)
Definition costOfPixels (pixels : number) : number :=
  nceil (pixels * Num (1 # 10) / ofZ 1024 * TOKENS_PER_KB_BASE64
         * ofZ 1000 * TOKENS_PER_CHAR)%js.

(** The test of the planning loop at iteration [i]. *)
Definition planTest (md : VideoMetadata) (frameCount frameInterval : number)
    (i : nat) : bool :=
  (ofNat i <? frameCount)%js && (ofNat i * frameInterval <? duration md)%js.

(** [frames.reduce((sum, f) => sum + f.estimatedTokens, 0)] *)
Definition totalFrameTokens (frames : list FrameReference) : number :=
  foldl (fun sum f => sum + estimatedTokens f)%js (Num 0) frames.

Definition byPriorityDesc (a b : ContextHint) : Prop :=
  nge (priority a) (priority b) = true.

Definition isBaselineAction (h : ContextHint) : Prop :=
  hintType h = action /\ priority h = ofZ 3.

Definition isWarning10 (h : ContextHint) : Prop :=
  hintType h = warning /\ priority h = ofZ 10.

(** The state after some more events. *)
Definition addEvents (s : ProcState) (evs : list Event) : ProcState :=
  {| frameCache := frameCache s; trace := (trace s ++ evs)%list |}.

(** [blind P m]: the result of [m] and the events it appends are the same
    from every state (every cache, every trace so far), and the events all
    satisfy [P]. *)
Definition blind {A : Type} (P : Event -> Prop) (m : M A) : Prop :=
  exists r evs,
    Forall P evs
    /\ forall s, (m s).1 = r /\ trace (m s).2 = (trace s ++ evs)%list.

Definition anyEvent (e : Event) : Prop := True.
Definition probeEvent (e : Event) : Prop := isProbe e = true.

(** [returns m]: the method ends, with a value or an exception, from every
    state. *)
Definition returns {A : Type} (m : M A) : Prop :=
  forall s, (m s).1 <> Diverge.

(** The temporary file [extractSingleFrame] has the decoder write to. *)
Definition singleFramePath `{host : Host} (W : World) (fmt : ImageFormat)
    : string :=
  joinPath tempDir
    ("frame-" +:+ numToString (ofZ (now W)) +:+ "." +:+ formatExt fmt).

(** The decoder gives no frame: it reports an error, or ends without having
    written its output. *)
Definition decoderFails (r : FfmpegResult) : Prop :=
  match r with
  | FfError _ | FfEnd None => True
  | FfEnd (Some _) => False
  end.

(** A file whose video stream reports no dimensions: [getMetadata] reads
    them as 0. *)
Definition noDimsWorld : World :=
  {| now := now (sampleWorld false);
     fsAccess := fsAccess (sampleWorld false);
     fsStat := fsStat (sampleWorld false);
     fsMkdir := fsMkdir (sampleWorld false);
     ffprobe := fun _ =>
       inr {| streams :=
                [{| codec_type := "video"; streamWidth := None;
                    streamHeight := None; r_frame_rate := Some "30/1";
                    codec_name := Some "h264" |}];
              formatDuration := Some (ofZ 100);
              format_name := Some "mp4";
              bit_rate := Some (ofZ 2000000) |};
     ffmpegFrame := ffmpegFrame (sampleWorld false);
     ffmpegAudio := ffmpegAudio (sampleWorld false);
     sharpMetadata := sharpMetadata (sampleWorld false);
     sharpEncode := sharpEncode (sampleWorld false);
     schedule := schedule (sampleWorld false) |}.

(** [fetching ts d decoded t]: the task [t] is a fetch of the timestamp
    [ts] that awaits at most [d] more operations; [decoded] tells whether
    its run of the decoder is behind it.  The decoder is handed [ts], once,
    and a frame the task resolves to is stamped [ts]. *)
Fixpoint fetching (ts : number) (d : nat) (decoded : bool)
    (t : Task FrameData) {struct t} : Prop :=
  match t with
  | Resolved frame => decoded = true /\ timestamp (frameRef frame) = ts
  | Rejected _ => decoded = true
  | Await op k =>
      match d with
      | O => False
      | S d' =>
          forall fs, exists decoded',
            decodedTimestamps (op fs).1.1
            = (if negb decoded && decoded' then [ts] else [])
            /\ (decoded = true -> decoded' = true)
            /\ fetching ts d' decoded' (k (op fs).2)
      end
  end.

(** [poolOf tss pool n dec]: the pool holds one fetch per timestamp of
    [tss], in order; together they await at most [n] more operations, and
    [dec] lists the timestamps of those whose decoder has run. *)
Inductive poolOf :
    list number -> list (Task FrameData) -> nat -> list number -> Prop :=
| poolOf_nil : poolOf [] [] 0 []
| poolOf_cons ts tss t pool d b n dec :
    fetching ts d b t ->
    poolOf tss pool n dec ->
    poolOf (ts :: tss) (t :: pool) (d + n)
      ((if b then [ts] else []) ++ dec)%list.

(** [oneAtATime W n]: of up to [n] waiting promises the schedule always
    resumes the one started first, so the promises run one after another. *)
Definition oneAtATime (W : World) (n : nat) : Prop :=
  forall step m, (m < n)%nat -> (schedule W step `mod` S m = 0)%nat.

(** [keepsCache m]: the method leaves the frame cache as it found it. *)
Definition keepsCache {A : Type} (m : M A) : Prop :=
  forall s, frameCache (m s).2 = frameCache s.

Definition isOverviewCall (call : ToolCall) : bool :=
  match call with GetVideoOverview _ _ => true | _ => false end.

(** The file a tool call is about. *)
Definition videoPathOf (call : ToolCall) : option string :=
  match call with
  | GetVideoOverview p _ | GetVideoMetadata p | EstimateAnalysisCost p _
  | GetFrame p _ _ _ _ | GetFramesBatch p _ _ _ | ExtractAudio p _
  | AnalyzeVideoFull p _ _ _ => Some p
  | UnknownTool _ => None
  end.

(** [decodesAtMost k m]: a run of [m] runs the frame decoder at most [k]
    times. *)
Definition decodesAtMost {A : Type} (k : nat) (m : M A) : Prop :=
  forall s, exists evs,
    trace (m s).2 = (trace s ++ evs)%list
    /\ (length (decodedTimestamps evs) <= k)%nat.

(** The temporary directory [extractFrames] has the decoder write to. *)
Definition framesDir `{host : Host} (W : World) : string :=
  joinPath tempDir ("frames-" +:+ numToString (ofZ (now W))).

Definition isRemoval (e : Event) : bool :=
  match e with EvRm _ => true | _ => false end.

(** * Properties *)

(** ** Numbers *)

Lemma qsign_pos (q : Q) : (0 < q)%Q -> qsign q = Gt.
Proof. intros H. unfold qsign. now apply Qgt_alt. Qed.

Lemma nlt_Num (x y : Q) : nlt (Num x) (Num y) = true <-> (x < y)%Q.
Proof.
  simpl. rewrite Qlt_alt. destruct (x ?= y)%Q; split; congruence.
Qed.

Lemma nlt_Num_false (x y : Q) : nlt (Num x) (Num y) = false <-> (y <= x)%Q.
Proof.
  rewrite <- not_true_iff_false, nlt_Num. split.
  - apply Qnot_lt_le.
  - apply Qle_not_lt.
Qed.

Lemma nge_Num (x y : Q) : nge (Num x) (Num y) = true <-> (y <= x)%Q.
Proof.
  unfold nge. rewrite negb_true_iff. apply nlt_Num_false.
Qed.

Lemma finle_nge (a b : number) : finle a b -> nge b a = true.
Proof.
  destruct a, b; simpl; try tauto. intros H. now apply nge_Num.
Qed.

Lemma finle_mul_const (a b : number) (c : Q) :
  (0 <= c)%Q -> finle a b -> finle (a * Num c)%js (b * Num c)%js.
Proof.
  destruct a as [| |x|], b as [| |y|]; simpl; try tauto.
  intros Hc H. rewrite !Qred_correct. now apply Qmult_le_compat_r.
Qed.

Lemma finle_div_const (a b : number) (c : Q) :
  (0 < c)%Q -> finle a b -> finle (a / Num c)%js (b / Num c)%js.
Proof.
  destruct a as [| |x|], b as [| |y|]; simpl; try tauto.
  intros Hc H. rewrite (qsign_pos c Hc). simpl. rewrite !Qred_correct.
  unfold Qdiv. apply Qmult_le_compat_r; [assumption|].
  apply Qlt_le_weak, Qinv_lt_0_compat, Hc.
Qed.

Lemma finle_ceil (a b : number) : finle a b -> finle (nceil a) (nceil b).
Proof.
  destruct a as [| |x|], b as [| |y|]; simpl; try tauto.
  intros H. rewrite <- Zle_Qle. now apply Qceiling_resp_le.
Qed.

Lemma isNonNegInteger_ofZ (z : Z) : (0 <= z)%Z -> isNonNegInteger (ofZ z) = true.
Proof.
  intros H. unfold isNonNegInteger, ofZ. apply andb_true_iff. split.
  - apply Qle_bool_iff. now rewrite (Zle_Qle 0 z) in H.
  - apply Qeq_bool_iff. now rewrite Qfloor_Z.
Qed.

(** ** The token-cost estimators *)

Lemma estimateFrameTokens_cost (w h : number) :
  estimateFrameTokens w h = costOfPixels (effectivePixels w h).
Proof. reflexivity. Qed.

Lemma costOfPixels_mono (p q : number) :
  finle p q -> finle (costOfPixels p) (costOfPixels q).
Proof.
  intros H. unfold costOfPixels, TOKENS_PER_KB_BASE64, TOKENS_PER_CHAR, ofZ.
  apply finle_ceil.
  apply finle_mul_const; [easy|].
  apply finle_mul_const; [easy|].
  apply finle_mul_const; [easy|].
  apply finle_div_const; [easy|].
  apply finle_mul_const; [easy|]. exact H.
Qed.

Lemma costOfPixels_nonneg (q : Q) :
  (0 <= q)%Q -> isNonNegInteger (costOfPixels (Num q)) = true.
Proof.
  intros Hq.
  assert (H : finle (costOfPixels (Num 0)) (costOfPixels (Num q)))
    by (apply costOfPixels_mono; exact Hq).
  change (costOfPixels (Num 0)) with (ofZ 0) in H.
  unfold costOfPixels in *.
  destruct (_ * TOKENS_PER_CHAR)%js as [| |x|] eqn:E; simpl in H; try tauto.
  simpl. apply isNonNegInteger_ofZ. now rewrite Zle_Qle.
Qed.

Lemma Qfloor_half (h : Z) : Qfloor (inject_Z h + (1 # 2)) = h.
Proof.
  unfold Qfloor, Qplus, inject_Z. simpl.
  symmetry. apply Z.div_unique with (r := 1%Z); lia.
Qed.

Lemma inject_Z_pos (z : Z) : (0 < z)%Z -> (0 < inject_Z z)%Q.
Proof. intros H. change 0%Q with (inject_Z 0). now rewrite <- Zlt_Qlt. Qed.

Lemma inject_Z_nonneg (z : Z) : (0 <= z)%Z -> (0 <= inject_Z z)%Q.
Proof. intros H. change 0%Q with (inject_Z 0). now rewrite <- Zle_Qle. Qed.

Lemma nmul_Num (x y : Q) : (Num x * Num y)%js = Num (Qred (x * y)).
Proof. reflexivity. Qed.

Lemma ndiv_Num_pos (x y : Q) :
  (0 < y)%Q -> (Num x / Num y)%js = Num (Qred (x / y)).
Proof. intros H. unfold ndiv. now rewrite (qsign_pos y H). Qed.

Lemma nround_Num (x : Q) : nround (Num x) = Num (inject_Z (Qfloor (x + (1 # 2)))).
Proof. reflexivity. Qed.

Lemma nmin_Num (x y : Q) :
  nmin (Num x) (Num y) = if nlt (Num y) (Num x) then Num y else Num x.
Proof. reflexivity. Qed.

(** A width of at most 1920 is not clamped: the estimator charges for the
    pixel count itself. *)
Lemma effectivePixels_unclamped (w h : Z) :
  (0 < w <= 1920)%Z ->
  exists q, effectivePixels (ofZ w) (ofZ h) = Num q /\ (q == inject_Z (w * h))%Q.
Proof.
  intros [Hw0 Hw]. unfold effectivePixels, ofZ.
  rewrite nmin_Num.
  assert (Hlt : nlt (Num (inject_Z 1920)) (Num (inject_Z w)) = false).
  { apply nlt_Num_false. rewrite <- Zle_Qle. exact Hw. }
  rewrite Hlt.
  assert (Hq : (0 < inject_Z w)%Q) by (now apply inject_Z_pos).
  rewrite nmul_Num, (ndiv_Num_pos _ _ Hq), nround_Num, nmul_Num.
  assert (E : Qfloor (Qred (Qred (inject_Z w * inject_Z h) / inject_Z w) + (1 # 2)) = h).
  { rewrite (Qfloor_comp _ (inject_Z h + (1 # 2))); [apply Qfloor_half|].
    rewrite !Qred_correct. field. intros E0. rewrite E0 in Hq. now apply Qlt_irrefl in Hq. }
  rewrite E. eexists. split; [reflexivity|].
  rewrite Qred_correct, inject_Z_mult. reflexivity.
Qed.

(** A wider frame is scaled down to 1920 columns: it is charged for no more
    than its own pixel count. *)
Lemma effectivePixels_clamped (w h : Z) :
  (1920 < w)%Z -> (0 <= h)%Z ->
  exists q, effectivePixels (ofZ w) (ofZ h) = Num q
            /\ (0 <= q)%Q /\ (q <= inject_Z (w * h))%Q.
Proof.
  intros Hw Hh. unfold effectivePixels, ofZ.
  rewrite nmin_Num.
  assert (Hlt : nlt (Num (inject_Z 1920)) (Num (inject_Z w)) = true).
  { apply nlt_Num. rewrite <- Zlt_Qlt. exact Hw. }
  rewrite Hlt.
  assert (Hq : (0 < inject_Z w)%Q) by (apply inject_Z_pos; lia).
  assert (Hhq : (0 <= inject_Z h)%Q) by (now apply inject_Z_nonneg).
  assert (Hwq : (inject_Z 1920 < inject_Z w)%Q) by (now rewrite <- Zlt_Qlt).
  rewrite nmul_Num, (ndiv_Num_pos _ _ Hq), nround_Num, nmul_Num.
  set (x := Qred (Qred (inject_Z 1920 * inject_Z h) / inject_Z w)).
  assert (Hx : (x == inject_Z 1920 * inject_Z h / inject_Z w)%Q).
  { unfold x. rewrite !Qred_correct. reflexivity. }
  assert (Hx0 : (0 <= x)%Q).
  { rewrite Hx. apply Qle_shift_div_l; [exact Hq|].
    rewrite Qmult_0_l. apply Qmult_le_0_compat; [easy|exact Hhq]. }
  assert (Hxh : (x <= inject_Z h)%Q).
  { rewrite Hx. apply Qle_shift_div_r; [exact Hq|].
    rewrite (Qmult_comm (inject_Z h)).
    apply Qmult_le_compat_r; [apply Qlt_le_weak, Hwq | exact Hhq]. }
  assert (He0 : (0 <= Qfloor (x + (1 # 2)))%Z).
  { change 0%Z with (Qfloor 0). apply Qfloor_resp_le.
    apply Qle_trans with x; [exact Hx0|].
    rewrite <- (Qplus_0_r x) at 1. apply Qplus_le_r. easy. }
  assert (Heh : (Qfloor (x + (1 # 2)) <= h)%Z).
  { rewrite <- (Qfloor_half h). apply Qfloor_resp_le.
    apply Qplus_le_l, Hxh. }
  set (e := Qfloor (x + (1 # 2))) in *.
  eexists. split; [reflexivity|]. rewrite Qred_correct.
  apply inject_Z_nonneg in He0. rewrite Zle_Qle in Heh.
  rewrite inject_Z_mult. split.
  - apply Qmult_le_0_compat; [easy|exact He0].
  - apply Qle_trans with (inject_Z 1920 * inject_Z h)%Q.
    + apply Qmult_le_l; [easy|exact Heh].
    + apply Qmult_le_compat_r; [apply Qlt_le_weak, Hwq | exact Hhq].
Qed.

Lemma effectivePixels_le_pixels (w h : Z) :
  (0 < w)%Z -> (0 <= h)%Z ->
  exists q, effectivePixels (ofZ w) (ofZ h) = Num q
            /\ (0 <= q)%Q /\ (q <= inject_Z (w * h))%Q.
Proof.
  intros Hw Hh. destruct (Z_le_gt_dec w 1920) as [Hle|Hgt].
  - destruct (effectivePixels_unclamped w h) as (q & E & Hq); [lia|].
    exists q. split; [exact E|]. rewrite Hq. split; [|apply Qle_refl].
    apply inject_Z_nonneg. lia.
  - apply effectivePixels_clamped; lia.
Qed.

(** For a positive width and a non-negative height the frame estimate is a
    non-negative integer. *)
Lemma estimateFrameTokens_nonneg (w h : Z) :
  (0 < w)%Z -> (0 <= h)%Z ->
  isNonNegInteger (estimateFrameTokens (ofZ w) (ofZ h)) = true.
Proof.
  intros Hw Hh. rewrite estimateFrameTokens_cost.
  destruct (effectivePixels_le_pixels w h Hw Hh) as (q & -> & Hq & _).
  now apply costOfPixels_nonneg.
Qed.

(** The estimate over an encoded length (the length of a string) is a
    non-negative integer. *)
Lemma estimateBase64Tokens_nonneg (n : nat) :
  isNonNegInteger (estimateBase64Tokens (ofNat n)) = true.
Proof.
  assert (H : finle (estimateBase64Tokens (ofNat 0)) (estimateBase64Tokens (ofNat n))).
  { unfold estimateBase64Tokens, TOKENS_PER_KB_BASE64, TOKENS_PER_CHAR, ofZ.
    apply finle_ceil.
    apply finle_mul_const; [easy|].
    apply finle_mul_const; [easy|].
    apply finle_mul_const; [easy|].
    apply finle_div_const; [easy|].
    unfold ofNat, ofZ. simpl. rewrite <- Zle_Qle. lia. }
  change (estimateBase64Tokens (ofNat 0)) with (ofZ 0) in H.
  unfold estimateBase64Tokens in *.
  destruct (_ * TOKENS_PER_CHAR)%js as [| |x|] eqn:E; simpl in H; try tauto.
  simpl. apply isNonNegInteger_ofZ. now rewrite Zle_Qle.
Qed.

(** C7, as stated, fails: a 3840x100 frame has more pixels than a 1920x190
    one, but it is charged after the clamp of its width to 1920, as a 1920x50
    frame, and gets the smaller estimate. *)
Lemma estimateFrameTokens_not_monotone_in_pixels :
  (1920 * 190 <= 3840 * 100)%Z
  /\ estimateFrameTokens (ofZ 3840) (ofZ 100) = ofZ 3118
  /\ estimateFrameTokens (ofZ 1920) (ofZ 190) = ofZ 11846
  /\ nge (estimateFrameTokens (ofZ 3840) (ofZ 100))
         (estimateFrameTokens (ofZ 1920) (ofZ 190)) = false.
Proof. repeat split; [lia | vm_compute; reflexivity ..]. Qed.

(** C7, amended: for resolutions of positive integer dimensions, when the
    frame with the larger pixel count is at most 1920 wide (it is not scaled
    down), its estimate is at least the estimate of the other frame. *)
Theorem estimateFrameTokens_monotone (wA hA wB hB : Z) :
  (0 < wA <= 1920)%Z -> (0 < wB)%Z -> (0 <= hB)%Z ->
  (wB * hB <= wA * hA)%Z ->
  nge (estimateFrameTokens (ofZ wA) (ofZ hA))
      (estimateFrameTokens (ofZ wB) (ofZ hB)) = true.
Proof.
  intros HwA HwB HhB Hpix. apply finle_nge.
  rewrite !estimateFrameTokens_cost. apply costOfPixels_mono.
  destruct (effectivePixels_unclamped wA hA HwA) as (qA & -> & HqA).
  destruct (effectivePixels_le_pixels wB hB HwB HhB) as (qB & -> & _ & HqB).
  simpl. rewrite HqA. apply Qle_trans with (inject_Z (wB * hB)); [exact HqB|].
  now rewrite <- Zle_Qle.
Qed.

Lemma estimateFrameTokens_monotone_witness :
  nge (estimateFrameTokens (ofZ 1920) (ofZ 1080))
      (estimateFrameTokens (ofZ 1280) (ofZ 720)) = true.
Proof.
  apply (estimateFrameTokens_monotone 1920 1080 1280 720); lia.
Defined.

(** The estimator is monotonic in the pixel count it charges for. *)
Lemma estimateFrameTokens_monotone_effective (wA hA wB hB : number) :
  finle (effectivePixels wB hB) (effectivePixels wA hA) ->
  nge (estimateFrameTokens wA hA) (estimateFrameTokens wB hB) = true.
Proof.
  intros H. apply finle_nge. rewrite !estimateFrameTokens_cost.
  now apply costOfPixels_mono.
Qed.

(** C8: the estimate over an encoded length is always a non-negative
    integer, and so is the frame estimate for a positive width
    ([estimateBase64Tokens_nonneg], [estimateFrameTokens_nonneg]); but for a
    width of 0, which [getMetadata] produces for a stream without
    dimensions, [estimateFrameTokens] divides by zero and returns [NaN], and
    [estimateTokens] reports [NaN] per frame and in total. *)
Theorem estimateFrameTokens_zero_width :
  estimateFrameTokens (ofZ 0) (ofZ 1080) = NaN
  /\ isNonNegInteger (estimateFrameTokens (ofZ 0) (ofZ 1080)) = false
  /\ resultOf (estimateTokens (host := sampleHost) noDimsWorld "/v.mp4" None)
       emptyState
     = Ok {| teMetadata := ofZ 150; tePerFrame := NaN; teTotal := NaN;
             teWarning := None |}.
Proof. repeat split. Qed.

(** ** The duration hint of the metadata summarizer *)

(** C9, as stated, fails: 45 s is not below 30 s, so the hint is not the one
    of the short-video branch (10 frames, interval 4.5). *)
Lemma durationHint_45_not_short :
  parameters (durationHint (sampleMetadata 45 1920 1080))
  <> Some [("maxFrames", ofZ 10); ("interval", Num (9 # 2))].
Proof. vm_compute. discriminate. Qed.

(** C9, amended: for a video of duration 45 seconds the duration hint is the
    one of the medium-video branch: 15 frames, interval floor(45 / 15) = 3. *)
Theorem durationHint_45 (md : VideoMetadata) :
  duration md = ofZ 45 ->
  aspect (durationHint md) = AspDuration
  /\ recommendation (durationHint md)
     = "Medium video - sample frames at regular intervals"
  /\ parameters (durationHint md)
     = Some [("maxFrames", ofZ 15); ("interval", ofZ 3)].
Proof.
  intros H. unfold durationHint. rewrite H. repeat split.
Qed.

Lemma durationHint_45_witness :
  parameters (durationHint (sampleMetadata 45 1920 1080))
  = Some [("maxFrames", ofZ 15); ("interval", ofZ 3)].
Proof.
  apply (durationHint_45 (sampleMetadata 45 1920 1080)). reflexivity.
Defined.

(** The non-integer interval belongs to the short-video branch, below 30 s:
    25 s gives 10 frames with interval 2.5. *)
Lemma durationHint_25 (md : VideoMetadata) :
  duration md = ofZ 25 ->
  parameters (durationHint md)
  = Some [("maxFrames", ofZ 10); ("interval", Num (5 # 2))].
Proof.
  intros H. unfold durationHint. rewrite H. reflexivity.
Qed.

(** ** The frame-reference planner *)

Section PlannerFacts.
Context `{host : Host}.

Lemma planLoop_unfold (fuel : nat) md n iv i :
  planLoop (S fuel) md n iv i =
  if planTest md n iv i
  then cons (frameAt md iv i) <$> planLoop fuel md n iv (S i)
  else Some [].
Proof. reflexivity. Qed.

(** What the loop emits: the references of the consecutive iterations from
    [i] on, each passing the test, up to the first iteration that fails it. *)
Lemma planLoop_sound (fuel : nat) md n iv : forall i refs,
  planLoop fuel md n iv i = Some refs ->
  (forall k r, refs !! k = Some r ->
     r = frameAt md iv (i + k) /\ planTest md n iv (i + k) = true)
  /\ planTest md n iv (i + length refs) = false.
Proof.
  induction fuel as [|fuel IH]; intros i refs; [discriminate|].
  rewrite planLoop_unfold. destruct (planTest md n iv i) eqn:T.
  - destruct (planLoop fuel md n iv (S i)) as [rest|] eqn:E; [|discriminate].
    simpl. intros [= <-]. destruct (IH _ _ E) as [Hall Hstop]. split.
    + intros [|k] r; simpl.
      * intros [= <-]. rewrite Nat.add_0_r. now split.
      * intros Hk. replace (i + S k)%nat with (S i + k)%nat by lia. now apply Hall.
    + simpl. replace (i + S (length rest))%nat with (S i + length rest)%nat by lia.
      exact Hstop.
  - intros [= <-]. split.
    + intros k r. rewrite lookup_nil. discriminate.
    + simpl. now rewrite Nat.add_0_r.
Qed.

(** The loop ends within the fuel as soon as the test fails from some
    iteration on. *)
Lemma planLoop_total (bound : nat) md n iv :
  (forall j, (bound <= j)%nat -> planTest md n iv j = false) ->
  forall fuel i, (bound <= i + fuel)%nat ->
  exists refs, planLoop (S fuel) md n iv i = Some refs.
Proof.
  intros Hb. induction fuel as [|fuel IH]; intros i Hi;
    rewrite planLoop_unfold; destruct (planTest md n iv i) eqn:T;
    try (now eexists).
  - rewrite Hb in T by lia. discriminate.
  - destruct (IH (S i)) as [rest ->]; [|now eexists].
    destruct (le_lt_dec bound i) as [Hle|Hlt]; [|lia].
    rewrite (Hb i Hle) in T. discriminate.
Qed.

Lemma ofNat_ge_ceiling (q : Q) (j : nat) :
  (Z.to_nat (Qceiling q) <= j)%nat -> (q <= inject_Z (Z.of_nat j))%Q.
Proof.
  intros H. apply Qle_trans with (inject_Z (Qceiling q)); [apply Qle_ceiling|].
  rewrite <- Zle_Qle. lia.
Qed.

Lemma planTest_bound md n (j : nat) :
  (loopBound (duration md) n <= j)%nat ->
  planTest md n (frameIntervalOf (duration md) n) j = false.
Proof.
  unfold planTest, loopBound. intros H.
  destruct n as [| |q|]; try reflexivity.
  - apply andb_false_intro1. apply nlt_Num_false. now apply ofNat_ge_ceiling.
  - destruct (duration md) as [| |d|] eqn:D; try reflexivity.
    apply andb_false_intro2.
    change (frameIntervalOf (Num d) Infinity) with (ofZ 1).
    unfold ofNat, ofZ. rewrite nmul_Num. apply nlt_Num_false.
    rewrite Qred_correct, Qmult_1_r. now apply ofNat_ge_ceiling.
Qed.

(** The planner returns for every profile and every requested count. *)
Lemma planFrames_total md n : exists refs, planFrames md n = Some refs.
Proof.
  unfold planFrames.
  apply (planLoop_total (loopBound (duration md) n)); [|lia].
  intros j. apply planTest_bound.
Qed.

End PlannerFacts.

Lemma nmax_ofZ (a b : Z) : nmax (ofZ a) (ofZ b) = ofZ (Z.max a b).
Proof.
  unfold nmax, ofZ. destruct (nlt (Num (inject_Z a)) (Num (inject_Z b))) eqn:E.
  - apply nlt_Num in E. rewrite <- Zlt_Qlt in E. now rewrite Z.max_r by lia.
  - apply nlt_Num_false in E. rewrite <- Zle_Qle in E. now rewrite Z.max_l by lia.
Qed.

Lemma frameIntervalOf_finite (d n : Q) :
  (0 < n)%Q -> frameIntervalOf (Num d) (Num n) = ofZ (Z.max 1 (Qfloor (d / n))).
Proof.
  intros Hn. unfold frameIntervalOf. rewrite (ndiv_Num_pos _ _ Hn).
  unfold nfloor. rewrite <- nmax_ofZ. do 2 f_equal.
  apply Qfloor_comp, Qred_correct.
Qed.

(** The indices and timestamps of the plan depend on the duration and the
    requested count only: not on the rest of the profile, nor on the host. *)
Lemma planLoop_deterministic (h1 h2 : Host) (md1 md2 : VideoMetadata)
    (n iv : number) :
  duration md1 = duration md2 ->
  forall fuel i,
    fmap (M := option) (map (fun r => (index r, timestamp r)))
      (planLoop (host := h1) fuel md1 n iv i)
    = fmap (M := option) (map (fun r => (index r, timestamp r)))
        (planLoop (host := h2) fuel md2 n iv i).
Proof.
  intros Hd. induction fuel as [|fuel IH]; intros i; [reflexivity|].
  rewrite !planLoop_unfold. unfold planTest. rewrite Hd.
  destruct ((ofNat i <? n)%js && (ofNat i * iv <? duration md2)%js);
    [|reflexivity].
  specialize (IH (S i)).
  destruct (planLoop fuel md1 n iv (S i)), (planLoop fuel md2 n iv (S i));
    simpl in *; congruence.
Qed.

Lemma planFrames_deterministic (h1 h2 : Host) (md1 md2 : VideoMetadata)
    (n : number) :
  duration md1 = duration md2 ->
  fmap (M := option) (map (fun r => (index r, timestamp r)))
    (planFrames (host := h1) md1 n)
  = fmap (M := option) (map (fun r => (index r, timestamp r)))
      (planFrames (host := h2) md2 n).
Proof.
  intros Hd. unfold planFrames. rewrite Hd. now apply planLoop_deterministic.
Qed.

(** The whole plan depends, besides, on the width and height of the frame
    only (they make the resolution string and the estimate). *)
Lemma planFrames_ext `{host : Host} (md1 md2 : VideoMetadata) (n : number) :
  duration md1 = duration md2 -> width md1 = width md2 ->
  height md1 = height md2 ->
  planFrames md1 n = planFrames md2 n.
Proof.
  intros Hd Hw Hh. unfold planFrames. rewrite Hd.
  generalize (S (loopBound (duration md2) n)) 0%nat
    (frameIntervalOf (duration md2) n).
  intros fuel. induction fuel as [|fuel IH]; intros i iv; [reflexivity|].
  rewrite !planLoop_unfold. unfold planTest, frameAt.
  now rewrite Hd, Hw, Hh, IH.
Qed.

(** C2: for a duration d >= 0 and a requested count n >= 1 the planner uses
    the interval max(1, floor(d / n)) and returns the references of the
    iterations i = 0, 1, ..., each at timestamp i * interval with i < n and
    timestamp < d, up to the first i that fails one of the two tests; for
    d = 100 and n = 10 these are the 10 timestamps 0, 10, ..., 90; and the
    plan is a function of its inputs: the indices and timestamps of (d, n)
    alone, the whole references of (d, n) and the frame's width and height. *)
Theorem planFrames_spec :
  (forall (host : Host) (md : VideoMetadata) (d n : Q),
     duration md = Num d -> (0 <= d)%Q -> (1 <= n)%Q ->
     let interval := frameIntervalOf (Num d) (Num n) in
     interval = ofZ (Z.max 1 (Qfloor (d / n)))
     /\ exists refs,
          planFrames md (Num n) = Some refs
          /\ (forall i r, refs !! i = Some r ->
                index r = i
                /\ timestamp r = (ofNat i * interval)%js
                /\ (timestamp r <? Num d)%js = true
                /\ (ofNat i <? Num n)%js = true)
          /\ (ofNat (length refs) <? Num n)%js
             && (ofNat (length refs) * interval <? Num d)%js = false)
  /\ (forall (host : Host) (md : VideoMetadata),
        duration md = ofZ 100 ->
        fmap (M := option) (map timestamp) (planFrames md (ofZ 10))
        = Some (map ofZ [0; 10; 20; 30; 40; 50; 60; 70; 80; 90]%Z))
  /\ (forall (h1 h2 : Host) (md1 md2 : VideoMetadata) (n : number),
        duration md1 = duration md2 ->
        fmap (M := option) (map (fun r => (index r, timestamp r)))
          (planFrames (host := h1) md1 n)
        = fmap (M := option) (map (fun r => (index r, timestamp r)))
            (planFrames (host := h2) md2 n))
  /\ (forall (host : Host) (md1 md2 : VideoMetadata) (n : number),
        duration md1 = duration md2 -> width md1 = width md2 ->
        height md1 = height md2 ->
        planFrames md1 n = planFrames md2 n).
Proof.
  split; [|split; [|split]].
  - intros host md d n Hd Hd0 Hn interval.
    assert (Hn0 : (0 < n)%Q) by lra.
    split; [now apply frameIntervalOf_finite|].
    destruct (planFrames_total md (Num n)) as [refs E]. exists refs.
    split; [exact E|]. unfold planFrames in E. rewrite Hd in E.
    fold interval in E. destruct (planLoop_sound _ _ _ _ _ _ E) as [Hall Hstop].
    unfold planTest in *. rewrite Hd in *. split; [|exact Hstop].
    intros i r Hr. destruct (Hall i r Hr) as [-> Ht]. simpl in Ht.
    apply andb_true_iff in Ht. destruct Ht as [Ht1 Ht2]. now repeat split.
  - intros host md Hd.
    assert (H := planFrames_deterministic host sampleHost md
                   (sampleMetadata 100 1920 1080) (ofZ 10) Hd).
    apply (f_equal (fmap (M := option) (map snd))) in H.
    rewrite <- !option_fmap_compose in H.
    assert (Hc : forall o : option (list FrameReference),
               fmap (M := option) (map snd ∘ map (fun r => (index r, timestamp r))) o
               = fmap (M := option) (map timestamp) o).
    { intros [l|]; [|reflexivity]. simpl. f_equal. unfold compose.
      rewrite map_map. reflexivity. }
    rewrite !Hc in H. rewrite H. vm_compute. reflexivity.
  - intros. now apply planFrames_deterministic.
  - intros. now apply planFrames_ext.
Qed.

(** The scenario duration = 15, requestedCount = 10: interval 1 and the ten
    references at 0..9. *)
Lemma planFrames_spec_witness :
  frameIntervalOf (ofZ 15) (ofZ 10) = ofZ 1
  /\ exists refs,
       planFrames (host := sampleHost) (sampleMetadata 15 1920 1080) (ofZ 10)
       = Some refs
       /\ (forall i r, refs !! i = Some r ->
             index r = i
             /\ timestamp r = (ofNat i * frameIntervalOf (ofZ 15) (ofZ 10))%js
             /\ (timestamp r <? ofZ 15)%js = true
             /\ (ofNat i <? ofZ 10)%js = true)
       /\ (ofNat (length refs) <? ofZ 10)%js
          && (ofNat (length refs) * frameIntervalOf (ofZ 15) (ofZ 10)
              <? ofZ 15)%js = false.
Proof.
  apply (proj1 planFrames_spec sampleHost (sampleMetadata 15 1920 1080)
           (inject_Z 15) (inject_Z 10)); [reflexivity | easy | easy].
Defined.

(** ** The context-hint generator *)

Ltac find_hint :=
  first [ apply Exists_cons_hd; split; reflexivity
        | apply Exists_cons_tl; find_hint ].

Ltac no_hint H :=
  repeat (let Hty := fresh in let H' := fresh in
          inversion H as [? ? [Hty _]|? ? H']; subst;
          [discriminate Hty|]; clear H; rename H' into H);
  inversion H.

(** C3: the hints come sorted by descending priority; the baseline 'action'
    hint of priority 3 is always among them; the 'warning' hint of priority
    10 is among them exactly when the sum of the references' estimated
    tokens exceeds 50000, and it is then the first hint. *)
Theorem generateContextHints_spec (host : Host) (md : VideoMetadata)
    (frames : list FrameReference) :
  let hints := generateContextHints md frames in
  StronglySorted byPriorityDesc hints
  /\ Exists isBaselineAction hints
  /\ (Exists isWarning10 hints
      <-> (totalFrameTokens frames >? ofZ 50000)%js = true)
  /\ ((totalFrameTokens frames >? ofZ 50000)%js = true ->
      exists h rest, hints = h :: rest /\ isWarning10 h).
Proof.
  unfold generateContextHints. fold (totalFrameTokens frames). cbv zeta.
  change WARNING_TOKEN_THRESHOLD with (ofZ 50000).
  match goal with
  | |- context [{| hintType := warning; message := ?m;
                   suggestedTool := _; priority := _ |}] =>
      generalize m; intros msg
  end.
  destruct (totalFrameTokens frames >? ofZ 50000)%js;
    destruct (duration md >? ofZ 300)%js; destruct (hasAudio md);
    vm_compute.
  1-4: split; [repeat constructor|]; split; [find_hint|];
       split; [split; [reflexivity|intros _; find_hint]|];
       intros _; do 2 eexists; split; [reflexivity|now split].
  all: split; [repeat constructor|]; split; [find_hint|];
       split; [split; [intros H; no_hint H|discriminate]|discriminate].
Qed.

(** ** Runs of the [async] methods *)

Section Blind.
Context (P : Event -> Prop).

Lemma blind_ret {A : Type} (a : A) : blind P (ret a).
Proof.
  exists (Ok a), []. split; [constructor|]. intros s.
  split; [reflexivity|]. simpl. now rewrite app_nil_r.
Qed.

Lemma blind_throw {A : Type} (msg : string) : blind P (throw (A := A) msg).
Proof.
  exists (Throw msg), []. split; [constructor|]. intros s.
  split; [reflexivity|]. simpl. now rewrite app_nil_r.
Qed.

Lemma blind_diverge {A : Type} : blind P (diverge (A := A)).
Proof.
  exists Diverge, []. split; [constructor|]. intros s.
  split; [reflexivity|]. simpl. now rewrite app_nil_r.
Qed.

Lemma blind_emit (e : Event) : P e -> blind P (emit e).
Proof.
  intros He. exists (Ok tt), [e]. split; [now repeat constructor|].
  intros s. now split.
Qed.

Lemma blind_cacheSet (key : string) (refs : list FrameReference) :
  blind P (cacheSet key refs).
Proof.
  exists (Ok tt), []. split; [constructor|]. intros s.
  split; [reflexivity|]. simpl. now rewrite app_nil_r.
Qed.

Lemma blind_bind {A B : Type} (m : M A) (k : A -> M B) :
  blind P m -> (forall a, blind P (k a)) -> blind P (bind m k).
Proof.
  intros (r & evs & HP & Hm) Hk. destruct r as [a|msg|].
  - destruct (Hk a) as (r' & evs' & HP' & Hk').
    exists r', (evs ++ evs')%list. split; [now apply Forall_app|]. intros s.
    unfold bind. destruct (Hm s) as [Hr Ht]. destruct (m s) as [r0 s0].
    simpl in Hr, Ht. subst r0. destruct (Hk' s0) as [Hr' Ht'].
    split; [exact Hr'|]. now rewrite Ht', Ht, app_assoc.
  - exists (Throw msg), evs. split; [exact HP|]. intros s.
    unfold bind. destruct (Hm s) as [Hr Ht]. destruct (m s) as [r0 s0].
    simpl in Hr, Ht. subst r0. now split.
  - exists Diverge, evs. split; [exact HP|]. intros s.
    unfold bind. destruct (Hm s) as [Hr Ht]. destruct (m s) as [r0 s0].
    simpl in Hr, Ht. subst r0. now split.
Qed.

Lemma blind_tryFinally {A : Type} (body : M A) (fin : M unit) :
  blind P body -> blind P fin -> blind P (tryFinally body fin).
Proof.
  intros (r & evs & HP & Hm) (r' & evs' & HP' & Hf).
  exists (match r, r' with
          | Diverge, _ => Diverge
          | _, Ok _ => r
          | _, Throw msg' => Throw msg'
          | _, Diverge => Diverge
          end),
         (match r with Diverge => evs | _ => evs ++ evs' end)%list.
  split; [destruct r; try apply Forall_app; auto|].
  intros s. unfold tryFinally.
  destruct (Hm s) as [Hr Ht]. destruct (body s) as [r0 s0].
  simpl in Hr, Ht. subst r0. destruct r as [a|msg|]; [| |now split].
  all: destruct (Hf s0) as [Hr' Ht']; destruct (fin s0) as [r1 s1];
    simpl in Hr', Ht'; subst r1; destruct r'; simpl;
    (split; [reflexivity|]); now rewrite Ht', Ht, app_assoc.
Qed.

Lemma blind_tryCatch {A : Type} (body : M A) (handler : string -> M A) :
  blind P body -> (forall msg, blind P (handler msg)) ->
  blind P (tryCatch body handler).
Proof.
  intros (r & evs & HP & Hm) Hh. destruct r as [a|msg|].
  - exists (Ok a), evs. split; [exact HP|]. intros s.
    unfold tryCatch. destruct (Hm s) as [Hr Ht]. destruct (body s) as [r0 s0].
    simpl in Hr, Ht. subst r0. now split.
  - destruct (Hh msg) as (r' & evs' & HP' & Hh').
    exists r', (evs ++ evs')%list. split; [now apply Forall_app|]. intros s.
    unfold tryCatch. destruct (Hm s) as [Hr Ht]. destruct (body s) as [r0 s0].
    simpl in Hr, Ht. subst r0. destruct (Hh' s0) as [Hr' Ht'].
    split; [exact Hr'|]. now rewrite Ht', Ht, app_assoc.
  - exists Diverge, evs. split; [exact HP|]. intros s.
    unfold tryCatch. destruct (Hm s) as [Hr Ht]. destruct (body s) as [r0 s0].
    simpl in Hr, Ht. subst r0. now split.
Qed.

(** [Promise.all] takes nothing from the processor state: what the tasks do
    is settled by the world, its schedule included. *)
Lemma blind_promiseAll {A : Type} (W : World) (fuel : nat)
    (tasks : list (Task A)) :
  blind anyEvent (promiseAll W fuel tasks).
Proof.
  unfold blind, promiseAll.
  destruct (runPool W fuel 0 tasks ∅ [] _) as [[[evs pool] rejection]|].
  - exists (match rejection with
            | Some msg => Throw msg
            | None => Ok (omap resolvedValue pool)
            end), evs.
    split; [apply Forall_forall; intros e _; exact I|].
    intros s. split; reflexivity.
  - exists Diverge, []. split; [constructor|]. intros s.
    split; [reflexivity|]. simpl. now rewrite app_nil_r.
Qed.

End Blind.

(** A blind method run from any state: its result and events are those of
    the run from the empty state. *)
Lemma blind_run {A : Type} (P : Event -> Prop) (m : M A) :
  blind P m ->
  forall s,
    resultOf m s = resultOf m emptyState
    /\ trace (m s).2 = (trace s ++ eventsOf m ∅)%list
    /\ Forall P (eventsOf m ∅).
Proof.
  intros (r & evs & HP & Hm) s. unfold eventsOf, resultOf. fold emptyState.
  destruct (Hm s) as [Hr Ht]. destruct (Hm emptyState) as [Hr0 Ht0].
  simpl in Ht0. rewrite Ht0. repeat split; congruence.
Qed.

Create HintDb blind.

Ltac blind_step :=
  lazymatch goal with
  | |- blind _ (bind _ _) => apply blind_bind; [|intros ?]
  | |- blind _ (ret _) => apply blind_ret
  | |- blind _ (throw _) => apply blind_throw
  | |- blind _ diverge => apply blind_diverge
  | |- blind _ (emit _) => apply blind_emit; first [exact I | reflexivity]
  | |- blind _ (cacheSet _ _) => apply blind_cacheSet
  | |- blind _ (tryFinally _ _) => apply blind_tryFinally
  | |- blind _ (tryCatch _ _) => apply blind_tryCatch; [|intros ?]
  | |- blind _ (match ?x with _ => _ end) => destruct x
  end.

Ltac blind_auto := cbv zeta; repeat (blind_step; cbv zeta); eauto with blind.

Section BlindMethods.
Context `{host : Host} (W : World).

Lemma blind_getMetadata (P : Event -> Prop) (videoPath : string) :
  P (EvProbe videoPath) -> P (EvStat videoPath) ->
  blind P (getMetadata W videoPath).
Proof.
  intros H1 H2. unfold getMetadata.
  apply blind_bind; [now apply blind_emit|intros _].
  destruct (ffprobe W videoPath); [apply blind_throw|].
  destruct (List.find _ _); [|apply blind_throw].
  apply blind_bind; [now apply blind_emit|intros _]. apply blind_ret.
Qed.

Lemma blind_getMetadata_any (videoPath : string) :
  blind anyEvent (getMetadata W videoPath).
Proof. now apply blind_getMetadata. Qed.

Lemma blind_getMetadata_probe (videoPath : string) :
  blind probeEvent (getMetadata W videoPath).
Proof. now apply blind_getMetadata. Qed.

Hint Resolve blind_getMetadata_any blind_getMetadata_probe : blind.

Lemma blind_getMetadataSummary_any (videoPath : string) :
  blind anyEvent (getMetadataSummary W videoPath).
Proof. unfold getMetadataSummary. blind_auto. Qed.

Lemma blind_getMetadataSummary_probe (videoPath : string) :
  blind probeEvent (getMetadataSummary W videoPath).
Proof. unfold getMetadataSummary. blind_auto. Qed.

Hint Resolve blind_getMetadataSummary_any blind_getMetadataSummary_probe : blind.

Lemma blind_getVideoOverview_any (videoPath : string) (n : option number) :
  blind anyEvent (getVideoOverview W videoPath n).
Proof. unfold getVideoOverview. blind_auto. Qed.

Lemma blind_getVideoOverview_probe (videoPath : string) (n : option number) :
  blind probeEvent (getVideoOverview W videoPath n).
Proof. unfold getVideoOverview. blind_auto. Qed.

Lemma blind_checkFile_probe (filePath : string) :
  blind probeEvent (checkFile W filePath).
Proof. unfold checkFile. blind_auto. Qed.

Lemma blind_checkFile (filePath : string) : blind anyEvent (checkFile W filePath).
Proof. unfold checkFile. blind_auto. Qed.

Lemma blind_ensureTempDir : blind anyEvent (ensureTempDir W).
Proof. unfold ensureTempDir. blind_auto. Qed.

Hint Resolve blind_getVideoOverview_any blind_checkFile blind_ensureTempDir
  : blind.

Lemma blind_sharpMeta (buffer : string) : blind anyEvent (sharpMeta W buffer).
Proof. unfold sharpMeta. blind_auto. Qed.

Lemma blind_sharpConvert buffer m maxWidth fmt quality :
  blind anyEvent (sharpConvert W buffer m maxWidth fmt quality).
Proof. unfold sharpConvert. blind_auto. Qed.

Lemma blind_decodeFrameTo videoPath ts framePath :
  blind anyEvent (decodeFrameTo W videoPath ts framePath).
Proof. unfold decodeFrameTo. blind_auto. Qed.

Hint Resolve blind_sharpMeta blind_sharpConvert blind_decodeFrameTo : blind.

Lemma blind_extractSingleFrame videoPath ts maxWidth fmt quality :
  blind anyEvent (extractSingleFrame W videoPath ts maxWidth fmt quality).
Proof. unfold extractSingleFrame. blind_auto. Qed.

Lemma blind_extractFrameAt videoPath frameDir iv maxWidth fmt quality i :
  blind anyEvent (extractFrameAt W videoPath frameDir iv maxWidth fmt quality i).
Proof. unfold extractFrameAt. blind_auto. Qed.

Lemma blind_extractLoop (total : number) (body : nat -> M VideoFrame) :
  (forall i, blind anyEvent (body i)) ->
  forall fuel i, blind anyEvent (extractLoop fuel total body i).
Proof.
  intros Hb. induction fuel as [|fuel IH]; intros i; simpl; blind_auto.
Qed.

Hint Resolve blind_extractSingleFrame blind_extractFrameAt blind_extractLoop
  : blind.

Lemma blind_extractFrames videoPath options :
  blind anyEvent (extractFrames W videoPath options).
Proof. unfold extractFrames. blind_auto. Qed.

Lemma blind_extractAudio videoPath options :
  blind anyEvent (extractAudio W videoPath options).
Proof. unfold extractAudio. blind_auto. Qed.

Hint Resolve blind_extractFrames blind_extractAudio : blind.

Lemma blind_analyzeVideo videoPath ef maxFrames ea frameInterval :
  blind anyEvent (analyzeVideo W videoPath ef maxFrames ea frameInterval).
Proof. unfold analyzeVideo. blind_auto. Qed.

Lemma blind_estimateTokens videoPath frameCount :
  blind anyEvent (estimateTokens W videoPath frameCount).
Proof. unfold estimateTokens. blind_auto. Qed.

Hint Resolve blind_analyzeVideo blind_estimateTokens : blind.

Lemma blind_dispatch (call : ToolCall) : blind anyEvent (dispatch W call).
Proof.
  destruct call; unfold dispatch; blind_auto.
  apply blind_promiseAll.
Qed.

Lemma blind_callTool (call : ToolCall) : blind anyEvent (callTool W call).
Proof.
  unfold callTool. apply blind_tryCatch; [apply blind_dispatch|].
  intros msg. apply blind_ret.
Qed.

End BlindMethods.

#[global] Hint Resolve blind_getMetadata_any blind_getMetadataSummary_any
  blind_getVideoOverview_any blind_checkFile blind_ensureTempDir
  blind_sharpMeta blind_sharpConvert blind_decodeFrameTo
  blind_extractSingleFrame blind_extractFrames blind_extractAudio
  blind_analyzeVideo blind_estimateTokens : blind.

Lemma returns_ret {A : Type} (a : A) : returns (ret a).
Proof. intros s. discriminate. Qed.

Lemma returns_throw {A : Type} (msg : string) : returns (throw (A := A) msg).
Proof. intros s. discriminate. Qed.

Lemma returns_emit (e : Event) : returns (emit e).
Proof. intros s. discriminate. Qed.

Lemma returns_cacheSet (key : string) (refs : list FrameReference) :
  returns (cacheSet key refs).
Proof. intros s. discriminate. Qed.

Lemma returns_bind {A B : Type} (m : M A) (k : A -> M B) :
  returns m -> (forall a, returns (k a)) -> returns (bind m k).
Proof.
  intros Hm Hk s. unfold bind. specialize (Hm s).
  destruct (m s) as [[a|msg|] s']; simpl in *; [apply Hk|discriminate|easy].
Qed.

Lemma returns_tryFinally {A : Type} (body : M A) (fin : M unit) :
  returns body -> returns fin -> returns (tryFinally body fin).
Proof.
  intros Hb Hf s. unfold tryFinally. specialize (Hb s).
  destruct (body s) as [[a|msg|] s']; simpl in *; [| |easy];
    specialize (Hf s'); destruct (fin s') as [[[]|msg'|] s'']; simpl in *;
    easy.
Qed.

Lemma returns_tryCatch {A : Type} (body : M A) (handler : string -> M A) :
  returns body -> (forall msg, returns (handler msg)) ->
  returns (tryCatch body handler).
Proof.
  intros Hb Hh s. unfold tryCatch. specialize (Hb s).
  destruct (body s) as [[a|msg|] s']; simpl in *; [easy|apply Hh|easy].
Qed.

Ltac returns_step :=
  lazymatch goal with
  | |- returns (bind _ _) => apply returns_bind; [|intros ?]
  | |- returns (ret _) => apply returns_ret
  | |- returns (throw _) => apply returns_throw
  | |- returns (emit _) => apply returns_emit
  | |- returns (cacheSet _ _) => apply returns_cacheSet
  | |- returns (tryFinally _ _) => apply returns_tryFinally
  | |- returns (tryCatch _ _) => apply returns_tryCatch; [|intros ?]
  | |- returns (match ?x with _ => _ end) => destruct x eqn:?
  end.

Create HintDb returns.

Ltac returns_auto :=
  cbv zeta; repeat (returns_step; cbv zeta); eauto with returns.

Section ReturnsMethods.
Context `{host : Host} (W : World).

Lemma returns_getMetadata videoPath : returns (getMetadata W videoPath).
Proof. unfold getMetadata. returns_auto. Qed.

Hint Resolve returns_getMetadata : returns.

Lemma returns_getMetadataSummary videoPath :
  returns (getMetadataSummary W videoPath).
Proof. unfold getMetadataSummary. returns_auto. Qed.

Hint Resolve returns_getMetadataSummary : returns.

Lemma returns_getVideoOverview videoPath n :
  returns (getVideoOverview W videoPath n).
Proof.
  unfold getVideoOverview. returns_auto.
  destruct (planFrames_total a (default (ofZ 10) n)). congruence.
Qed.

Lemma returns_checkFile filePath : returns (checkFile W filePath).
Proof. unfold checkFile. returns_auto. Qed.

Lemma returns_ensureTempDir : returns (ensureTempDir W).
Proof. unfold ensureTempDir. returns_auto. Qed.

Lemma returns_sharpMeta buffer : returns (sharpMeta W buffer).
Proof. unfold sharpMeta. returns_auto. Qed.

Lemma returns_sharpConvert buffer m maxWidth fmt quality :
  returns (sharpConvert W buffer m maxWidth fmt quality).
Proof. unfold sharpConvert. returns_auto. Qed.

Lemma returns_decodeFrameTo videoPath ts framePath :
  returns (decodeFrameTo W videoPath ts framePath).
Proof. unfold decodeFrameTo. returns_auto. Qed.

Hint Resolve returns_getVideoOverview returns_checkFile returns_ensureTempDir
  returns_sharpMeta returns_sharpConvert returns_decodeFrameTo : returns.

Lemma returns_extractSingleFrame videoPath ts maxWidth fmt quality :
  returns (extractSingleFrame W videoPath ts maxWidth fmt quality).
Proof. unfold extractSingleFrame. returns_auto. Qed.

End ReturnsMethods.

#[global] Hint Resolve returns_getMetadata returns_getMetadataSummary
  returns_getVideoOverview returns_checkFile returns_ensureTempDir
  returns_sharpMeta returns_sharpConvert returns_decodeFrameTo
  returns_extractSingleFrame : returns.

(** ** The overview is the cheap path *)

(** C1: for every video path and every frameCount, [getVideoOverview], and
    the [get_video_overview] tool over it, return, and the only collaborator
    calls they make are probes ([fs.access], ffprobe, [fs.stat]): never a run
    of the frame decoder or of the audio extractor. *)
Theorem getVideoOverview_cheap (host : Host) (W : World) (videoPath : string)
    (frameCount : option number) (s : ProcState) :
  (resultOf (getVideoOverview W videoPath frameCount) s <> Diverge
   /\ exists evs,
        trace (getVideoOverview W videoPath frameCount s).2
        = (trace s ++ evs)%list
        /\ Forall (fun e => isProbe e = true /\ isExtraction e = false) evs)
  /\ (resultOf (callTool W (GetVideoOverview videoPath frameCount)) s <> Diverge
      /\ exists evs,
           trace (callTool W (GetVideoOverview videoPath frameCount) s).2
           = (trace s ++ evs)%list
           /\ Forall (fun e => isProbe e = true /\ isExtraction e = false) evs).
Proof.
  assert (Hp : forall e, probeEvent e ->
                 isProbe e = true /\ isExtraction e = false).
  { intros e He. split; [exact He|]. now destruct e. }
  split.
  - split; [apply returns_getVideoOverview|].
    destruct (blind_run _ _ (blind_getVideoOverview_probe W videoPath frameCount) s)
      as (_ & Ht & Hev).
    eexists. split; [exact Ht|]. eapply Forall_impl; eauto.
  - assert (Hb : blind probeEvent
                   (callTool W (GetVideoOverview videoPath frameCount))).
    { unfold callTool, dispatch. blind_auto.
      - apply blind_checkFile_probe.
      - apply blind_getVideoOverview_probe. }
    split.
    + assert (Hr : returns (callTool W (GetVideoOverview videoPath frameCount)))
        by (unfold callTool, dispatch; returns_auto).
      apply Hr.
    + destruct (blind_run _ _ Hb s) as (_ & Ht & Hev).
      eexists. split; [exact Ht|]. eapply Forall_impl; eauto.
Qed.

(** ** The frame cache is write-only *)

Section Runs.
Context `{host : Host} (W : World).

(** The two ways [getMetadata] ends: with a profile, after ffprobe and
    [fs.stat]; or with an exception, after ffprobe alone. *)
Lemma getMetadata_cases (videoPath : string) :
  (exists md, forall s,
      getMetadata W videoPath s
      = (Ok md, addEvents s [EvProbe videoPath; EvStat videoPath]))
  \/ (exists msg, forall s,
        getMetadata W videoPath s = (Throw msg, addEvents s [EvProbe videoPath])).
Proof.
  unfold getMetadata, bind, emit, ret, throw. simpl.
  destruct (ffprobe W videoPath) as [msg|data].
  - right. eexists. intros s. reflexivity.
  - destruct (List.find _ (streams data)) as [vs|].
    + left. eexists. intros s. unfold addEvents. simpl.
      rewrite <- app_assoc. reflexivity.
    + right. eexists. intros s. reflexivity.
Qed.

Lemma getMetadataSummary_cases (videoPath : string) :
  (exists sm, forall s,
      getMetadataSummary W videoPath s
      = (Ok sm, addEvents s [EvProbe videoPath; EvStat videoPath]))
  \/ (exists msg, forall s,
        getMetadataSummary W videoPath s
        = (Throw msg, addEvents s [EvProbe videoPath])).
Proof.
  unfold getMetadataSummary, bind.
  destruct (getMetadata_cases videoPath) as [[md E]|[msg E]].
  - left. eexists. intros s. rewrite E. reflexivity.
  - right. eexists. intros s. rewrite E. reflexivity.
Qed.

(** A successful overview overwrites the entry of its path with the plan it
    returns, and touches no other entry. *)
Lemma getVideoOverview_writes_cache (videoPath : string) (n : option number)
    (s : ProcState) (ov : VideoOverview) :
  resultOf (getVideoOverview W videoPath n) s = Ok ov ->
  frameCache (getVideoOverview W videoPath n s).2
  = <[videoPath := availableFrames ov]> (frameCache s).
Proof.
  unfold resultOf, getVideoOverview, bind.
  destruct (getMetadata_cases videoPath) as [[md E]|[msg E]]; rewrite E;
    [|discriminate].
  destruct (getMetadataSummary_cases videoPath) as [[sm E']|[msg E']];
    rewrite E'; [|discriminate].
  destruct (planFrames md _) as [frames|]; [|discriminate].
  simpl. intros [= <-]. reflexivity.
Qed.

End Runs.

(** C10: the result of every tool call, and the collaborator calls it makes,
    are the same from any two states that differ only in the frame cache:
    the cache is never read.  It is only written: a successful overview
    replaces the entry of its path by the plan it returns. *)
Theorem frameCache_never_read (host : Host) (W : World) (call : ToolCall)
    (cache1 cache2 : gmap string (list FrameReference)) (t : list Event) :
  let s1 := {| frameCache := cache1; trace := t |} in
  let s2 := {| frameCache := cache2; trace := t |} in
  resultOf (callTool W call) s1 = resultOf (callTool W call) s2
  /\ trace (callTool W call s1).2 = trace (callTool W call s2).2
  /\ forall videoPath n ov,
       resultOf (getVideoOverview W videoPath n) s1 = Ok ov ->
       frameCache (getVideoOverview W videoPath n s1).2
       = <[videoPath := availableFrames ov]> cache1.
Proof.
  intros s1 s2.
  destruct (blind_run _ _ (blind_callTool W call) s1) as (Hr1 & Ht1 & _).
  destruct (blind_run _ _ (blind_callTool W call) s2) as (Hr2 & Ht2 & _).
  split; [congruence|]. split; [rewrite Ht1, Ht2; reflexivity|].
  intros videoPath n ov H.
  now rewrite (getVideoOverview_writes_cache W videoPath n s1 ov H).
Qed.

(** ** Audio extraction on a file without audio *)

(** C6: when the file exists and its probed profile reports no audio track,
    [extract_audio] answers with the no-audio-track failure, and all it has
    done by then is [fs.access], ffprobe and [fs.stat]: the audio extractor
    has not been run, and no temporary directory or file has been made. *)
Theorem extract_audio_no_audio_track (host : Host) (W : World)
    (videoPath : string) (options : AudioExtractionOptions)
    (md : VideoMetadata) (s : ProcState) :
  fsAccess W videoPath = true ->
  resultOf (getMetadata W videoPath) s = Ok md ->
  hasAudio md = false ->
  callTool W (ExtractAudio videoPath options) s
  = (Ok (RFailure "Video does not have an audio track" None false),
     addEvents s [EvAccess videoPath; EvProbe videoPath; EvStat videoPath]).
Proof.
  intros Hacc Hmd Haudio.
  unfold callTool, tryCatch, dispatch, bind, checkFile, emit, ret. simpl.
  rewrite Hacc. simpl.
  destruct (getMetadata_cases W videoPath) as [[md' E]|[msg E]];
    unfold resultOf in Hmd; rewrite E in Hmd |- *; [|discriminate].
  injection Hmd as ->. rewrite Haudio. simpl.
  unfold addEvents. simpl. now rewrite <- app_assoc.
Qed.

Lemma extract_audio_no_audio_track_witness :
  callTool (host := sampleHost) (sampleWorld false)
    (ExtractAudio "/v.mp4" noAudioOptions) emptyState
  = (Ok (RFailure "Video does not have an audio track" None false),
     addEvents emptyState
       [EvAccess "/v.mp4"; EvProbe "/v.mp4"; EvStat "/v.mp4"]).
Proof.
  apply (extract_audio_no_audio_track sampleHost (sampleWorld false) "/v.mp4"
           noAudioOptions
           (match resultOf (getMetadata (host := sampleHost) (sampleWorld false)
                              "/v.mp4") emptyState with
            | Ok md => md
            | _ => sampleMetadata 0 0 0
            end)); vm_compute; reflexivity.
Defined.

(** ** Fetching a single frame *)

(** C5, as stated, fails: [get_frame] never compares the timestamp with the
    duration.  On a 100 s file behind a decoder that writes a frame for the
    timestamp -1, it returns a frame artifact stamped -1. *)
Lemma get_frame_out_of_range_returns_frame :
  (exists md,
      resultOf (getMetadata (host := sampleHost) (sampleWorld false) "/v.mp4")
        emptyState = Ok md
      /\ duration md = ofZ 100)
  /\ (ofZ (-1) <? ofZ 0)%js = true
  /\ exists frame,
       resultOf (callTool (host := sampleHost) (sampleWorld false)
                   (GetFrame "/v.mp4" (ofZ (-1)) None None None)) emptyState
       = Ok (RFrame frame)
       /\ timestamp (frameRef frame) = ofZ (-1).
Proof.
  split; [eexists; split; vm_compute; reflexivity|]. split; [reflexivity|].
  eexists. split; vm_compute; reflexivity.
Qed.

(** [ensureTempDir] never throws. *)
Lemma ensureTempDir_run `{host : Host} (W : World) :
  exists evs, forall s, ensureTempDir W s = (Ok tt, addEvents s evs).
Proof.
  unfold ensureTempDir, bind, emit, ret.
  destruct (fsMkdir W tempDir) as [err|].
  - eexists. intros s. unfold addEvents. cbn [trace frameCache].
    rewrite <- app_assoc. reflexivity.
  - eexists. intros s. reflexivity.
Qed.

Lemma decodeFrameTo_fails `{host : Host} (W : World) (videoPath : string)
    (ts : number) (framePath : string) :
  decoderFails (ffmpegFrame W videoPath ts framePath) ->
  exists msg evs, forall s,
    decodeFrameTo W videoPath ts framePath s = (Throw msg, addEvents s evs).
Proof.
  unfold decodeFrameTo, bind, emit, throw.
  destruct (ffmpegFrame W videoPath ts framePath) as [msg|[buffer|]];
    intros H; [|destruct H|].
  - do 2 eexists. intros s. reflexivity.
  - do 2 eexists. intros s. unfold addEvents. cbn [trace frameCache].
    rewrite <- app_assoc. reflexivity.
Qed.

Lemma extractSingleFrame_fails `{host : Host} (W : World) (videoPath : string)
    (ts : number) (maxWidth : option number) (fmt : option ImageFormat)
    (quality : option number) :
  decoderFails
    (ffmpegFrame W videoPath ts (singleFramePath W (default jpeg fmt))) ->
  exists msg evs, forall s,
    extractSingleFrame W videoPath ts maxWidth fmt quality s
    = (Throw msg,
       addEvents s (evs ++ [EvRm (singleFramePath W (default jpeg fmt))])).
Proof.
  intros Hdec. destruct (ensureTempDir_run W) as [evs0 E0].
  destruct (decodeFrameTo_fails W _ _ _ Hdec) as (msg & evs1 & E1).
  exists msg, (evs0 ++ evs1)%list. intros s.
  unfold extractSingleFrame. cbv zeta. fold (singleFramePath W (default jpeg fmt)).
  unfold bind at 1. rewrite E0. unfold tryFinally, bind. rewrite E1.
  unfold emit, addEvents. cbn [trace frameCache].
  rewrite <- !app_assoc. reflexivity.
Qed.

(** C5, amended: [get_frame] fails with an extraction failure whenever the
    external decoder gives no frame for the timestamp (it reports an error,
    or ends without output), which is how a timestamp outside [0, duration)
    fails; the temporary frame file is removed on that path too. *)
Theorem get_frame_fails_with_decoder (host : Host) (W : World)
    (videoPath : string) (ts : number) (maxWidth : option number)
    (fmt : option ImageFormat) (quality : option number) (s : ProcState) :
  fsAccess W videoPath = true ->
  decoderFails
    (ffmpegFrame W videoPath ts (singleFramePath W (default jpeg fmt))) ->
  exists msg evs,
    callTool W (GetFrame videoPath ts maxWidth fmt quality) s
    = (Ok (RFailure msg
             (Some "Check that the video file exists and is in a supported format.")
             true),
       addEvents s
         (EvAccess videoPath
          :: evs ++ [EvRm (singleFramePath W (default jpeg fmt))])).
Proof.
  intros Hacc Hdec.
  destruct (extractSingleFrame_fails W videoPath ts
              (Some (default (ofZ 1920) maxWidth)) (Some (default jpeg fmt))
              (Some (default (ofZ 80) quality)) Hdec) as (msg & evs & E).
  exists msg, evs.
  unfold callTool, tryCatch, dispatch. cbv zeta.
  unfold bind at 1. unfold checkFile, bind at 1. unfold emit at 1, ret at 1.
  rewrite Hacc. cbn [negb]. unfold bind. rewrite E.
  unfold ret, addEvents. cbn [trace frameCache].
  rewrite <- !app_assoc. reflexivity.
Qed.

Lemma get_frame_fails_with_decoder_witness :
  exists msg evs,
    callTool (host := sampleHost) strictWorld
      (GetFrame "/v.mp4" (ofZ 100) None None None) emptyState
    = (Ok (RFailure msg
             (Some "Check that the video file exists and is in a supported format.")
             true),
       addEvents emptyState
         (EvAccess "/v.mp4"
          :: evs ++ [EvRm (singleFramePath (host := sampleHost) strictWorld jpeg)])).
Proof.
  apply (get_frame_fails_with_decoder sampleHost strictWorld "/v.mp4" (ofZ 100)
           None None None emptyState); [reflexivity|vm_compute; exact I].
Defined.

(** ** The batch of frames *)

Lemma decodedTimestamps_app (e1 e2 : list Event) :
  decodedTimestamps (e1 ++ e2) = (decodedTimestamps e1 ++ decodedTimestamps e2)%list.
Proof. apply omap_app. Qed.

Section Batch.
Context `{host : Host} (W : World).

(** One fetch hands the decoder its own timestamp, once; it returns; and the
    frame it returns is stamped with that timestamp. *)
Lemma extractSingleFrame_run (videoPath : string) (ts : number)
    (maxWidth : option number) (fmt : option ImageFormat)
    (quality : option number) :
  exists r evs,
    (forall s,
        (extractSingleFrame W videoPath ts maxWidth fmt quality s).1 = r
        /\ trace (extractSingleFrame W videoPath ts maxWidth fmt quality s).2
           = (trace s ++ evs)%list)
    /\ decodedTimestamps evs = [ts]
    /\ r <> Diverge
    /\ forall frame, r = Ok frame -> timestamp (frameRef frame) = ts.
Proof.
  destruct (blind_extractSingleFrame W videoPath ts maxWidth fmt quality)
    as (r & evs & _ & Hrun).
  exists r, evs. split; [exact Hrun|].
  destruct (Hrun emptyState) as [Hr Ht]. simpl in Ht. subst r evs.
  assert (Hret := returns_extractSingleFrame W videoPath ts maxWidth fmt quality
                    emptyState).
  split; [|split; [exact Hret|]]; clear Hrun Hret;
    unfold extractSingleFrame, ensureTempDir, decodeFrameTo, sharpMeta,
      sharpConvert, emptyState;
    unfold tryFinally, bind, emit, ret, throw;
    cbv zeta; cbn [trace frameCache fst snd app];
    repeat (match goal with
            | |- context [fsMkdir W ?a] => destruct (fsMkdir W a)
            | |- context [ffmpegFrame W ?a ?b ?c] =>
                destruct (ffmpegFrame W a b c) as [?|[?|]]
            | |- context [sharpMetadata W ?a] => destruct (sharpMetadata W a)
            | |- context [sharpEncode W ?a ?b ?c ?d] =>
                destruct (sharpEncode W a b c d)
            end; cbn [trace frameCache fst snd app]);
    try reflexivity; try discriminate; intros frame [= <-]; reflexivity.
Qed.

End Batch.


Lemma fetching_Await (ts : number) (d : nat) (b : bool) {X : Type}
    (op : Op X) (k : X -> Task FrameData) :
  (forall fs, exists b',
      decodedTimestamps (op fs).1.1 = (if negb b && b' then [ts] else [])
      /\ (b = true -> b' = true)
      /\ fetching ts d b' (k (op fs).2)) ->
  fetching ts (S d) b (Await op k).
Proof. intros H. exact H. Qed.

Section Pool.
Context `{host : Host} (W : World).

(** A fetch awaits seven operations at most, hands the decoder its own
    timestamp, once, and a frame it resolves to is stamped with it. *)
Lemma fetching_task (videoPath : string) (ts : number)
    (maxWidth : option number) (fmt : option ImageFormat)
    (quality : option number) :
  fetching ts 7 false (extractSingleFrameTask W videoPath ts maxWidth fmt quality).
Proof.
  unfold extractSingleFrameTask, await. cbv zeta.
  apply fetching_Await. intros fs. exists false.
  unfold opEnsureTempDir at 1 2. cbn [fst snd].
  split; [now destruct (fsMkdir W tempDir)|]. split; [easy|].
  cbn [taskFinally]. apply fetching_Await. intros fs1. exists true.
  unfold opFfmpegFrame.
  destruct (ffmpegFrame W videoPath ts _) as [msg|written]; cbn [fst snd];
    (split; [reflexivity|]); (split; [easy|]); cbn [taskFinally].
  { apply fetching_Await. intros fs2. exists true. now repeat split. }
  apply fetching_Await. intros fs2. exists true. unfold opReadFile.
  cbn [fst snd]. split; [reflexivity|]. split; [easy|].
  destruct (fs2 !! _) as [buffer|]; cbn [taskFinally].
  2: { apply fetching_Await. intros fs3. exists true. now repeat split. }
  apply fetching_Await. intros fs3. exists true. unfold opSharpMetadata at 1 2.
  cbn [fst snd]. split; [reflexivity|]. split; [easy|].
  destruct (sharpMetadata W buffer) as [msg|m]; cbn [taskFinally].
  { apply fetching_Await. intros fs4. exists true. now repeat split. }
  apply fetching_Await. intros fs4. exists true. unfold opSharpConvert.
  cbn [fst snd]. split; [reflexivity|]. split; [easy|].
  destruct (sharpEncode W buffer _ _ _) as [msg|out]; cbn [taskFinally].
  { apply fetching_Await. intros fs5. exists true. now repeat split. }
  apply fetching_Await. intros fs5. exists true. unfold opSharpMetadata.
  cbn [fst snd]. split; [reflexivity|]. split; [easy|].
  destruct (sharpMetadata W out) as [msg|m2]; cbn [taskFinally].
  { apply fetching_Await. intros fs6. exists true. now repeat split. }
  apply fetching_Await. intros fs6. exists true. now repeat split.
Qed.

End Pool.

Lemma poolOf_cons' ts tss t pool d b n dec n' dec' :
  fetching ts d b t ->
  poolOf tss pool n dec ->
  n' = (d + n)%nat ->
  dec' = ((if b then [ts] else []) ++ dec)%list ->
  poolOf (ts :: tss) (t :: pool) n' dec'.
Proof. intros Hf Hp -> ->. now constructor. Qed.

(** One completion in a pool of fetches: the pool is still one of fetches of
    the same timestamps, one operation nearer to its end; the decoder has
    run on one more of them if the events say so; and a task has ended in a
    rejection only if the step reports it. *)
Lemma advance_fetches (tss : list number) (pool : list (Task FrameData))
    (n : nat) (dec : list number) :
  poolOf tss pool n dec ->
  forall j fs, (j < waiting pool)%nat ->
  exists evs fs' pool' rej n' dec',
    advance j pool fs = (evs, fs', pool', rej)
    /\ poolOf tss pool' n' dec'
    /\ n = S n'
    /\ dec' ≡ₚ (dec ++ decodedTimestamps evs)%list
    /\ (rej = None ->
        Forall (fun t => rejectionOf t = None) pool ->
        Forall (fun t => rejectionOf t = None) pool').
Proof.
  induction 1 as [|ts tss t pool d b n dec Hf Hp IH]; intros j fs Hj.
  { unfold waiting in Hj. simpl in Hj. lia. }
  assert (Hrec : forall t0 j', (j' < waiting pool)%nat ->
            fetching ts d b t0 ->
            exists evs fs' pool' rej n' dec',
              (let '(evs, fs', rest', rej) := advance j' pool fs in
               (evs, fs', t0 :: rest', rej)) = (evs, fs', pool', rej)
              /\ poolOf (ts :: tss) pool' n' dec'
              /\ (d + n)%nat = S n'
              /\ dec' ≡ₚ (((if b then [ts] else []) ++ dec)
                          ++ decodedTimestamps evs)%list
              /\ (rej = None ->
                  Forall (fun t => rejectionOf t = None) (t0 :: pool) ->
                  Forall (fun t => rejectionOf t = None) pool')).
  { intros t0 j' Hj' Hf0.
    destruct (IH _ fs Hj') as (evs & fs' & pool' & rej & n' & dec' & E & Hp'
                               & -> & Hdec & Hrej).
    rewrite E. exists evs, fs', (t0 :: pool'), rej, (d + n')%nat,
      ((if b then [ts] else []) ++ dec')%list.
    split; [reflexivity|]. split; [now constructor|]. split; [lia|].
    split; [now rewrite Hdec, app_assoc|].
    intros Hr Hall. inversion Hall; subst. constructor; auto. }
  unfold waiting in Hj.
  destruct t as [frame|msg|X op k]; cbn [List.filter isPending length] in Hj.
  - cbn [advance]. now apply (Hrec (Resolved frame) j).
  - cbn [advance]. now apply (Hrec (Rejected msg) j).
  - destruct j as [|j].
    + cbn [advance]. destruct d as [|d]; [easy|].
      destruct (Hf fs) as (b' & Hev & Hb & Hf').
      destruct (op fs) as [[evs fs'] x]. cbn [fst snd] in *.
      exists evs, fs', (k x :: pool), (rejectionOf (k x)), (d + n)%nat,
        ((if b' then [ts] else []) ++ dec)%list.
      split; [reflexivity|]. split; [now constructor|]. split; [lia|].
      split.
      * rewrite Hev. destruct b, b'; cbn [negb andb app];
          rewrite ?app_nil_r; try reflexivity.
        -- now specialize (Hb eq_refl).
        -- change (ts :: dec) with ([ts] ++ dec)%list.
           rewrite (Permutation_app_comm dec [ts]). reflexivity.
      * intros Hr Hall. inversion Hall; subst. now constructor.
    + cbn [advance]. apply (Hrec (Await op k) j); [unfold waiting; lia|exact Hf].
Qed.

Lemma poolOf_waiting tss pool n dec : poolOf tss pool n dec -> (waiting pool <= n)%nat.
Proof.
  unfold waiting. induction 1 as [|ts tss t pool d b n dec Hf Hp IH];
    [reflexivity|].
  destruct t as [frame|msg|X op k]; cbn [List.filter isPending length]; try lia.
  destruct d as [|d]; [easy|lia].
Qed.

(** A pool of fetches in which no task waits: the decoder has run for every
    timestamp, and unless a task was rejected the pool holds one frame per
    timestamp, stamped with it. *)
Lemma poolOf_settled tss pool n dec :
  poolOf tss pool n dec -> waiting pool = 0%nat ->
  dec = tss
  /\ (Forall (fun t => rejectionOf t = None) pool ->
      length (omap resolvedValue pool) = length tss
      /\ map (fun f => timestamp (frameRef f)) (omap resolvedValue pool) = tss).
Proof.
  unfold waiting. induction 1 as [|ts tss t pool d b n dec Hf Hp IH];
    [now repeat split|].
  destruct t as [frame|msg|X op k]; cbn [List.filter isPending length];
    [| |discriminate]; intros Hw; destruct (IH Hw) as [-> Hres].
  - destruct Hf as [-> Hts]. split; [reflexivity|].
    intros Hall. apply Forall_cons in Hall. destruct Hall as [_ Hall].
    destruct (Hres Hall) as (Hlen & Hmap).
    cbn [omap resolvedValue list_omap length map]. unfold omap in *.
    now rewrite Hlen, Hmap, Hts.
  - simpl in Hf. subst b. split; [reflexivity|].
    intros Hall. apply Forall_cons in Hall. now destruct Hall as [? _].
Qed.

Section RunPool.
Context (W : World).

Lemma runPool_settled {A : Type} fuel step (pool : list (Task A)) fs evs rej :
  waiting pool = 0%nat ->
  runPool W fuel step pool fs evs rej = Some (evs, pool, rej).
Proof. intros H. destruct fuel; cbn [runPool]; now rewrite H. Qed.

Lemma runPool_step {A : Type} fuel step (pool : list (Task A)) fs evs rej m :
  waiting pool = S m ->
  runPool W (S fuel) step pool fs evs rej
  = let '(evs', fs', pool', r) :=
      advance (schedule W step `mod` S m) pool fs in
    runPool W fuel (S step) pool' fs' (evs ++ evs')%list (firstOf rej r).
Proof. intros H. cbn [runPool]. now rewrite H. Qed.

(** The event loop on a pool of fetches, under every schedule: it settles
    within the operations the fetches await; the decoder has then run
    exactly on the timestamps of the pool, once each, in the order the
    schedule gave; and unless a fetch was rejected the pool holds one frame
    per timestamp, in the order of the timestamps. *)
Lemma runPool_fetches : forall fuel step tss pool n dec fs evs rej,
  poolOf tss pool n dec ->
  (n <= fuel)%nat ->
  decodedTimestamps evs ≡ₚ dec ->
  (rej = None -> Forall (fun t => rejectionOf t = None) pool) ->
  exists evs' pool' rej',
    runPool W fuel step pool fs evs rej = Some (evs', pool', rej')
    /\ decodedTimestamps evs' ≡ₚ tss
    /\ (rej' = None ->
        length (omap resolvedValue pool') = length tss
        /\ map (fun f => timestamp (frameRef f)) (omap resolvedValue pool')
           = tss).
Proof.
  induction fuel as [|fuel IH]; intros step tss pool n dec fs evs rej Hp Hn
    Hdec Hrej; pose proof (poolOf_waiting _ _ _ _ Hp) as Hw;
    destruct (waiting pool) as [|m] eqn:Ew; try lia.
  1, 2: rewrite (runPool_settled _ _ _ _ _ _ Ew);
    destruct (poolOf_settled _ _ _ _ Hp Ew) as [-> Hres];
    exists evs, pool, rej; split; [reflexivity|]; split; [exact Hdec|];
    intros Hr; exact (Hres (Hrej Hr)).
  rewrite (runPool_step _ _ _ _ _ _ _ Ew).
  destruct (advance_fetches _ _ _ _ Hp (schedule W step `mod` S m) fs)
    as (evs1 & fs' & pool' & r & n' & dec' & E & Hp' & -> & Hdec' & Hr').
  { rewrite Ew. apply Nat.mod_upper_bound. lia. }
  rewrite E.
  apply (IH (S step) tss pool' n' dec' fs' (evs ++ evs1)%list (firstOf rej r) Hp');
    [lia| |].
  - now rewrite decodedTimestamps_app, Hdec, Hdec'.
  - destruct rej as [msg|]; [discriminate|]. cbn [firstOf]. intros ->.
    now apply Hr', Hrej.
Qed.

End RunPool.

Section BatchRuns.
Context `{host : Host} (W : World).

Lemma poolOf_tasks videoPath maxWidth fmt quality (tss : list number) :
  poolOf tss
    (map (fun ts => extractSingleFrameTask W videoPath ts maxWidth fmt quality)
       tss)
    (7 * length tss) [].
Proof.
  induction tss as [|ts tss IH]; [constructor|]. cbn [map length].
  eapply poolOf_cons'; [apply fetching_task|exact IH|lia|reflexivity].
Qed.

Lemma tasks_not_rejected videoPath maxWidth fmt quality (tss : list number) :
  Forall (fun t => rejectionOf t = None)
    (map (fun ts => extractSingleFrameTask W videoPath ts maxWidth fmt quality)
       tss)
  /\ foldr (fun t r => firstOf (rejectionOf t) r) None
       (map (fun ts =>
               extractSingleFrameTask W videoPath ts maxWidth fmt quality) tss)
     = None.
Proof.
  induction tss as [|ts tss [IH1 IH2]]; [now split|]. cbn [map foldr].
  split; [now constructor|]. now rewrite IH2.
Qed.

(** [Promise.all] over the fetches of a list of timestamps, under every
    schedule: it settles; the decoder has run exactly on those timestamps,
    once each; and when it fulfils, its frames are stamped with the
    timestamps, in their order. *)
Lemma promiseAll_fetches videoPath maxWidth fmt quality (tss : list number)
    (s : ProcState) :
  let run :=
    promiseAll W (7 * length tss)
      (map (fun ts =>
              extractSingleFrameTask W videoPath ts maxWidth fmt quality) tss)
      s in
  (exists evs, run.2 = addEvents s evs /\ decodedTimestamps evs ≡ₚ tss)
  /\ match run.1 with
     | Ok frames =>
         length frames = length tss
         /\ map (fun f => timestamp (frameRef f)) frames = tss
     | Throw _ => True
     | Diverge => False
     end.
Proof.
  intros run. unfold run, promiseAll.
  destruct (tasks_not_rejected videoPath maxWidth fmt quality tss) as [Hall ->].
  destruct (runPool_fetches W (7 * length tss) 0 tss _ _ [] ∅ [] None
              (poolOf_tasks videoPath maxWidth fmt quality tss))
    as (evs & pool & rej & -> & Hdec & Hres); [lia|reflexivity|easy|].
  cbn [fst snd]. split; [now exists evs|].
  destruct rej as [msg|]; [exact I|]. now apply Hres.
Qed.

End BatchRuns.

(** *** Fetches that do not interleave *)

Lemma oneAtATime_single (W : World) : oneAtATime W 1.
Proof.
  intros step m Hm. replace m with 0%nat by lia. apply Nat.mod_1_r.
Qed.


Lemma advance_first {A X : Type} (settled rest : list (Task A)) (op : Op X)
    (k : X -> Task A) (fs : Files) :
  Forall (fun t => isPending t = false) settled ->
  advance 0 (settled ++ Await op k :: rest)%list fs
  = (let '(evs, fs', x) := op fs in
     (evs, fs', (settled ++ k x :: rest)%list, rejectionOf (k x))).
Proof.
  induction 1 as [|t settled Ht _ IH]; [reflexivity|].
  destruct t as [a|msg|Y op' k']; [| |discriminate];
    cbn [app advance]; rewrite IH; now destruct (op fs) as [[evs fs'] x].
Qed.

Lemma waiting_first {A : Type} (settled rest : list (Task A)) (t : Task A) :
  Forall (fun t => isPending t = false) settled ->
  waiting (settled ++ t :: rest)%list
  = ((if isPending t then 1 else 0) + waiting rest)%nat.
Proof.
  unfold waiting. induction 1 as [|t0 settled Ht _ IH]; cbn [app List.filter].
  - now destruct (isPending t).
  - now rewrite Ht.
Qed.

Section Alone.
Context `{host : Host} (W : World).

Lemma runPool_first {A X : Type} (n fuel step : nat)
    (settled rest : list (Task A)) (op : Op X) (k : X -> Task A) (fs : Files)
    (evs : list Event) (rej : option string) :
  oneAtATime W n -> (waiting rest < n)%nat ->
  Forall (fun t => isPending t = false) settled ->
  runPool W (S fuel) step (settled ++ Await op k :: rest)%list fs evs rej
  = runPool W fuel (S step) (settled ++ k (op fs).2 :: rest)%list (op fs).1.2
      (evs ++ (op fs).1.1)%list (firstOf rej (rejectionOf (k (op fs).2))).
Proof.
  intros Hone Hn Hs.
  rewrite (runPool_step W _ _ _ _ _ _ (waiting rest));
    [|now rewrite waiting_first].
  rewrite (Hone step _ Hn), (advance_first _ _ _ _ _ Hs).
  now destruct (op fs) as [[evs' fs'] x].
Qed.



End Alone.

Section BatchAlone.
Context `{host : Host} (W : World).





End BatchAlone.

Lemma oneAtATime_short (W : World) (n : nat) : (n <= 1)%nat -> oneAtATime W n.
Proof.
  intros Hn step m Hm. replace m with 0%nat by lia. apply Nat.mod_1_r.
Qed.

Section Agree.
Context `{host : Host} (W : World).

Lemma runPool_single {A X : Type} (fuel step : nat) (op : Op X)
    (k : X -> Task A) (fs : Files) (evs : list Event) (rej : option string) :
  runPool W (S fuel) step [Await op k] fs evs rej
  = runPool W fuel (S step) [k (op fs).2] (op fs).1.2
      (evs ++ (op fs).1.1)%list (firstOf rej (rejectionOf (k (op fs).2))).
Proof.
  apply (runPool_first W 1 fuel step [] [] op k fs evs rej
           (oneAtATime_short W 1 (Nat.le_refl 1)));
    [unfold waiting; simpl; lia|constructor].
Qed.

(** The two embeddings of [extractSingleFrame] agree: a fetch that is the
    only promise under way does, under every schedule, what the method does
    when run on its own: the same collaborator calls in the same order, the
    same frame or the same error. *)
Lemma extractSingleFrameTask_alone (videoPath : string) (ts : number)
    (maxWidth : option number) (fmt : option ImageFormat)
    (quality : option number) (s : ProcState) :
  promiseAll W 7 [extractSingleFrameTask W videoPath ts maxWidth fmt quality] s
  = (match (extractSingleFrame W videoPath ts maxWidth fmt quality s).1 with
     | Ok frame => Ok [frame]
     | Throw msg => Throw msg
     | Diverge => Diverge
     end,
     (extractSingleFrame W videoPath ts maxWidth fmt quality s).2).
Proof.
  unfold promiseAll, extractSingleFrame, extractSingleFrameTask, await.
  unfold ensureTempDir, decodeFrameTo, sharpMeta, sharpConvert.
  unfold tryFinally, bind, emit, ret, throw. cbv zeta.
  cbn [foldr rejectionOf firstOf].
  rewrite runPool_single. unfold opEnsureTempDir.
  cbn [fst snd taskFinally rejectionOf firstOf].
  rewrite runPool_single. unfold opFfmpegFrame.
  destruct (fsMkdir W tempDir); cbn [fst snd trace frameCache app];
    destruct (ffmpegFrame W videoPath ts _) as [msg|[buffer|]];
    cbn [fst snd trace frameCache app taskFinally rejectionOf firstOf];
    repeat (first [rewrite runPool_single
                  |rewrite (runPool_settled W) by reflexivity];
            unfold opRm, opReadFile, opSharpMetadata, opSharpConvert;
            rewrite ?lookup_insert_eq, ?lookup_empty;
            cbn [fst snd trace frameCache app taskFinally rejectionOf firstOf];
            try match goal with
                | |- context [sharpMetadata W ?a] =>
                    destruct (sharpMetadata W a)
                | |- context [sharpEncode W ?a ?b ?c ?d] =>
                    destruct (sharpEncode W a b c d)
                end;
            cbn [fst snd trace frameCache app taskFinally rejectionOf firstOf]);
    cbn [omap list_omap resolvedValue]; rewrite <- ?app_assoc; reflexivity.
Qed.

End Agree.



(** A request for 100 timestamps on the sample file, the fetches completing
    one after another: 5 runs of the decoder, 5 frames, in the order
    requested, reported against the 100 requested. *)
Example get_frames_batch_100 :
  let call := GetFramesBatch "/v.mp4" (map ofNat (seq 0 100)) None None in
  decodedTimestamps
    (eventsOf (callTool (host := sampleHost) (sampleWorld false) call) ∅)
  = map ofNat [0; 1; 2; 3; 4]%nat
  /\ match resultOf (callTool (host := sampleHost) (sampleWorld false) call)
             emptyState with
     | Ok (RBatch framesExtracted totalTimestampsRequested limited frames) =>
         framesExtracted = 5%nat
         /\ totalTimestampsRequested = 100%nat
         /\ limited = true
         /\ map (fun f => timestamp (frameRef f)) frames
            = map ofNat [0; 1; 2; 3; 4]%nat
     | _ => False
     end.
Proof. vm_compute. repeat split. Qed.

(** Two fetches that interleave share the one temporary file.  When the
    first has removed it before the second reads it, the second is rejected
    and the call fails, though every collaborator has done its work. *)
Example get_frames_batch_race_enoent :
  let W := racingWorld (fun k => if (k =? 1)%nat || (k =? 3)%nat then 1 else 0)%nat in
  let call := GetFramesBatch "/v.mp4" [ofZ 0; ofZ 1] None None in
  decodedTimestamps (eventsOf (callTool (host := sampleHost) W call) ∅)
  = [ofZ 0; ofZ 1]
  /\ resultOf (callTool (host := sampleHost) W call) emptyState
     = Ok (RFailure
             "ENOENT: no such file or directory, open '/tmp/mcp-video-reader/frame-1700000000000.jpeg'"
             (Some "Check that the video file exists and is in a supported format.")
             true).
Proof. vm_compute. repeat split. Qed.

(** When the second decoder runs first and both fetches read the file
    before either removes it, both get the image the first fetch decoded
    last: the decoder has run out of the order of the request, and the frame
    stamped 1 holds the image of timestamp 0. *)
Example get_frames_batch_race_crossed :
  let W :=
    racingWorld
      (fun k => if (k =? 1)%nat || (k =? 2)%nat || (k =? 5)%nat then 1 else 0)%nat in
  let call := GetFramesBatch "/v.mp4" [ofZ 0; ofZ 1] None None in
  decodedTimestamps (eventsOf (callTool (host := sampleHost) W call) ∅)
  = [ofZ 1; ofZ 0]
  /\ match resultOf (callTool (host := sampleHost) W call) emptyState with
     | Ok (RBatch framesExtracted totalTimestampsRequested limited frames) =>
         framesExtracted = 2%nat
         /\ map (fun f => (timestamp (frameRef f), base64 f)) frames
            = [(ofZ 0, "frame@0"); (ofZ 1, "frame@0")]
     | _ => False
     end.
Proof. vm_compute. repeat split. Qed.

(** The overview of the sample file: two probes of the file, ten references
    at 0, 10, ..., 90, and the baseline hint alone. *)
Example getVideoOverview_sample :
  eventsOf (getVideoOverview (host := sampleHost) (sampleWorld false) "/v.mp4" None) ∅
  = [EvProbe "/v.mp4"; EvStat "/v.mp4"; EvProbe "/v.mp4"; EvStat "/v.mp4"]
  /\ match resultOf (getVideoOverview (host := sampleHost) (sampleWorld false)
                       "/v.mp4" None) emptyState with
     | Ok ov =>
         map timestamp (availableFrames ov)
         = map ofZ [0; 10; 20; 30; 40; 50; 60; 70; 80; 90]%Z
         /\ map estimatedTokens (availableFrames ov)
            = replicate 10 (ofZ 67332)
         /\ map hintType (contextHints ov) = [warning; action]
     | _ => False
     end.
Proof. vm_compute. repeat split. Qed.

(** * Further properties of the processor and of the handlers *)

(** ** Timestamps and labels *)

Lemma Qfloor_div_Z (s : Z) (d : positive) :
  Qfloor (inject_Z s / inject_Z (Zpos d)) = (s / Zpos d)%Z.
Proof.
  unfold Qdiv, Qinv, Qmult, Qfloor, inject_Z. simpl.
  now rewrite Z.mul_1_r.
Qed.

Lemma qtrunc_div_Z (s : Z) (d : positive) :
  qtrunc (inject_Z s / inject_Z (Zpos d)) = Z.quot s (Zpos d).
Proof.
  assert (Hd : (0 < inject_Z (Zpos d))%Q) by now apply inject_Z_pos.
  unfold qtrunc. destruct (Z_lt_le_dec s 0) as [Hneg|Hpos].
  - assert (Hlt : (inject_Z s / inject_Z (Zpos d) < 0)%Q).
    { apply Qlt_shift_div_r; [exact Hd|]. rewrite Qmult_0_l.
      change 0%Q with (inject_Z 0). now rewrite <- Zlt_Qlt. }
    unfold qsign. rewrite (proj1 (Qlt_alt _ _) Hlt).
    unfold Qceiling.
    assert (E : (- (inject_Z s / inject_Z (Zpos d))
                 == inject_Z (- s) / inject_Z (Zpos d))%Q).
    { rewrite inject_Z_opp. field. intros E. rewrite E in Hd.
      now apply Qlt_irrefl in Hd. }
    rewrite (Qfloor_comp _ _ E), Qfloor_div_Z.
    rewrite <- Z.quot_div_nonneg by lia. rewrite Z.quot_opp_l by lia. lia.
  - assert (Hge : (0 <= inject_Z s / inject_Z (Zpos d))%Q).
    { apply Qle_shift_div_l; [exact Hd|]. rewrite Qmult_0_l.
      now apply inject_Z_nonneg. }
    unfold qsign. rewrite Qfloor_div_Z, Z.quot_div_nonneg by lia.
    destruct (inject_Z s / inject_Z (Zpos d) ?= 0)%Q eqn:C; try reflexivity.
    apply Qlt_alt in C. now apply Qle_not_lt in Hge.
Qed.

Lemma nfloor_div_ofZ (s : Z) (d : positive) :
  nfloor (ofZ s / ofZ (Zpos d))%js = ofZ (s / Zpos d).
Proof.
  unfold ofZ. rewrite ndiv_Num_pos by now apply inject_Z_pos.
  unfold nfloor, ofZ. do 2 f_equal.
  rewrite (Qfloor_comp _ _ (Qred_correct _)). apply Qfloor_div_Z.
Qed.

Lemma nfloor_mod_ofZ (s : Z) (d : positive) :
  nfloor (ofZ s %% ofZ (Zpos d))%js = ofZ (Z.rem s (Zpos d)).
Proof.
  unfold ofZ, nmod. rewrite (qsign_pos _ (inject_Z_pos _ (Pos2Z.is_pos d))).
  unfold nfloor, num, ofZ. do 2 f_equal.
  rewrite (Qfloor_comp _ _ (Qred_correct _)), qtrunc_div_Z.
  rewrite <- (Qfloor_Z (Z.rem s (Z.pos d))). apply Qfloor_comp.
  unfold Qminus. rewrite <- inject_Z_mult, <- inject_Z_opp, <- inject_Z_plus.
  apply inject_Z_injective.
  assert (H := Z.quot_rem' s (Z.pos d)). lia.
Qed.

(** X1 ([formatTimestamp]): on a whole number of seconds the minutes are the
    floor of seconds / 60 and the seconds part is the remainder with the sign
    of the dividend, padded to two characters.  For seconds >= 0 this is the
    usual m:ss; for a negative timestamp both parts are negative (-1 gives
    minutes -1 and seconds -1). *)
Theorem formatTimestamp_integer (host : Host) (s : Z) :
  formatTimestamp (ofZ s)
  = numToString (ofZ (s / 60)) +:+ ":"
    +:+ padStart2 (numToString (ofZ (Z.rem s 60))).
Proof.
  unfold formatTimestamp. cbv zeta.
  now rewrite (nfloor_div_ofZ s 60), (nfloor_mod_ofZ s 60).
Qed.

(** For seconds >= 0 the two parts recompose the timestamp, with the seconds
    part below 60. *)
Lemma formatTimestamp_parts (s : Z) :
  (0 <= s)%Z ->
  (s / 60 * 60 + Z.rem s 60 = s)%Z /\ (0 <= Z.rem s 60 < 60)%Z.
Proof.
  intros H. rewrite Z.rem_mod_nonneg by lia.
  split; [|apply Z.mod_pos_bound; lia].
  assert (E := Z.div_mod s 60). lia.
Qed.

Lemma Qfloor_unique (x : Q) (z : Z) :
  (inject_Z z <= x)%Q -> (x < inject_Z (z + 1))%Q -> Qfloor x = z.
Proof.
  intros Hlo Hhi.
  assert (H1 := Qfloor_le x). assert (H2 := Qlt_floor x).
  assert (A : (Qfloor x < z + 1)%Z)
    by (rewrite Zlt_Qlt; eapply Qle_lt_trans; eauto).
  assert (B : (z < Qfloor x + 1)%Z)
    by (rewrite Zlt_Qlt; eapply Qle_lt_trans; eauto).
  lia.
Qed.

(** X2 ([getDurationLabel]): the label rounds, so just below a tier boundary
    it shows the boundary value in the lower tier's unit: from 59.5 s up to
    60 s it reads "60 seconds", and from 3570 s up to 3600 s "60 minutes". *)
Theorem getDurationLabel_boundary (host : Host) :
  (forall q, (119 # 2 <= q)%Q -> (q < 60)%Q ->
     getDurationLabel (Num q) = numToString (ofZ 60) +:+ " seconds")
  /\ (forall q, (3570 <= q)%Q -> (q < 3600)%Q ->
        getDurationLabel (Num q) = numToString (ofZ 60) +:+ " minutes").
Proof.
  split; intros q Hlo Hhi; unfold getDurationLabel.
  - assert (T : (Num q <? ofZ 60)%js = true) by now apply nlt_Num.
    rewrite T. unfold nround, ofZ.
    enough (E : Qfloor (q + (1 # 2)) = 60%Z) by now rewrite E.
    apply Qfloor_unique.
    + change (inject_Z 60) with 60%Q. lra.
    + change (inject_Z (60 + 1)) with 61%Q. lra.
  - assert (T : (Num q <? ofZ 60)%js = false).
    { apply nlt_Num_false. eapply Qle_trans; [|exact Hlo]. easy. }
    assert (T' : (Num q <? ofZ 3600)%js = true) by now apply nlt_Num.
    rewrite T, T'. unfold ofZ. rewrite ndiv_Num_pos by easy.
    unfold nround, ofZ.
    enough (E : Qfloor (Qred (q / inject_Z 60) + (1 # 2)) = 60%Z)
      by now rewrite E.
    apply Qfloor_unique; rewrite Qred_correct.
    + change (inject_Z 60) with 60%Q.
      assert (H : (119 # 2 <= q / 60)%Q)
        by (apply Qle_shift_div_l; [easy|lra]).
      lra.
    + change (inject_Z (60 + 1)) with 61%Q. change (inject_Z 60) with 60%Q.
      assert (H : (q / 60 < 60)%Q) by (apply Qlt_shift_div_r; [easy|lra]).
      lra.
Qed.

Lemma getDurationLabel_boundary_witness :
  getDurationLabel (host := sampleHost) (Num (599 # 10)) = "60 seconds".
Proof.
  apply (proj1 (getDurationLabel_boundary sampleHost) (599 # 10)); easy.
Defined.

Lemma nmul_comm (a b : number) : (a * b)%js = (b * a)%js.
Proof.
  destruct a as [| |x|], b as [| |y|]; try reflexivity.
  unfold nmul, num. f_equal. apply Qred_complete, Qmult_comm.
Qed.

(** X3 ([getResolutionLabel]): the tier depends on the pixel count only, so
    a frame and its rotation by a quarter turn get the same label. *)
Theorem getResolutionLabel_rotation (w h : number) :
  getResolutionLabel w h = getResolutionLabel h w.
Proof.
  unfold getResolutionLabel. now rewrite (nmul_comm w h).
Qed.

(** ** Analysis hints *)

(** X4 ([generateAnalysisHints], duration branch): for a duration d >= 0 the
    suggested parameters are 10, 15 or 20 frames with an interval of at
    least one second; and from 30 s on, where the interval is a floor, it is
    a whole number of seconds and the suggested sampling fits in the video:
    maxFrames x interval <= d.  (Below 30 s the interval is the quotient
    d / 10 itself, which the rounding of binary64 can push above the exact
    one, so no bound is stated there; the bound is stated for durations up
    to 2^53 s, where the floors are the exact ones.) *)
Theorem durationHint_fits (md : VideoMetadata) (d : Q) :
  duration md = Num d -> (0 <= d)%Q ->
  exists (maxFrames : Z) (interval : Q),
    parameters (durationHint md)
    = Some [("maxFrames", ofZ maxFrames); ("interval", Num interval)]
    /\ (maxFrames = 10 \/ maxFrames = 15 \/ maxFrames = 20)%Z
    /\ (1 <= interval)%Q
    /\ ((30 <= d)%Q -> (d <= inject_Z (2 ^ 53))%Q ->
        (exists n : Z, interval = inject_Z n)
        /\ (inject_Z maxFrames * interval <= d)%Q).
Proof.
  intros Hd Hd0. unfold durationHint. rewrite Hd.
  destruct (Num d <? ofZ 30)%js eqn:T30.
  - apply nlt_Num in T30. unfold ofZ. rewrite ndiv_Num_pos by easy.
    unfold nmax. destruct (Num (inject_Z 1) <? Num (Qred (d / inject_Z 10)))%js eqn:T.
    + apply nlt_Num in T. rewrite Qred_correct in T.
      exists 10%Z, (Qred (d / inject_Z 10)). split; [reflexivity|].
      split; [now left|]. rewrite Qred_correct.
      split; [now apply Qlt_le_weak|]. intros H30.
      now apply Qlt_not_le in T30.
    + apply nlt_Num_false in T. rewrite Qred_correct in T.
      exists 10%Z, (inject_Z 1). split; [reflexivity|].
      split; [now left|]. split; [easy|]. intros H30.
      now apply Qlt_not_le in T30.
  - apply nlt_Num_false in T30. change (inject_Z 30) with 30%Q in T30.
    destruct (Num d <? ofZ 300)%js eqn:T300.
    + unfold ofZ. rewrite ndiv_Num_pos by easy. unfold nfloor, ofZ.
      exists 15%Z, (inject_Z (Qfloor (Qred (d / inject_Z 15)))).
      split; [reflexivity|]. split; [now right; left|].
      rewrite (Qfloor_comp _ _ (Qred_correct _)).
      assert (H2 : (inject_Z 2 <= d / inject_Z 15)%Q)
        by (apply Qle_shift_div_l; [easy|]; change (inject_Z 2 * inject_Z 15)%Q with 30%Q; exact T30).
      apply Qfloor_resp_le in H2. rewrite Qfloor_Z in H2.
      split.
      * change 1%Q with (inject_Z 1). rewrite <- Zle_Qle. lia.
      * intros _ _. split; [now eexists|].
        assert (H := Qfloor_le (d / inject_Z 15)).
        apply (Qmult_le_l _ _ (inject_Z 15)) in H; [|easy].
        eapply Qle_trans; [exact H|]. change (inject_Z 15) with 15%Q.
        field_simplify. apply Qle_refl.
    + unfold ofZ. rewrite ndiv_Num_pos by easy. unfold nfloor, ofZ.
      apply nlt_Num_false in T300. change (inject_Z 300) with 300%Q in T300.
      exists 20%Z, (inject_Z (Qfloor (Qred (d / inject_Z 20)))).
      split; [reflexivity|]. split; [now right; right|].
      rewrite (Qfloor_comp _ _ (Qred_correct _)).
      assert (H2 : (inject_Z 15 <= d / inject_Z 20)%Q)
        by (apply Qle_shift_div_l; [easy|]; change (inject_Z 15 * inject_Z 20)%Q with 300%Q; exact T300).
      apply Qfloor_resp_le in H2. rewrite Qfloor_Z in H2.
      split.
      * change 1%Q with (inject_Z 1). rewrite <- Zle_Qle. lia.
      * intros _ _. split; [now eexists|].
        assert (H := Qfloor_le (d / inject_Z 20)).
        apply (Qmult_le_l _ _ (inject_Z 20)) in H; [|easy].
        eapply Qle_trans; [exact H|]. change (inject_Z 20) with 20%Q.
        field_simplify. apply Qle_refl.
Qed.

Lemma durationHint_fits_witness :
  exists (maxFrames : Z) (interval : Q),
    parameters (durationHint (sampleMetadata 100 1920 1080))
    = Some [("maxFrames", ofZ maxFrames); ("interval", Num interval)]
    /\ (maxFrames = 10 \/ maxFrames = 15 \/ maxFrames = 20)%Z
    /\ (1 <= interval)%Q
    /\ ((30 <= 100)%Q -> (100 <= inject_Z (2 ^ 53))%Q ->
        (exists n : Z, interval = inject_Z n)
        /\ (inject_Z maxFrames * interval <= 100)%Q).
Proof.
  apply (durationHint_fits (sampleMetadata 100 1920 1080) 100);
    [reflexivity|easy].
Defined.

(** X5 ([generateAnalysisHints]): the hints come in a fixed order and are
    not sorted: the duration hint first, always; then the resolution hint,
    exactly when the width exceeds 1920; then the audio hint, exactly when
    the file has audio. *)
Theorem generateAnalysisHints_order (md : VideoMetadata) :
  map aspect (generateAnalysisHints md)
  = (AspDuration
     :: (if (width md >? ofZ 1920)%js then [AspResolution] else [])
     ++ (if hasAudio md then [AspAudio] else []))%list.
Proof.
  unfold generateAnalysisHints, durationHint. cbv zeta.
  destruct (width md >? ofZ 1920)%js, (hasAudio md),
    (duration md <? ofZ 30)%js, (duration md <? ofZ 300)%js; reflexivity.
Qed.

(** ** Token estimates *)

Lemma estimateBase64Tokens_Num (x : Q) :
  exists e, estimateBase64Tokens (Num x) = ofZ (Qceiling e)
            /\ (e == x * (1330 # 4096))%Q.
Proof.
  unfold estimateBase64Tokens, TOKENS_PER_KB_BASE64, TOKENS_PER_CHAR, ofZ.
  rewrite ndiv_Num_pos by easy. rewrite !nmul_Num. unfold nceil, ofZ.
  eexists. split; [reflexivity|]. rewrite !Qred_correct.
  change (inject_Z 1024) with 1024%Q. change (inject_Z 1000) with 1000%Q.
  field.
Qed.

(** X6 ([estimateBase64Tokens]): over the length of an encoded string the
    estimate is a non-negative integer, it never exceeds the length, and a
    longer string never gets a smaller estimate. *)
Theorem estimateBase64Tokens_bounds (n m : nat) :
  (n <= m)%nat ->
  isNonNegInteger (estimateBase64Tokens (ofNat n)) = true
  /\ (ofNat n >=? estimateBase64Tokens (ofNat n))%js = true
  /\ (estimateBase64Tokens (ofNat m) >=? estimateBase64Tokens (ofNat n))%js
     = true.
Proof.
  intros Hnm.
  destruct (estimateBase64Tokens_Num (inject_Z (Z.of_nat n))) as (e & En & He).
  destruct (estimateBase64Tokens_Num (inject_Z (Z.of_nat m))) as (f & Em & Hf).
  unfold ofNat, ofZ in *. rewrite En, Em.
  assert (Hn0 : (0 <= inject_Z (Z.of_nat n))%Q) by (apply inject_Z_nonneg; lia).
  assert (Hle : (inject_Z (Z.of_nat n) <= inject_Z (Z.of_nat m))%Q)
    by (rewrite <- Zle_Qle; lia).
  set (a := inject_Z (Z.of_nat n)) in *. set (b := inject_Z (Z.of_nat m)) in *.
  assert (He0 : (0 <= e)%Q) by (rewrite He; apply Qmult_le_0_compat; easy).
  assert (Hea : (e <= a)%Q).
  { rewrite He, (Qmult_comm a). rewrite <- (Qmult_1_l a) at 2.
    apply Qmult_le_compat_r; easy. }
  assert (Hef : (e <= f)%Q).
  { rewrite He, Hf. apply Qmult_le_compat_r; easy. }
  split; [|split].
  - apply isNonNegInteger_ofZ. change 0%Z with (Qceiling 0).
    now apply Qceiling_resp_le.
  - apply nge_Num. unfold a. rewrite <- Zle_Qle.
    rewrite <- (Qceiling_Z (Z.of_nat n)). now apply Qceiling_resp_le.
  - apply nge_Num. rewrite <- Zle_Qle. now apply Qceiling_resp_le.
Qed.

Lemma estimateBase64Tokens_bounds_witness :
  isNonNegInteger (estimateBase64Tokens (ofNat 1000)) = true
  /\ (ofNat 1000 >=? estimateBase64Tokens (ofNat 1000))%js = true
  /\ (estimateBase64Tokens (ofNat 4000) >=? estimateBase64Tokens (ofNat 1000))%js
     = true.
Proof. apply (estimateBase64Tokens_bounds 1000 4000). lia. Defined.

(** ** Context hints *)

(** X7 ([generateContextHints]): the hints are exactly, in this order, the
    warning (when the total exceeds 50000), the suggestion (when the
    duration exceeds 300 s), the audio info (when the file has audio) and
    the baseline action, with priorities 10, 8, 5, 3; the warning, the
    suggestion and the action point at get_frame, the info at
    extract_audio.  So there are between one and four hints. *)
Theorem generateContextHints_shape (host : Host) (md : VideoMetadata)
    (frames : list FrameReference) :
  map (fun h => (hintType h, priority h, suggestedTool h))
    (generateContextHints md frames)
  = ((if (totalFrameTokens frames >? ofZ 50000)%js
      then [(warning, ofZ 10, Some "get_frame")] else [])
     ++ (if (duration md >? ofZ 300)%js
         then [(suggestion, ofZ 8, Some "get_frame")] else [])
     ++ (if hasAudio md then [(info, ofZ 5, Some "extract_audio")] else [])
     ++ [(action, ofZ 3, Some "get_frame")])%list.
Proof.
  unfold generateContextHints. fold (totalFrameTokens frames). cbv zeta.
  change WARNING_TOKEN_THRESHOLD with (ofZ 50000).
  match goal with
  | |- context [{| hintType := warning; message := ?m;
                   suggestedTool := _; priority := _ |}] =>
      generalize m; intros msg
  end.
  destruct (totalFrameTokens frames >? ofZ 50000)%js;
    destruct (duration md >? ofZ 300)%js; destruct (hasAudio md);
    vm_compute; reflexivity.
Qed.

(** ** The plan, for every input *)

Lemma nmul_zero_lt (iv d : number) :
  (ofNat 0 * iv <? d)%js = true -> (ofZ 0 <? d)%js = true.
Proof.
  destruct iv as [| |y|]; try discriminate.
  - unfold ofNat, ofZ. rewrite nmul_Num.
    replace (Qred (inject_Z (Z.of_nat 0) * y)) with (inject_Z 0); [easy|].
    symmetry. change (inject_Z 0) with (Qred 0). apply Qred_complete.
    simpl. apply Qmult_0_l.
Qed.

(** X8 (the planning loop of [getVideoOverview]): whatever the profile and
    the requested count (zero, negative, fractional, NaN), the plan never has
    more references than the count, rounded up; it is empty when the count or
    the duration is not positive; and every reference lies strictly before
    the end of the video and carries the one estimate of the file's
    resolution. *)
Theorem planFrames_never_overshoots (host : Host) (md : VideoMetadata)
    (n : number) :
  exists refs,
    planFrames md n = Some refs
    /\ (forall q, n = Num q -> (length refs <= Z.to_nat (Qceiling q))%nat)
    /\ ((ofZ 0 <? n)%js = false \/ (ofZ 0 <? duration md)%js = false ->
        refs = [])
    /\ Forall (fun r => (timestamp r <? duration md)%js = true
                        /\ estimatedTokens r
                           = estimateFrameTokens (width md) (height md))
         refs.
Proof.
  destruct (planFrames_total md n) as [refs E]. exists refs.
  split; [exact E|]. unfold planFrames in E.
  destruct (planLoop_sound _ _ _ _ _ _ E) as [Hall Hstop].
  assert (Hlen : (length refs <= loopBound (duration md) n)%nat).
  { destruct (le_lt_dec (length refs) (loopBound (duration md) n)) as [H|H];
      [exact H|].
    destruct (lookup_lt_is_Some_2 refs _ H) as [r Hr].
    destruct (Hall _ _ Hr) as [_ Ht]. simpl in Ht.
    now rewrite planTest_bound in Ht. }
  split; [|split].
  - intros q ->. exact Hlen.
  - intros Hz. destruct refs as [|r refs]; [reflexivity|].
    destruct (Hall 0%nat r eq_refl) as [_ Ht]. simpl in Ht.
    unfold planTest in Ht. apply andb_true_iff in Ht. destruct Ht as [T1 T2].
    apply nmul_zero_lt in T2. change (ofNat 0) with (ofZ 0) in T1.
    destruct Hz; congruence.
  - apply Forall_lookup. intros i r Hr.
    destruct (Hall _ _ Hr) as [-> Ht]. simpl in Ht.
    unfold planTest in Ht. apply andb_true_iff in Ht. now destruct Ht.
Qed.

(** ** The overview against the other operations *)

(** X9 ([getVideoOverview], [estimateTokens]): on the same file, every
    reference of the overview carries, as its estimate, the per-frame cost
    that the cost estimate reports, and all references show the same
    resolution. *)
Theorem overview_matches_estimate (host : Host) (W : World)
    (videoPath : string) (n k : option number) (s s' : ProcState)
    (ov : VideoOverview) (est : TokenEstimate) :
  resultOf (getVideoOverview W videoPath n) s = Ok ov ->
  resultOf (estimateTokens W videoPath k) s' = Ok est ->
  Forall (fun r => estimatedTokens r = tePerFrame est) (availableFrames ov)
  /\ forall r1 r2, r1 ∈ availableFrames ov -> r2 ∈ availableFrames ov ->
       resolution r1 = resolution r2.
Proof.
  unfold resultOf, getVideoOverview, estimateTokens, bind.
  destruct (getMetadata_cases W videoPath) as [[md E]|[msg E]]; rewrite !E;
    [|discriminate].
  destruct (getMetadataSummary_cases W videoPath) as [[sm E']|[msg E']];
    rewrite E'; [|discriminate].
  destruct (planFrames md _) as [frames|] eqn:Ep; [|discriminate].
  simpl. intros [= <-] [= <-]. simpl.
  unfold planFrames in Ep.
  destruct (planLoop_sound _ _ _ _ _ _ Ep) as [Hall _].
  split.
  - apply Forall_lookup. intros i r Hr. now destruct (Hall _ _ Hr) as [-> _].
  - intros r1 r2 H1 H2.
    apply list_elem_of_lookup in H1, H2. destruct H1 as [i H1], H2 as [j H2].
    destruct (Hall _ _ H1) as [-> _]. now destruct (Hall _ _ H2) as [-> _].
Qed.

Lemma overview_matches_estimate_witness :
  exists ov est,
    resultOf (getVideoOverview (host := sampleHost) (sampleWorld true)
                "/v.mp4" None) emptyState = Ok ov
    /\ resultOf (estimateTokens (host := sampleHost) (sampleWorld true)
                   "/v.mp4" (Some (ofZ 3))) emptyState = Ok est
    /\ Forall (fun r => estimatedTokens r = tePerFrame est) (availableFrames ov).
Proof.
  do 2 eexists. split; [vm_compute; reflexivity|].
  split; [vm_compute; reflexivity|].
  eapply (overview_matches_estimate sampleHost (sampleWorld true) "/v.mp4"
            None (Some (ofZ 3)) emptyState emptyState);
    vm_compute; reflexivity.
Defined.

(** X10 ([getVideoOverview]): the overview is coherent about audio: a
    duration of the audio is given exactly when audio is reported available,
    and the hint that points at extract_audio is among the context hints
    exactly then. *)
Theorem overview_audio_coherent (host : Host) (W : World)
    (videoPath : string) (n : option number) (s : ProcState)
    (ov : VideoOverview) :
  resultOf (getVideoOverview W videoPath n) s = Ok ov ->
  (is_Some (durationSeconds (audio ov)) <-> available (audio ov) = true)
  /\ (Exists (fun h => suggestedTool h = Some "extract_audio")
        (contextHints ov)
      <-> available (audio ov) = true).
Proof.
  unfold resultOf, getVideoOverview, bind.
  destruct (getMetadata_cases W videoPath) as [[md E]|[msg E]]; rewrite !E;
    [|discriminate].
  destruct (getMetadataSummary_cases W videoPath) as [[sm E']|[msg E']];
    rewrite E'; [|discriminate].
  destruct (planFrames md _) as [frames|] eqn:Ep; [|discriminate].
  simpl. intros [= <-]. cbn [audio available durationSeconds contextHints].
  split.
  - destruct (hasAudio md); split; try easy. intros [x Hx]. discriminate.
  - unfold generateContextHints. cbv zeta.
    match goal with
    | |- context [{| hintType := warning; message := ?m;
                     suggestedTool := _; priority := _ |}] =>
        generalize m; intros msg
    end.
    destruct (_ >? WARNING_TOKEN_THRESHOLD)%js;
      destruct (duration md >? ofZ 300)%js; destruct (hasAudio md);
      vm_compute; (split; [intros H|intros H; try discriminate]);
      try reflexivity;
      try (repeat (first [ apply Exists_cons_hd; reflexivity
                         | apply Exists_cons_tl ]); fail);
      repeat (match goal with
              | H : Exists _ (_ :: _) |- _ =>
                  let E := fresh in
                  inversion H as [? ? E|? ? E]; subst; clear H;
                  [discriminate E|]
              | H : Exists _ [] |- _ => inversion H
              end).
Qed.

Lemma overview_audio_coherent_witness :
  exists ov,
    resultOf (getVideoOverview (host := sampleHost) (sampleWorld true)
                "/v.mp4" None) emptyState = Ok ov
    /\ (Exists (fun h => suggestedTool h = Some "extract_audio")
          (contextHints ov)
        <-> available (audio ov) = true).
Proof.
  eexists. split; [vm_compute; reflexivity|].
  eapply (overview_audio_coherent sampleHost (sampleWorld true) "/v.mp4" None
            emptyState). vm_compute. reflexivity.
Defined.

(** ** Who writes the frame cache *)

Lemma keepsCache_ret {A : Type} (a : A) : keepsCache (ret a).
Proof. now intros s. Qed.

Lemma keepsCache_throw {A : Type} (msg : string) :
  keepsCache (throw (A := A) msg).
Proof. now intros s. Qed.

Lemma keepsCache_diverge {A : Type} : keepsCache (diverge (A := A)).
Proof. now intros s. Qed.

Lemma keepsCache_emit (e : Event) : keepsCache (emit e).
Proof. now intros s. Qed.

Lemma keepsCache_bind {A B : Type} (m : M A) (k : A -> M B) :
  keepsCache m -> (forall a, keepsCache (k a)) -> keepsCache (bind m k).
Proof.
  intros Hm Hk s. unfold bind. specialize (Hm s).
  destruct (m s) as [[a|msg|] s']; simpl in *; [|exact Hm|exact Hm].
  now rewrite Hk.
Qed.

Lemma keepsCache_tryFinally {A : Type} (body : M A) (fin : M unit) :
  keepsCache body -> keepsCache fin -> keepsCache (tryFinally body fin).
Proof.
  intros Hb Hf s. unfold tryFinally. specialize (Hb s).
  destruct (body s) as [[a|msg|] s']; simpl in *; [| |exact Hb];
    specialize (Hf s'); destruct (fin s') as [[[]|msg'|] s''];
    simpl in *; congruence.
Qed.

Lemma keepsCache_tryCatch {A : Type} (body : M A) (handler : string -> M A) :
  keepsCache body -> (forall msg, keepsCache (handler msg)) ->
  keepsCache (tryCatch body handler).
Proof.
  intros Hb Hh s. unfold tryCatch. specialize (Hb s).
  destruct (body s) as [[a|msg|] s']; simpl in *; [exact Hb| |exact Hb].
  now rewrite Hh.
Qed.

Lemma keepsCache_promiseAll {A : Type} (W : World) (fuel : nat)
    (tasks : list (Task A)) :
  keepsCache (promiseAll W fuel tasks).
Proof.
  intros s. unfold promiseAll.
  now destruct (runPool W fuel 0 tasks ∅ [] _) as [[[evs pool] rejection]|].
Qed.

Ltac keeps_step :=
  lazymatch goal with
  | |- keepsCache (bind _ _) => apply keepsCache_bind; [|intros ?]
  | |- keepsCache (ret _) => apply keepsCache_ret
  | |- keepsCache (throw _) => apply keepsCache_throw
  | |- keepsCache diverge => apply keepsCache_diverge
  | |- keepsCache (emit _) => apply keepsCache_emit
  | |- keepsCache (tryFinally _ _) => apply keepsCache_tryFinally
  | |- keepsCache (tryCatch _ _) => apply keepsCache_tryCatch; [|intros ?]
  | |- keepsCache (match ?x with _ => _ end) => destruct x
  end.

Create HintDb keeps.

Ltac keeps_auto := cbv zeta; repeat (keeps_step; cbv zeta); eauto with keeps.

Section KeepsCache.
Context `{host : Host} (W : World).

Lemma keepsCache_getMetadata p : keepsCache (getMetadata W p).
Proof. unfold getMetadata. keeps_auto. Qed.

Hint Resolve keepsCache_getMetadata : keeps.

Lemma keepsCache_getMetadataSummary p : keepsCache (getMetadataSummary W p).
Proof. unfold getMetadataSummary. keeps_auto. Qed.

Lemma keepsCache_checkFile p : keepsCache (checkFile W p).
Proof. unfold checkFile. keeps_auto. Qed.

Lemma keepsCache_ensureTempDir : keepsCache (ensureTempDir W).
Proof. unfold ensureTempDir. keeps_auto. Qed.

Lemma keepsCache_sharpMeta b : keepsCache (sharpMeta W b).
Proof. unfold sharpMeta. keeps_auto. Qed.

Lemma keepsCache_sharpConvert b m mw f q :
  keepsCache (sharpConvert W b m mw f q).
Proof. unfold sharpConvert. keeps_auto. Qed.

Lemma keepsCache_decodeFrameTo p ts out : keepsCache (decodeFrameTo W p ts out).
Proof. unfold decodeFrameTo. keeps_auto. Qed.

Hint Resolve keepsCache_getMetadataSummary keepsCache_checkFile
  keepsCache_ensureTempDir keepsCache_sharpMeta keepsCache_sharpConvert
  keepsCache_decodeFrameTo : keeps.

Lemma keepsCache_extractSingleFrame p ts mw f q :
  keepsCache (extractSingleFrame W p ts mw f q).
Proof. unfold extractSingleFrame. keeps_auto. Qed.

Lemma keepsCache_extractFrameAt p dir iv mw f q i :
  keepsCache (extractFrameAt W p dir iv mw f q i).
Proof. unfold extractFrameAt. keeps_auto. Qed.

Lemma keepsCache_extractLoop (total : number) (body : nat -> M VideoFrame) :
  (forall i, keepsCache (body i)) ->
  forall fuel i, keepsCache (extractLoop fuel total body i).
Proof.
  intros Hb. induction fuel as [|fuel IH]; intros i; simpl; keeps_auto.
Qed.

Hint Resolve keepsCache_extractSingleFrame keepsCache_extractFrameAt
  keepsCache_extractLoop : keeps.

Lemma keepsCache_extractFrames p options :
  keepsCache (extractFrames W p options).
Proof. unfold extractFrames. keeps_auto. Qed.

Lemma keepsCache_extractAudio p options :
  keepsCache (extractAudio W p options).
Proof. unfold extractAudio. keeps_auto. Qed.

Hint Resolve keepsCache_extractFrames keepsCache_extractAudio : keeps.

Lemma keepsCache_analyzeVideo p ef mf ea fi :
  keepsCache (analyzeVideo W p ef mf ea fi).
Proof. unfold analyzeVideo. keeps_auto. Qed.

Lemma keepsCache_estimateTokens p n : keepsCache (estimateTokens W p n).
Proof. unfold estimateTokens. keeps_auto. Qed.

Hint Resolve keepsCache_analyzeVideo keepsCache_estimateTokens : keeps.

Lemma keepsCache_dispatch (call : ToolCall) :
  isOverviewCall call = false -> keepsCache (dispatch W call).
Proof.
  destruct call; try discriminate; intros _; unfold dispatch; keeps_auto.
  apply keepsCache_promiseAll.
Qed.

End KeepsCache.

(** X11 (the tool handlers): no tool other than get_video_overview ever
    writes the frame cache: whatever it returns, the cache after the call is
    the cache before it. *)
Theorem only_overview_writes_cache (host : Host) (W : World) (call : ToolCall)
    (s : ProcState) :
  isOverviewCall call = false ->
  frameCache (callTool W call s).2 = frameCache s.
Proof.
  intros H. unfold callTool.
  apply keepsCache_tryCatch; [now apply keepsCache_dispatch|].
  intros msg. apply keepsCache_ret.
Qed.

Lemma only_overview_writes_cache_witness :
  frameCache
    (callTool (host := sampleHost) (sampleWorld true)
       (GetFrame "/v.mp4" (ofZ 5) None None None) emptyState).2
  = frameCache emptyState.
Proof.
  apply (only_overview_writes_cache sampleHost (sampleWorld true)
           (GetFrame "/v.mp4" (ofZ 5) None None None) emptyState).
  reflexivity.
Defined.

(** X12 ([get_video_overview] and the cache): after a successful overview the
    cache holds, under the path, exactly the references of the response, and
    the entries of all other paths are as before; after a failed one (file
    missing, probe failing) the cache is unchanged. *)
Theorem get_video_overview_cache (host : Host) (W : World)
    (videoPath : string) (n : option number) (s : ProcState) :
  let run := callTool W (GetVideoOverview videoPath n) s in
  match run.1 with
  | Ok (ROverview _ _ _ frames _) =>
      frameCache run.2 !! videoPath = Some frames
      /\ forall other, other <> videoPath ->
           frameCache run.2 !! other = frameCache s !! other
  | _ => frameCache run.2 = frameCache s
  end.
Proof.
  intros run.
  assert (Hrun : exists r s',
             run = (r, s')
             /\ match r with
                | Ok (ROverview _ _ _ frames _) =>
                    frameCache s' = <[videoPath := frames]> (frameCache s)
                | _ => frameCache s' = frameCache s
                end).
  { unfold run, callTool, tryCatch, dispatch. cbv zeta.
    unfold bind at 1. unfold checkFile, bind at 1. unfold emit at 1, ret at 1.
    destruct (fsAccess W videoPath); cbn [negb];
      [|do 2 eexists; split; reflexivity].
    unfold bind, getVideoOverview, bind.
    destruct (getMetadata_cases W videoPath) as [[md E]|[msg E]]; rewrite E;
      [|do 2 eexists; split; reflexivity].
    destruct (getMetadataSummary_cases W videoPath) as [[sm E']|[msg E']];
      rewrite E'; [|do 2 eexists; split; reflexivity].
    destruct (planFrames md _) as [frames|];
      do 2 eexists; split; reflexivity. }
  destruct Hrun as (r & s' & -> & Hr). cbn [fst snd].
  destruct r as [[]| |]; try exact Hr.
  rewrite Hr. split; [apply lookup_insert_eq|].
  intros other Hne. now apply lookup_insert_ne.
Qed.

(** ** The envelope of the handlers *)

(** X13 (every tool): when [fs.access] fails on the path of the call, the
    tool answers "File not found: <path>" as an ordinary failure (not an
    error of the protocol), and [fs.access] is the only thing it has done:
    no probe, no decoder, no temporary file. *)
Theorem missing_file_rejected (host : Host) (W : World) (call : ToolCall)
    (p : string) (s : ProcState) :
  videoPathOf call = Some p ->
  fsAccess W p = false ->
  exists hint,
    callTool W call s
    = (Ok (RFailure ("File not found: " +:+ p) hint false),
       addEvents s [EvAccess p]).
Proof.
  intros Hp Hacc.
  destruct call; simpl in Hp; try discriminate; injection Hp as ->;
    unfold callTool, tryCatch, dispatch; cbv zeta;
    unfold bind at 1; unfold checkFile, bind at 1; unfold emit at 1, ret at 1;
    rewrite Hacc; cbn [negb]; eexists; reflexivity.
Qed.

Lemma missing_file_rejected_witness :
  exists hint,
    callTool (host := sampleHost)
      {| now := 0; fsAccess := fun _ => false; fsStat := fun _ => None;
         fsMkdir := fun _ => None; ffprobe := fun _ => inl "no such file";
         ffmpegFrame := fun _ _ _ => FfError "no such file";
         ffmpegAudio := fun _ _ _ => Some "no such file";
         sharpMetadata := fun _ => inl "no input";
         sharpEncode := fun _ _ _ _ => inl "no input";
         schedule := fun _ => 0%nat |}
      (AnalyzeVideoFull "/gone.mp4" None None None) emptyState
    = (Ok (RFailure ("File not found: " +:+ "/gone.mp4") hint false),
       addEvents emptyState [EvAccess "/gone.mp4"]).
Proof.
  apply (missing_file_rejected sampleHost _ (AnalyzeVideoFull "/gone.mp4" None None None)
           "/gone.mp4" emptyState); reflexivity.
Defined.

Lemma extractLoop_unfold (fuel : nat) (total : number)
    (body : nat -> M VideoFrame) (i : nat) :
  extractLoop (S fuel) total body i
  = if (ofNat i <? total)%js
    then bind (body i)
           (fun f => bind (extractLoop fuel total body (S i))
                       (fun fs => ret (f :: fs)))
    else ret [].
Proof. reflexivity. Qed.

Lemma returns_diverge_free_loop (body : nat -> M VideoFrame) (q : Q) :
  (forall i, returns (body i)) ->
  forall fuel i, (Z.to_nat (Qceiling q) <= i + fuel)%nat ->
  returns (extractLoop (S fuel) (Num q) body i).
Proof.
  intros Hb. induction fuel as [|fuel IH]; intros i Hi;
    rewrite extractLoop_unfold;
    destruct (ofNat i <? Num q)%js eqn:T; try apply returns_ret.
  - apply nlt_Num in T. apply Qlt_not_le in T. destruct T.
    apply ofNat_ge_ceiling. lia.
  - apply returns_bind; [apply Hb|intros f].
    apply returns_bind; [|intros fs; apply returns_ret].
    apply (IH (S i)).
    destruct (le_lt_dec (Z.to_nat (Qceiling q)) i) as [Hle|Hlt]; [|lia].
    apply nlt_Num in T. apply Qlt_not_le in T. destruct T.
    now apply ofNat_ge_ceiling.
Qed.

Lemma returns_extractLoop (total : number) (body : nat -> M VideoFrame) :
  total <> Infinity -> (forall i, returns (body i)) ->
  returns (extractLoop (extractFuel total) total body 0).
Proof.
  intros Hinf Hb. destruct total as [| |q|]; try easy;
    try (unfold extractFuel; rewrite extractLoop_unfold; apply returns_ret).
  apply returns_diverge_free_loop; [exact Hb|lia].
Qed.

Lemma nmin_not_Infinity (a b : number) : a <> Infinity -> nmin a b <> Infinity.
Proof.
  destruct a as [| |x|], b as [| |y|]; simpl; try easy.
  now destruct (y ?= x)%Q.
Qed.

Lemma nmin_15_not_Infinity (a : number) : nmin a (ofZ 15) <> Infinity.
Proof.
  destruct a as [| |x|]; simpl; try easy.
  now destruct (inject_Z 15 ?= x)%Q.
Qed.

Section ReturnsMore.
Context `{host : Host} (W : World).

Lemma returns_extractFrameAt p dir iv mw f q i :
  returns (extractFrameAt W p dir iv mw f q i).
Proof. unfold extractFrameAt. returns_auto. Qed.

Lemma returns_extractFrames p options :
  default (ofZ 10) (feMaxFrames options) <> Infinity ->
  returns (extractFrames W p options).
Proof.
  intros H. unfold extractFrames. returns_auto.
  apply returns_extractLoop; [now apply nmin_not_Infinity|].
  intros i. apply returns_extractFrameAt.
Qed.

Lemma returns_extractAudio p options : returns (extractAudio W p options).
Proof. unfold extractAudio. returns_auto. Qed.

Lemma returns_analyzeVideo p ef mf ea fi :
  mf <> Infinity -> returns (analyzeVideo W p ef (Some mf) ea fi).
Proof.
  intros H. unfold analyzeVideo. returns_auto.
  - now apply returns_extractFrames.
  - apply returns_extractAudio.
Qed.

Lemma returns_estimateTokens p n : returns (estimateTokens W p n).
Proof. unfold estimateTokens. returns_auto. Qed.

Lemma returns_dispatch (call : ToolCall) : returns (dispatch W call).
Proof.
  destruct call; unfold dispatch; returns_auto.
  - apply returns_estimateTokens.
  - intros s0.
    lazymatch goal with
    | |- (promiseAll W _
            (map (fun ts => extractSingleFrameTask W ?p ts ?mw ?f ?q) ?l)
            s0).1 <> _ =>
        pose proof (promiseAll_fetches W p mw f q l s0) as [_ H]
    end.
    cbv zeta in H. intros E. now rewrite E in H.
  - apply returns_extractAudio.
  - apply returns_estimateTokens.
  - apply returns_analyzeVideo, nmin_15_not_Infinity.
Qed.

End ReturnsMore.

(** X14 (the request handler): every call is answered with a response.  No
    exception escapes the handler (a thrown error becomes a failure response
    flagged isError), and no call loops for ever: the cap of 15 frames bounds
    the one loop whose length the caller controls. *)
Theorem callTool_always_answers (host : Host) (W : World) (call : ToolCall)
    (s : ProcState) :
  exists response, resultOf (callTool W call) s = Ok response.
Proof.
  unfold resultOf, callTool, tryCatch.
  assert (H := returns_dispatch W call s).
  destruct (dispatch W call s) as [[r|msg|] s']; simpl in *;
    [now eexists|now eexists|easy].
Qed.

(** ** The cap of the full analysis *)

Lemma nlt_nmin (a b c : number) :
  (a <? nmin b c)%js = true -> (a <? b)%js = true /\ (a <? c)%js = true.
Proof.
  destruct b as [| |y|], c as [| |z|]; simpl;
    try (destruct a; simpl; intros; (discriminate || now split)).
  destruct (z ?= y)%Q eqn:C; destruct a as [| |x|]; simpl;
    try (intros; (discriminate || now split)).
  - intros H. split; [exact H|].
    change ((Num x <? Num z)%js = true). apply nlt_Num.
    change ((Num x <? Num y)%js = true) in H. apply nlt_Num in H.
    apply Qeq_alt in C. now rewrite C.
  - apply Qlt_alt in C. intros H. split; [|exact H].
    change ((Num x <? Num y)%js = true). apply nlt_Num.
    change ((Num x <? Num z)%js = true) in H. apply nlt_Num in H.
    now apply Qlt_trans with z.
  - intros H. split; [exact H|].
    change ((Num x <? Num z)%js = true). apply nlt_Num.
    change ((Num x <? Num y)%js = true) in H. apply nlt_Num in H.
    apply Qgt_alt in C. now apply Qlt_trans with y.
Qed.

Lemma ofNat_lt_15 (k : nat) : (ofNat k <? ofZ 15)%js = true -> (k < 15)%nat.
Proof.
  unfold ofNat, ofZ. intros H. apply nlt_Num in H. rewrite <- Zlt_Qlt in H. lia.
Qed.

Lemma bind_Ok_inv {A B : Type} (m : M A) (k : A -> M B) (s : ProcState) (b : B) :
  (bind m k s).1 = Ok b ->
  exists a s', m s = (Ok a, s') /\ (k a s').1 = Ok b.
Proof.
  unfold bind. destruct (m s) as [[a|msg|] s']; simpl; try discriminate.
  intros H. now exists a, s'.
Qed.

Lemma tryFinally_Ok_inv {A : Type} (body : M A) (fin : M unit)
    (s : ProcState) (a : A) :
  (tryFinally body fin s).1 = Ok a -> (body s).1 = Ok a.
Proof.
  unfold tryFinally. destruct (body s) as [[a'|msg|] s']; simpl;
    try discriminate; destruct (fin s') as [[[]|msg'|] s'']; simpl;
    try discriminate; auto.
Qed.

Lemma extractLoop_Ok_bound (total : number) (body : nat -> M VideoFrame) :
  forall fuel i s frames,
    (extractLoop fuel total body i s).1 = Ok frames ->
    forall k, (k < length frames)%nat -> (ofNat (i + k) <? total)%js = true.
Proof.
  induction fuel as [|fuel IH]; intros i s frames; [discriminate|].
  rewrite extractLoop_unfold. destruct (ofNat i <? total)%js eqn:T.
  - intros H. apply bind_Ok_inv in H. destruct H as (f & s1 & _ & H).
    apply bind_Ok_inv in H. destruct H as (fs & s2 & E & H).
    injection H as <-. intros [|k] Hk.
    + now rewrite Nat.add_0_r.
    + replace (i + S k)%nat with (S i + k)%nat by lia.
      eapply (IH (S i) s1 fs); [now rewrite E|]. simpl in Hk. lia.
  - intros [= <-] k Hk. simpl in Hk. lia.
Qed.

Section Cap.
Context `{host : Host} (W : World).

Lemma extractFrames_Ok_bound p options s frames :
  (extractFrames W p options s).1 = Ok frames ->
  forall k, (k < length frames)%nat ->
    (ofNat k <? default (ofZ 10) (feMaxFrames options))%js = true.
Proof.
  unfold extractFrames. cbv zeta. intros H.
  apply bind_Ok_inv in H. destruct H as ([] & s1 & _ & H).
  apply bind_Ok_inv in H. destruct H as ([] & s2 & _ & H).
  destruct (fsMkdir W _); [discriminate|].
  apply bind_Ok_inv in H. destruct H as (md & s3 & _ & H).
  apply tryFinally_Ok_inv in H. intros k Hk.
  apply (extractLoop_Ok_bound _ _ _ _ _ _ H) in Hk. cbn [Nat.add] in Hk.
  now apply nlt_nmin in Hk.
Qed.

Lemma analyzeVideo_Ok_bound p ef mf ea fi s va :
  (analyzeVideo W p ef (Some mf) ea fi s).1 = Ok va ->
  forall k, (k < length (vaFrames va))%nat -> (ofNat k <? mf)%js = true.
Proof.
  unfold analyzeVideo. cbv zeta. intros H.
  apply bind_Ok_inv in H. destruct H as (md & s1 & _ & H).
  apply bind_Ok_inv in H. destruct H as (frames & s2 & E & H).
  apply bind_Ok_inv in H. destruct H as (ap & s3 & _ & H).
  injection H as <-. cbn [vaFrames]. intros k Hk.
  destruct (default true ef).
  - apply (extractFrames_Ok_bound p _ s1 frames (f_equal fst E)) in Hk.
    exact Hk.
  - injection E as <- _. simpl in Hk. lia.
Qed.

End Cap.

Lemma quiet_ret {A : Type} (a : A) : decodesAtMost 0 (ret a).
Proof. intros s. exists []. simpl. now rewrite app_nil_r. Qed.

Lemma quiet_throw {A : Type} (msg : string) :
  decodesAtMost 0 (throw (A := A) msg).
Proof. intros s. exists []. simpl. now rewrite app_nil_r. Qed.

Lemma quiet_diverge {A : Type} : decodesAtMost 0 (diverge (A := A)).
Proof. intros s. exists []. simpl. now rewrite app_nil_r. Qed.

Lemma quiet_emit (e : Event) :
  decodedTimestamps [e] = [] -> decodesAtMost 0 (emit e).
Proof.
  intros H s. exists [e]. split; [reflexivity|]. rewrite H. simpl. lia.
Qed.

Lemma decodesAtMost_emit (e : Event) : decodesAtMost 1 (emit e).
Proof. intros s. exists [e]. split; [reflexivity|]. destruct e; simpl; lia. Qed.

Lemma decodesAtMost_weaken {A : Type} (a b : nat) (m : M A) :
  (a <= b)%nat -> decodesAtMost a m -> decodesAtMost b m.
Proof.
  intros Hab Hm s. destruct (Hm s) as (evs & Ht & Hl). exists evs.
  split; [exact Ht|lia].
Qed.

Lemma decodesAtMost_bind {A B : Type} (a b : nat) (m : M A) (k : A -> M B) :
  decodesAtMost a m -> (forall x, decodesAtMost b (k x)) ->
  decodesAtMost (a + b) (bind m k).
Proof.
  intros Hm Hk s. unfold bind. destruct (Hm s) as (evs & Ht & Hl).
  destruct (m s) as [[x|msg|] s']; simpl in *.
  - destruct (Hk x s') as (evs' & Ht' & Hl'). exists (evs ++ evs')%list.
    rewrite Ht', Ht, app_assoc, decodedTimestamps_app, length_app.
    split; [reflexivity|lia].
  - exists evs. split; [exact Ht|lia].
  - exists evs. split; [exact Ht|lia].
Qed.

Lemma decodesAtMost_tryFinally {A : Type} (a : nat) (body : M A)
    (fin : M unit) :
  decodesAtMost a body -> decodesAtMost 0 fin ->
  decodesAtMost a (tryFinally body fin).
Proof.
  intros Hb Hf s. unfold tryFinally. destruct (Hb s) as (evs & Ht & Hl).
  destruct (body s) as [[x|msg|] s']; simpl in *;
    [| |exists evs; now split];
    destruct (Hf s') as (evs' & Ht' & Hl');
    destruct (fin s') as [[[]|msg'|] s'']; simpl in *;
    exists (evs ++ evs')%list;
    rewrite Ht', Ht, app_assoc, decodedTimestamps_app, length_app;
    (split; [reflexivity|lia]).
Qed.

Lemma decodesAtMost_tryCatch {A : Type} (a b : nat) (body : M A)
    (handler : string -> M A) :
  decodesAtMost a body -> (forall msg, decodesAtMost b (handler msg)) ->
  decodesAtMost (a + b) (tryCatch body handler).
Proof.
  intros Hb Hh s. unfold tryCatch. destruct (Hb s) as (evs & Ht & Hl).
  destruct (body s) as [[x|msg|] s']; simpl in *.
  - exists evs. split; [exact Ht|lia].
  - destruct (Hh msg s') as (evs' & Ht' & Hl'). exists (evs ++ evs')%list.
    rewrite Ht', Ht, app_assoc, decodedTimestamps_app, length_app.
    split; [reflexivity|lia].
  - exists evs. split; [exact Ht|lia].
Qed.

Lemma quiet_bind {A B : Type} (m : M A) (k : A -> M B) :
  decodesAtMost 0 m -> (forall x, decodesAtMost 0 (k x)) ->
  decodesAtMost 0 (bind m k).
Proof. intros Hm Hk. now apply (decodesAtMost_bind 0 0). Qed.

Lemma quiet_tryCatch {A : Type} (body : M A) (handler : string -> M A) :
  decodesAtMost 0 body -> (forall msg, decodesAtMost 0 (handler msg)) ->
  decodesAtMost 0 (tryCatch body handler).
Proof. intros Hb Hh. now apply (decodesAtMost_tryCatch 0 0). Qed.

Ltac quiet_step :=
  lazymatch goal with
  | |- decodesAtMost 0 (bind _ _) => apply quiet_bind; [|intros ?]
  | |- decodesAtMost 0 (ret _) => apply quiet_ret
  | |- decodesAtMost 0 (throw _) => apply quiet_throw
  | |- decodesAtMost 0 diverge => apply quiet_diverge
  | |- decodesAtMost 0 (emit _) => apply quiet_emit; reflexivity
  | |- decodesAtMost 0 (tryFinally _ _) => apply decodesAtMost_tryFinally
  | |- decodesAtMost 0 (tryCatch _ _) => apply quiet_tryCatch; [|intros ?]
  | |- decodesAtMost 0 (match ?x with _ => _ end) => destruct x
  end.

Create HintDb quiet.

Ltac quiet_auto := cbv zeta; repeat (quiet_step; cbv zeta); eauto with quiet.

(** The loop runs the decoder once per iteration, and makes no iteration
    from [bound] on. *)
Lemma decodesAtMost_extractLoop (total : number) (body : nat -> M VideoFrame)
    (bound : nat) :
  (forall i, decodesAtMost 1 (body i)) ->
  (forall j, (bound <= j)%nat -> (ofNat j <? total)%js = false) ->
  forall fuel i, decodesAtMost (bound - i) (extractLoop fuel total body i).
Proof.
  intros Hb Hbound. induction fuel as [|fuel IH]; intros i.
  - apply (decodesAtMost_weaken 0); [lia|apply quiet_diverge].
  - rewrite extractLoop_unfold. destruct (ofNat i <? total)%js eqn:T.
    + assert (Hi : (i < bound)%nat).
      { destruct (le_lt_dec bound i) as [Hle|Hlt]; [|exact Hlt].
        rewrite (Hbound i Hle) in T. discriminate. }
      apply (decodesAtMost_weaken (1 + (bound - S i + 0))); [lia|].
      apply decodesAtMost_bind; [apply Hb|intros f].
      apply decodesAtMost_bind; [apply IH|intros fs; apply quiet_ret].
    + apply (decodesAtMost_weaken 0); [lia|apply quiet_ret].
Qed.

Section Quiet.
Context `{host : Host} (W : World).

Lemma quiet_getMetadata p : decodesAtMost 0 (getMetadata W p).
Proof. unfold getMetadata. quiet_auto. Qed.

Hint Resolve quiet_getMetadata : quiet.

Lemma quiet_getMetadataSummary p : decodesAtMost 0 (getMetadataSummary W p).
Proof. unfold getMetadataSummary. quiet_auto. Qed.

Lemma quiet_checkFile p : decodesAtMost 0 (checkFile W p).
Proof. unfold checkFile. quiet_auto. Qed.

Lemma quiet_ensureTempDir : decodesAtMost 0 (ensureTempDir W).
Proof. unfold ensureTempDir. quiet_auto. Qed.

Lemma quiet_sharpMeta b : decodesAtMost 0 (sharpMeta W b).
Proof. unfold sharpMeta. quiet_auto. Qed.

Lemma quiet_sharpConvert b m mw f q : decodesAtMost 0 (sharpConvert W b m mw f q).
Proof. unfold sharpConvert. quiet_auto. Qed.

Lemma quiet_extractAudio p options : decodesAtMost 0 (extractAudio W p options).
Proof. unfold extractAudio, ensureTempDir. quiet_auto. Qed.

Lemma quiet_estimateTokens p n : decodesAtMost 0 (estimateTokens W p n).
Proof. unfold estimateTokens. quiet_auto. Qed.

Hint Resolve quiet_getMetadataSummary quiet_checkFile quiet_ensureTempDir
  quiet_sharpMeta quiet_sharpConvert quiet_extractAudio quiet_estimateTokens
  : quiet.

Lemma decodesAtMost_decodeFrameTo p ts out :
  decodesAtMost 1 (decodeFrameTo W p ts out).
Proof.
  unfold decodeFrameTo. apply (decodesAtMost_bind 1 0);
    [apply decodesAtMost_emit|intros _]. quiet_auto.
Qed.

Lemma decodesAtMost_extractFrameAt p dir iv mw f q i :
  decodesAtMost 1 (extractFrameAt W p dir iv mw f q i).
Proof.
  unfold extractFrameAt. cbv zeta. apply (decodesAtMost_bind 1 0);
    [apply decodesAtMost_decodeFrameTo|intros buffer]. quiet_auto.
Qed.

Lemma decodesAtMost_extractFrames p options (bound : nat) :
  (forall j, (bound <= j)%nat ->
     (ofNat j <? default (ofZ 10) (feMaxFrames options))%js = false) ->
  decodesAtMost bound (extractFrames W p options).
Proof.
  intros Hbound. unfold extractFrames. cbv zeta.
  apply (decodesAtMost_bind 0 bound); [apply quiet_ensureTempDir|intros _].
  apply (decodesAtMost_bind 0 bound); [now apply quiet_emit|intros _].
  destruct (fsMkdir W _);
    [apply (decodesAtMost_weaken 0); [lia|apply quiet_throw]|].
  apply (decodesAtMost_bind 0 bound); [apply quiet_getMetadata|intros md].
  apply decodesAtMost_tryFinally; [|now apply quiet_emit].
  apply (decodesAtMost_weaken (bound - 0)); [lia|].
  apply decodesAtMost_extractLoop.
  - intros i. apply decodesAtMost_extractFrameAt.
  - intros j Hj. specialize (Hbound j Hj).
    destruct (ofNat j <? nmin _ _)%js eqn:T; [|reflexivity].
    apply nlt_nmin in T. destruct T as [T _]. congruence.
Qed.

Lemma decodesAtMost_analyzeVideo p ef mf ea fi (bound : nat) :
  (forall j, (bound <= j)%nat -> (ofNat j <? mf)%js = false) ->
  decodesAtMost bound (analyzeVideo W p ef (Some mf) ea fi).
Proof.
  intros Hbound. unfold analyzeVideo. cbv zeta.
  apply (decodesAtMost_bind 0 bound); [apply quiet_getMetadata|intros md].
  apply (decodesAtMost_weaken (bound + 0)); [lia|].
  apply decodesAtMost_bind.
  - destruct (default true ef).
    + now apply decodesAtMost_extractFrames.
    + apply (decodesAtMost_weaken 0); [lia|apply quiet_ret].
  - intros frames. quiet_auto.
Qed.

End Quiet.

Lemma nlt_nmin_15 (mf : number) (j : nat) :
  (15 <= j)%nat -> (ofNat j <? nmin mf (ofZ 15))%js = false.
Proof.
  intros Hj. destruct (ofNat j <? nmin mf (ofZ 15))%js eqn:T; [|reflexivity].
  apply nlt_nmin in T. destruct T as [_ T]. apply ofNat_lt_15 in T. lia.
Qed.

(** X15 ([analyze_video_full]): whatever maxFrames and frameInterval the
    caller asks for, one call runs the frame decoder at most 15 times, on
    every path, and a successful response carries at most 15 frames. *)
Theorem analyze_video_full_cap (host : Host) (W : World) (videoPath : string)
    (maxFrames : option number) (extractAudioFlag : option bool)
    (frameInterval : option number) (s : ProcState) :
  let run :=
    callTool W
      (AnalyzeVideoFull videoPath maxFrames extractAudioFlag frameInterval) s in
  (exists evs,
      trace run.2 = (trace s ++ evs)%list
      /\ (length (decodedTimestamps evs) <= 15)%nat)
  /\ match run.1 with
     | Ok (RFull _ _ _ _ _ frames _) => (length frames <= 15)%nat
     | _ => True
     end.
Proof.
  intros run. split.
  - assert (H : decodesAtMost 15
                  (callTool W (AnalyzeVideoFull videoPath maxFrames
                                 extractAudioFlag frameInterval))).
    { unfold callTool. apply (decodesAtMost_tryCatch 15 0);
        [|intros msg; apply quiet_ret].
      unfold dispatch. cbv zeta.
      apply (decodesAtMost_bind 0 15); [apply quiet_checkFile|intros found].
      destruct (negb found);
        [apply (decodesAtMost_weaken 0); [lia|apply quiet_ret]|].
      apply (decodesAtMost_bind 0 15); [apply quiet_estimateTokens|intros est].
      apply (decodesAtMost_bind 15 0).
      - apply decodesAtMost_analyzeVideo. intros j. apply nlt_nmin_15.
      - intros va. apply quiet_bind; [apply quiet_getMetadataSummary|].
        intros sm. apply quiet_ret. }
    exact (H s).
  - unfold run, callTool, tryCatch.
    destruct (dispatch W _ s) as [[r|msg|] s'] eqn:E; cbn [fst snd];
      [|exact I|exact I].
    destruct r; try exact I.
    apply (f_equal fst) in E. cbn [fst] in E. unfold dispatch in E.
    apply bind_Ok_inv in E. destruct E as (found & s1 & _ & E).
    destruct (negb found); [discriminate|].
    apply bind_Ok_inv in E. destruct E as (est & s2 & _ & E).
    apply bind_Ok_inv in E. destruct E as (va & s3 & Eva & E).
    apply bind_Ok_inv in E. destruct E as (sm & s4 & _ & E).
    injection E as _ _ _ _ _ <- _.
    destruct (le_lt_dec (length (vaFrames va)) 15) as [Hle|Hlt]; [exact Hle|].
    apply (analyzeVideo_Ok_bound W _ _ _ _ _ _ _ (f_equal fst Eva)) in Hlt.
    rewrite nlt_nmin_15 in Hlt by lia. discriminate.
Qed.

(** ** Temporary files *)

(** X16 ([extractSingleFrame]): on every path, success or failure, the
    decoder is told to write to the one temporary frame file and the last
    thing the method does is to remove that file; a frame it returns has
    index 0, the requested timestamp, the MIME type of the requested format
    (jpeg when none is given) and, as its estimate, the estimate over the
    length of its base64 payload, a non-negative integer. *)
Theorem extractSingleFrame_cleans_up (host : Host) (W : World)
    (videoPath : string) (ts : number) (maxWidth : option number)
    (fmt : option ImageFormat) (quality : option number) (s : ProcState) :
  let run := extractSingleFrame W videoPath ts maxWidth fmt quality s in
  let framePath := singleFramePath W (default jpeg fmt) in
  (exists evs,
      trace run.2 = (trace s ++ evs)%list
      /\ EvFfmpegFrame videoPath ts framePath ∈ evs
      /\ last evs = Some (EvRm framePath))
  /\ match run.1 with
     | Ok frame =>
         index (frameRef frame) = 0%nat
         /\ timestamp (frameRef frame) = ts
         /\ mimeType frame = mimeOf (default jpeg fmt)
         /\ estimatedTokens (frameRef frame)
            = estimateBase64Tokens (ofNat (String.length (base64 frame)))
         /\ isNonNegInteger (estimatedTokens (frameRef frame)) = true
     | Throw _ => True
     | Diverge => False
     end.
Proof.
  intros run framePath.
  destruct (blind_run _ _
              (blind_extractSingleFrame W videoPath ts maxWidth fmt quality) s)
    as (Hr & Ht & _).
  unfold resultOf in Hr. fold run in Hr, Ht. rewrite Hr.
  split.
  - eexists. split; [exact Ht|]. clear.
    unfold eventsOf, extractSingleFrame, ensureTempDir, decodeFrameTo,
      sharpMeta, sharpConvert.
    unfold tryFinally, bind, emit, ret, throw.
    cbv zeta. cbn [trace frameCache fst snd app].
    repeat (match goal with
            | |- context [fsMkdir W ?a] => destruct (fsMkdir W a)
            | |- context [ffmpegFrame W ?a ?b ?c] =>
                destruct (ffmpegFrame W a b c) as [?|[?|]]
            | |- context [sharpMetadata W ?a] => destruct (sharpMetadata W a)
            | |- context [sharpEncode W ?a ?b ?c ?d] =>
                destruct (sharpEncode W a b c d)
            end; cbn [trace frameCache fst snd app]);
      subst framePath; unfold singleFramePath;
      (split; [repeat first [apply list_elem_of_here
                            | apply list_elem_of_further]
              | reflexivity]).
  - clear. unfold emptyState, extractSingleFrame, ensureTempDir, decodeFrameTo,
      sharpMeta, sharpConvert.
    unfold tryFinally, bind, emit, ret, throw.
    cbv zeta. cbn [trace frameCache fst snd app].
    repeat (match goal with
            | |- context [fsMkdir W ?a] => destruct (fsMkdir W a)
            | |- context [ffmpegFrame W ?a ?b ?c] =>
                destruct (ffmpegFrame W a b c) as [?|[?|]]
            | |- context [sharpMetadata W ?a] => destruct (sharpMetadata W a)
            | |- context [sharpEncode W ?a ?b ?c ?d] =>
                destruct (sharpEncode W a b c d)
            end; cbn [trace frameCache fst snd app]);
      try exact I;
      cbn [frameRef index timestamp mimeType estimatedTokens base64];
      repeat split; apply estimateBase64Tokens_nonneg.
Qed.

Lemma tryFinally_emit_trace {A : Type} (body : M A) (e : Event)
    (s : ProcState) :
  (body s).1 <> Diverge ->
  trace (tryFinally body (emit e) s).2 = (trace (body s).2 ++ [e])%list.
Proof.
  unfold tryFinally, emit. destruct (body s) as [[a|msg|] s']; simpl; easy.
Qed.

Section FramesDir.
Context `{host : Host} (W : World).

(** X17 ([extractFrames]): once the frame directory is made and the file is
    probed, the directory is removed whatever happens in the loop: the
    removal is the last thing the method does, after a full run as after a
    failing decode. *)
Theorem extractFrames_cleans_up (videoPath : string)
    (options : FrameExtractionOptions) (md : VideoMetadata) (s : ProcState) :
  fsMkdir W (framesDir W) = None ->
  resultOf (getMetadata W videoPath) s = Ok md ->
  default (ofZ 10) (feMaxFrames options) <> Infinity ->
  exists evs,
    trace (extractFrames W videoPath options s).2
    = (trace s ++ evs ++ [EvRm (framesDir W)])%list.
Proof.
  intros Hmk Hmd Hinf. unfold extractFrames. cbv zeta.
  fold (framesDir W). unfold bind at 1.
  destruct (ensureTempDir_run W) as [evs0 E0]. rewrite E0.
  unfold bind at 1, emit at 1. rewrite Hmk. unfold bind at 1.
  destruct (getMetadata_cases W videoPath) as [[md' E]|[msg E]];
    unfold resultOf in Hmd; rewrite E in Hmd |- *; [|discriminate].
  injection Hmd as ->.
  match goal with
  | |- context [tryFinally ?b (emit ?e) ?st] =>
      set (body := b); set (st0 := st)
  end.
  assert (Hret : (body st0).1 <> Diverge).
  { apply returns_extractLoop; [now apply nmin_not_Infinity|].
    intros i. apply returns_extractFrameAt. }
  rewrite (tryFinally_emit_trace body _ st0 Hret).
  assert (Hb : blind anyEvent body)
    by (apply blind_extractLoop; intros i; apply blind_extractFrameAt).
  destruct (blind_run _ _ Hb st0) as (_ & Ht & _). rewrite Ht.
  unfold st0, addEvents. cbn [trace].
  exists (evs0 ++ [EvMkdir (framesDir W)]
          ++ [EvProbe videoPath; EvStat videoPath] ++ eventsOf body ∅)%list.
  rewrite <- !app_assoc. reflexivity.
Qed.

End FramesDir.

Lemma extractFrames_cleans_up_witness :
  exists evs,
    trace (extractFrames (host := sampleHost) (sampleWorld false) "/v.mp4"
             {| feMaxFrames := Some (ofZ 3); feInterval := None;
                feMaxWidth := None; feOutputFormat := None;
                feJpegQuality := None |} emptyState).2
    = (trace emptyState ++ evs
       ++ [EvRm (framesDir (host := sampleHost) (sampleWorld false))])%list.
Proof.
  apply (extractFrames_cleans_up (host := sampleHost) (sampleWorld false)
           "/v.mp4" _
           (match resultOf (getMetadata (host := sampleHost) (sampleWorld false)
                              "/v.mp4") emptyState with
            | Ok md => md
            | _ => sampleMetadata 0 0 0
            end) emptyState);
    [reflexivity | vm_compute; reflexivity | discriminate].
Defined.

(** X18 ([extractFrames]): the probe runs after the frame directory is made
    and before the [try]; when it fails, the method throws the probe's error
    and the directory it has just made is left behind: nothing is removed. *)
Theorem extractFrames_leaves_dir_on_probe_failure (host : Host) (W : World)
    (videoPath : string) (options : FrameExtractionOptions) (msg : string)
    (s : ProcState) :
  fsMkdir W (framesDir W) = None ->
  resultOf (getMetadata W videoPath) s = Throw msg ->
  exists evs,
    extractFrames W videoPath options s = (Throw msg, addEvents s evs)
    /\ EvMkdir (framesDir W) ∈ evs
    /\ Forall (fun e => isRemoval e = false) evs.
Proof.
  intros Hmk Hmd. unfold extractFrames. cbv zeta.
  fold (framesDir W). unfold bind at 1.
  destruct (ensureTempDir_run W) as [evs0 E0].
  assert (Hq : Forall (fun e => isRemoval e = false) evs0).
  { specialize (E0 emptyState). revert E0.
    unfold ensureTempDir, bind, emit, ret, emptyState, addEvents.
    destruct (fsMkdir W tempDir); cbn [trace frameCache app];
      intros [= <-]; now repeat constructor. }
  rewrite E0. unfold bind at 1, emit at 1. rewrite Hmk. unfold bind at 1.
  destruct (getMetadata_cases W videoPath) as [[md' E]|[msg' E]];
    unfold resultOf in Hmd; rewrite E in Hmd |- *; [discriminate|].
  injection Hmd as ->.
  exists (evs0 ++ [EvMkdir (framesDir W); EvProbe videoPath])%list.
  split; [|split].
  - unfold addEvents. cbn [trace frameCache]. now rewrite <- !app_assoc.
  - apply elem_of_app. right. apply list_elem_of_here.
  - apply Forall_app. split; [exact Hq|now repeat constructor].
Qed.

Lemma extractFrames_leaves_dir_on_probe_failure_witness :
  exists evs,
    extractFrames (host := sampleHost)
      {| now := 0; fsAccess := fun _ => true; fsStat := fun _ => None;
         fsMkdir := fun _ => None; ffprobe := fun _ => inl "moov atom not found";
         ffmpegFrame := fun _ _ _ => FfError "invalid data";
         ffmpegAudio := fun _ _ _ => Some "invalid data";
         sharpMetadata := fun _ => inl "no input";
         sharpEncode := fun _ _ _ _ => inl "no input";
         schedule := fun _ => 0%nat |}
      "/broken.mp4"
      {| feMaxFrames := None; feInterval := None; feMaxWidth := None;
         feOutputFormat := None; feJpegQuality := None |} emptyState
    = (Throw "Failed to read video metadata: moov atom not found",
       addEvents emptyState evs)
    /\ Forall (fun e => isRemoval e = false) evs.
Proof.
  destruct (extractFrames_leaves_dir_on_probe_failure sampleHost
              {| now := 0; fsAccess := fun _ => true; fsStat := fun _ => None;
                 fsMkdir := fun _ => None;
                 ffprobe := fun _ => inl "moov atom not found";
                 ffmpegFrame := fun _ _ _ => FfError "invalid data";
                 ffmpegAudio := fun _ _ _ => Some "invalid data";
                 sharpMetadata := fun _ => inl "no input";
                 sharpEncode := fun _ _ _ _ => inl "no input";
         schedule := fun _ => 0%nat |}
              "/broken.mp4"
              {| feMaxFrames := None; feInterval := None; feMaxWidth := None;
                 feOutputFormat := None; feJpegQuality := None |}
              "Failed to read video metadata: moov atom not found" emptyState
              eq_refl eq_refl) as (evs & E & _ & H).
  now exists evs.
Defined.

(** ** Audio options, the full analysis and the cost estimate *)

(** X19 ([extract_audio], [extractAudio]): an [endTime] given without a
    [startTime] is ignored, by the decoder command and by the response alike:
    the call is the call without it (whole track, segment ['full']); and for
    the [wav] format the [bitrate] is ignored. *)
Theorem extract_audio_ignored_options (host : Host) (W : World)
    (videoPath : string) (fmt : option AudioFormat) (br br' : option string)
    (startTime endTime : option number) (s : ProcState) :
  callTool W (ExtractAudio videoPath
                {| aeFormat := fmt; aeBitrate := br;
                   aeStartTime := None; aeEndTime := endTime |}) s
  = callTool W (ExtractAudio videoPath
                  {| aeFormat := fmt; aeBitrate := br;
                     aeStartTime := None; aeEndTime := None |}) s
  /\ callTool W (ExtractAudio videoPath
                   {| aeFormat := Some wav; aeBitrate := br;
                      aeStartTime := startTime; aeEndTime := endTime |}) s
     = callTool W (ExtractAudio videoPath
                     {| aeFormat := Some wav; aeBitrate := br';
                        aeStartTime := startTime; aeEndTime := endTime |}) s.
Proof.
  split.
  - destruct endTime; reflexivity.
  - reflexivity.
Qed.

Section Analysis.
Context `{host : Host} (W : World).

(** X20 ([analyzeVideo]): the audio step cannot make the analysis fail.
    When the probe and the frame extraction succeed, the analysis succeeds
    with their results; its audio path is the extractor's path when audio is
    wanted, the file has a track and the extractor succeeds, and is absent
    otherwise, an extractor failure included. *)
Theorem analyzeVideo_tolerates_audio_failure (videoPath : string)
    (maxFrames : option number) (shouldExtractAudio : option bool)
    (frameInterval : option number) (md : VideoMetadata)
    (frames : list VideoFrame) (s : ProcState) :
  resultOf (getMetadata W videoPath) s = Ok md ->
  resultOf (extractFrames W videoPath
              {| feMaxFrames := Some (default (ofZ 10) maxFrames);
                 feInterval := frameInterval; feMaxWidth := None;
                 feOutputFormat := Some jpeg;
                 feJpegQuality := Some (ofZ 80) |}) s = Ok frames ->
  resultOf (analyzeVideo W videoPath (Some true) maxFrames shouldExtractAudio
              frameInterval) s
  = Ok {| vaMetadata := md;
          vaFrames := frames;
          vaAudioPath :=
            if default true shouldExtractAudio && hasAudio md then
              match resultOf (extractAudio W videoPath noAudioOptions) s with
              | Ok audioPath => Some audioPath
              | _ => None
              end
            else None |}.
Proof.
  intros Hmd Hfr. unfold analyzeVideo. cbv zeta.
  change (default true (Some true)) with true. cbv iota.
  unfold resultOf in *. unfold bind at 1.
  destruct (getMetadata_cases W videoPath) as [[md' E]|[msg E]];
    rewrite E in Hmd |- *; [|discriminate].
  injection Hmd as ->. unfold bind at 1.
  match goal with
  | |- context [extractFrames W videoPath ?o ?st] =>
      set (opts := o) in *; set (s1 := st)
  end.
  destruct (blind_run _ _ (blind_extractFrames W videoPath opts) s) as (R0 & _).
  destruct (blind_run _ _ (blind_extractFrames W videoPath opts) s1) as (R1 & _).
  unfold resultOf in R0, R1. rewrite <- R0, Hfr in R1.
  destruct (extractFrames W videoPath opts s1) as [r s2]. simpl in R1. subst r.
  unfold bind at 1.
  destruct (default true shouldExtractAudio && hasAudio md); [|reflexivity].
  destruct (blind_run _ _ (blind_extractAudio W videoPath noAudioOptions) s)
    as (A0 & _).
  destruct (blind_run _ _ (blind_extractAudio W videoPath noAudioOptions) s2)
    as (A1 & _).
  unfold resultOf in A0, A1. rewrite <- A0 in A1.
  pose proof (returns_extractAudio W videoPath noAudioOptions s2) as Hret.
  unfold tryCatch, bind at 1.
  destruct (extractAudio W videoPath noAudioOptions s2) as [[a|msg|] s3];
    simpl in A1, Hret; rewrite <- A1; [reflexivity|reflexivity|easy].
Qed.

(** X21 ([estimateTokens]): for a probed file of positive integer width and
    non-negative integer height, asking for more frames leaves the per-frame
    estimate as it is, never lowers the total and never drops the warning. *)
Theorem estimateTokens_monotone (videoPath : string) (md : VideoMetadata)
    (w h : Z) (n n' : Q) (s : ProcState) :
  resultOf (getMetadata W videoPath) s = Ok md ->
  width md = ofZ w -> height md = ofZ h ->
  (0 < w)%Z -> (0 <= h)%Z -> (n <= n')%Q ->
  exists e e',
    resultOf (estimateTokens W videoPath (Some (Num n))) s = Ok e
    /\ resultOf (estimateTokens W videoPath (Some (Num n'))) s = Ok e'
    /\ tePerFrame e' = tePerFrame e
    /\ nge (teTotal e') (teTotal e) = true
    /\ (teWarning e <> None -> teWarning e' <> None).
Proof.
  intros Hmd Hw Hh Hwp Hhp Hn. unfold estimateTokens, resultOf in *.
  cbv zeta.
  change (default (ofZ 10) (Some (Num n))) with (Num n).
  change (default (ofZ 10) (Some (Num n'))) with (Num n').
  unfold bind.
  destruct (getMetadata_cases W videoPath) as [[md' E]|[msg E]];
    rewrite E in Hmd |- *; [|discriminate].
  injection Hmd as ->. unfold ret. cbn [fst].
  do 2 eexists. split; [reflexivity|]. split; [reflexivity|].
  cbn [tePerFrame teTotal teWarning]. split; [reflexivity|].
  rewrite Hw, Hh.
  pose proof (estimateFrameTokens_nonneg w h Hwp Hhp) as Ht.
  destruct (estimateFrameTokens (ofZ w) (ofZ h)) as [| |t|]; try discriminate.
  simpl in Ht. apply andb_true_iff in Ht. destruct Ht as [Ht _].
  apply Qle_bool_iff in Ht.
  unfold BASE_METADATA_TOKENS, WARNING_TOKEN_THRESHOLD, ofZ.
  rewrite !nmul_Num. unfold nadd, num.
  assert (Hle : (Qred (inject_Z 150 + Qred (n * t))
                 <= Qred (inject_Z 150 + Qred (n' * t)))%Q).
  { rewrite !Qred_correct. apply Qplus_le_r. now apply Qmult_le_compat_r. }
  split.
  - now apply nge_Num.
  - unfold ngt.
    destruct (nlt (Num (inject_Z 50000)) (Num (Qred (inject_Z 150 + Qred (n * t)))))
      eqn:T1; [|easy].
    intros _. apply nlt_Num in T1.
    assert (T2 : nlt (Num (inject_Z 50000))
                   (Num (Qred (inject_Z 150 + Qred (n' * t)))) = true).
    { apply nlt_Num. eapply Qlt_le_trans; [exact T1|exact Hle]. }
    rewrite T2. discriminate.
Qed.

End Analysis.

Lemma analyzeVideo_tolerates_audio_failure_witness :
  exists md frames,
    resultOf (analyzeVideo (host := sampleHost) (sampleWorld true) "/v.mp4"
                (Some true) (Some (ofZ 2)) None None) emptyState
    = Ok {| vaMetadata := md; vaFrames := frames;
            vaAudioPath :=
              if default true None && hasAudio md then
                match resultOf (extractAudio (host := sampleHost)
                                  (sampleWorld true) "/v.mp4" noAudioOptions)
                        emptyState with
                | Ok audioPath => Some audioPath
                | _ => None
                end
              else None |}.
Proof.
  eexists _, _.
  apply (analyzeVideo_tolerates_audio_failure (host := sampleHost)
           (sampleWorld true) "/v.mp4" (Some (ofZ 2)) None None);
    vm_compute; reflexivity.
Defined.

Lemma estimateTokens_monotone_witness :
  exists e e',
    resultOf (estimateTokens (host := sampleHost) (sampleWorld true) "/v.mp4"
                (Some (Num 10))) emptyState = Ok e
    /\ resultOf (estimateTokens (host := sampleHost) (sampleWorld true) "/v.mp4"
                   (Some (Num 20))) emptyState = Ok e'
    /\ tePerFrame e' = tePerFrame e
    /\ nge (teTotal e') (teTotal e) = true
    /\ (teWarning e <> None -> teWarning e' <> None).
Proof.
  apply (estimateTokens_monotone (host := sampleHost) (sampleWorld true)
           "/v.mp4"
           (match resultOf (getMetadata (host := sampleHost) (sampleWorld true)
                              "/v.mp4") emptyState with
            | Ok md => md
            | _ => sampleMetadata 0 0 0
            end) 1920 1080 10 20 emptyState);
    [vm_compute; reflexivity | vm_compute; reflexivity
     | vm_compute; reflexivity | lia | lia | discriminate].
Defined.

(** ** The extraction follows the plan *)

Lemma frameIntervalOf_shape (d n : number) :
  match frameIntervalOf d n with
  | NaN | Infinity => True
  | Num y => (1 <= y)%Q
  | NegInfinity => False
  end.
Proof.
  unfold frameIntervalOf.
  destruct (nfloor (d / n)%js) as [| |x|]; simpl; try easy.
  destruct (inject_Z 1 ?= x)%Q eqn:C; try easy.
  apply Qlt_alt in C. now apply Qlt_le_weak.
Qed.

(** An iteration below [Math.floor(duration / frameInterval)] has its
    timestamp below the duration. *)
Lemma floor_div_lt (iv d : number) (k : nat) :
  match iv with
  | NaN | Infinity => True
  | Num y => (1 <= y)%Q
  | NegInfinity => False
  end ->
  (ofNat k <? nfloor (d / iv))%js = true ->
  (ofNat k * iv <? d)%js = true.
Proof.
  destruct iv as [| |y|]; intros Hs; try easy.
  - destruct d; discriminate.
  - assert (Hy : (0 < y)%Q) by (eapply Qlt_le_trans; [|exact Hs]; reflexivity).
    destruct d as [| |x|]; try easy.
    + unfold ndiv. rewrite (qsign_pos y Hy). discriminate.
    + rewrite (ndiv_Num_pos _ _ Hy). unfold nfloor, ofNat, ofZ.
      rewrite nmul_Num. intros H. apply nlt_Num in H. apply nlt_Num.
      rewrite <- Zlt_Qlt in H. rewrite Qred_correct.
      assert (H1 : (inject_Z (Z.of_nat k + 1) <= x / y)%Q).
      { apply Qle_trans with (inject_Z (Qfloor (Qred (x / y)))).
        - rewrite <- Zle_Qle. lia.
        - rewrite <- (Qred_correct (x / y)) at 2. apply Qfloor_le. }
      assert (H2 : (inject_Z (Z.of_nat k + 1) * y <= x)%Q).
      { apply Qle_trans with (x / y * y)%Q.
        - now apply Qmult_le_compat_r; [|apply Qlt_le_weak].
        - rewrite Qmult_comm, Qmult_div_r; [apply Qle_refl|].
          intros E. rewrite E in Hy. discriminate. }
      rewrite inject_Z_plus in H2.
      eapply Qlt_le_trans; [|exact H2].
      rewrite Qmult_plus_distr_l, Qmult_1_l.
      rewrite <- (Qplus_0_r (inject_Z (Z.of_nat k) * y)) at 1.
      now apply Qplus_lt_r.
  - destruct d as [| |x|]; try easy. simpl. unfold ofNat, ofZ. intros H.
    apply nlt_Num in H. rewrite <- Zlt_Qlt in H.
    change (0 `div` 1)%Z with 0%Z in H. lia.
Qed.

Lemma extractLoop_Ok_timestamps (total iv : number)
    (body : nat -> M VideoFrame) :
  (forall j s f, (body j s).1 = Ok f -> vfTimestamp f = (ofNat j * iv)%js) ->
  forall fuel i s frames,
    (extractLoop fuel total body i s).1 = Ok frames ->
    forall k f, frames !! k = Some f ->
      vfTimestamp f = (ofNat (i + k) * iv)%js.
Proof.
  intros Hbody.
  induction fuel as [|fuel IH]; intros i s frames; [discriminate|].
  rewrite extractLoop_unfold. destruct (ofNat i <? total)%js eqn:T.
  - intros H. apply bind_Ok_inv in H. destruct H as (f0 & s1 & E0 & H).
    apply bind_Ok_inv in H. destruct H as (fs & s2 & E & H).
    injection H as <-. intros [|k] f; simpl.
    + intros [= <-]. rewrite Nat.add_0_r.
      apply (Hbody i s). now rewrite E0.
    + intros Hk. replace (i + S k)%nat with (S i + k)%nat by lia.
      eapply (IH (S i) s1 fs); [now rewrite E|exact Hk].
  - intros [= <-] k f. rewrite lookup_nil. discriminate.
Qed.

Section FollowsPlan.
Context `{host : Host} (W : World).

Lemma extractFrameAt_timestamp p dir iv mw fmt q (j : nat) s f :
  (extractFrameAt W p dir iv mw fmt q j s).1 = Ok f ->
  vfTimestamp f = (ofNat j * iv)%js.
Proof.
  unfold extractFrameAt. cbv zeta. intros H.
  apply bind_Ok_inv in H. destruct H as (b1 & s1 & _ & H).
  apply bind_Ok_inv in H. destruct H as (m1 & s2 & _ & H).
  apply bind_Ok_inv in H. destruct H as (b2 & s3 & _ & H).
  apply bind_Ok_inv in H. destruct H as (m2 & s4 & _ & H).
  now injection H as <-.
Qed.

(** X22 ([extractFrames], [getVideoOverview]): with no interval given, the
    frames extracted are stamped as the overview plans them for the same
    count: their timestamps are the first timestamps of the plan, in order.
    (The extraction stops at [Math.floor(duration / interval)] frames, the
    plan at the first timestamp not below the duration, so the plan can be
    longer.) *)
Theorem extractFrames_follows_plan (videoPath : string)
    (options : FrameExtractionOptions) (md : VideoMetadata)
    (frames : list VideoFrame) (s : ProcState) :
  feInterval options = None ->
  resultOf (getMetadata W videoPath) s = Ok md ->
  resultOf (extractFrames W videoPath options) s = Ok frames ->
  exists refs,
    planFrames md (default (ofZ 10) (feMaxFrames options)) = Some refs
    /\ map vfTimestamp frames `prefix_of` map timestamp refs.
Proof.
  intros Hiv Hmd H.
  set (n := default (ofZ 10) (feMaxFrames options)).
  destruct (planFrames_total md n) as [refs Hrefs]. exists refs.
  split; [exact Hrefs|].
  unfold planFrames in Hrefs. apply planLoop_sound in Hrefs.
  destruct Hrefs as [Hall Hstop]. cbn [Nat.add] in Hall, Hstop.
  set (iv := frameIntervalOf (duration md) n) in *.
  (* the loop behind the result *)
  unfold resultOf, extractFrames in H. cbv zeta in H. rewrite Hiv in H.
  apply bind_Ok_inv in H. destruct H as ([] & s1 & _ & H).
  apply bind_Ok_inv in H. destruct H as ([] & s2 & _ & H).
  destruct (fsMkdir W _); [discriminate|].
  apply bind_Ok_inv in H. destruct H as (md' & s3 & E & H).
  assert (md' = md) as ->.
  { destruct (getMetadata_cases W videoPath) as [[md0 E0]|[msg E0]];
      unfold resultOf in Hmd; rewrite E0 in Hmd, E; [|discriminate].
    simpl in Hmd. congruence. }
  apply tryFinally_Ok_inv in H.
  fold n in H. fold (frameIntervalOf (duration md) n) in H. fold iv in H.
  pose proof (extractLoop_Ok_bound _ _ _ _ _ _ H) as Hbound.
  pose proof (extractLoop_Ok_timestamps _ iv _
                (fun j s f => extractFrameAt_timestamp _ _ iv _ _ _ j s f)
                _ _ _ _ H) as Hts.
  cbn [Nat.add] in Hbound, Hts.
  assert (Htest : forall k, (k < length frames)%nat -> planTest md n iv k = true).
  { intros k Hk. apply Hbound, nlt_nmin in Hk. destruct Hk as [Hn Hf].
    unfold planTest. rewrite Hn. simpl.
    apply floor_div_lt; [apply frameIntervalOf_shape|exact Hf]. }
  assert (Hlen : (length frames <= length refs)%nat).
  { destruct (le_lt_dec (length frames) (length refs)) as [|Hlt]; [easy|].
    rewrite (Htest _ Hlt) in Hstop. discriminate. }
  exists (drop (length frames) (map timestamp refs)).
  rewrite <- (take_drop (length frames) (map timestamp refs)) at 1.
  f_equal. apply list_eq. intros k.
  rewrite list_lookup_fmap.
  destruct (le_lt_dec (length frames) k) as [Hge|Hlt].
  - rewrite lookup_take_ge by exact Hge.
    now rewrite (proj2 (lookup_ge_None frames k)) by lia.
  - rewrite lookup_take_lt by exact Hlt. rewrite list_lookup_fmap.
    destruct (lookup_lt_is_Some_2 frames k Hlt) as [f Hf].
    destruct (lookup_lt_is_Some_2 refs k) as [r Hr]; [lia|].
    rewrite Hf, Hr. simpl. f_equal.
    rewrite (Hts k f Hf). destruct (Hall k r Hr) as [-> _]. reflexivity.
Qed.

End FollowsPlan.

Lemma extractFrames_follows_plan_witness :
  let W := sampleWorld false in
  let options :=
    {| feMaxFrames := Some (ofZ 3); feInterval := None; feMaxWidth := None;
       feOutputFormat := None; feJpegQuality := None |} in
  let md :=
    match resultOf (getMetadata (host := sampleHost) W "/v.mp4") emptyState with
    | Ok md => md
    | _ => sampleMetadata 0 0 0
    end in
  let frames :=
    match resultOf (extractFrames (host := sampleHost) W "/v.mp4" options)
            emptyState with
    | Ok frames => frames
    | _ => []
    end in
  length frames = 3%nat
  /\ exists refs,
       planFrames (host := sampleHost) md (ofZ 3) = Some refs
       /\ map vfTimestamp frames `prefix_of` map timestamp refs.
Proof.
  intros W options md frames. split; [vm_compute; reflexivity|].
  apply (extractFrames_follows_plan (host := sampleHost) W "/v.mp4" options
           md frames emptyState);
    [reflexivity | vm_compute; reflexivity | vm_compute; reflexivity].
Defined.

(** ** The probed profile *)

Lemma orZero_not_NaN (o : option number) : orZero o <> NaN.
Proof.
  destruct o as [[| |q|]|]; simpl; try discriminate.
  destruct (qsign q); discriminate.
Qed.

Lemma orString_not_empty (o : option string) (d : string) :
  d <> "" -> orString o d <> "".
Proof.
  intros Hd. destruct o as [[|c x]|]; simpl; easy.
Qed.

(** X23 ([getMetadata]): in a profile the probe returns, the falsy fields
    of the video stream are defaulted: width, height and frame rate are
    never [NaN] (an unreadable frame rate included), the codec and the
    format are never empty, an audio codec is reported only together with
    [hasAudio], and the file size is what [fs.stat] gave; the probe fails
    only with the error of ffprobe or for want of a video stream, never
    because of [fs.stat]. *)
Theorem getMetadata_profile (host : Host) (W : World) (videoPath : string)
    (s : ProcState) :
  match resultOf (getMetadata W videoPath) s with
  | Ok md =>
      width md <> NaN /\ height md <> NaN /\ fps md <> NaN
      /\ codec md <> "" /\ format md <> ""
      /\ (audioCodec md <> None -> hasAudio md = true)
      /\ fileSize md = fsStat W videoPath
  | Throw msg =>
      (exists err, ffprobe W videoPath = inl err
                   /\ msg = "Failed to read video metadata: " +:+ err)
      \/ (exists data, ffprobe W videoPath = inr data
                       /\ Forall (fun st => codec_type st <> "video")
                            (streams data)
                       /\ msg = "No video stream found")
  | Diverge => False
  end.
Proof.
  unfold resultOf, getMetadata, bind, emit, ret, throw. cbv zeta.
  cbn [fst snd]. destruct (ffprobe W videoPath) as [err|data]; cbn [fst].
  - left. now exists err.
  - destruct (List.find _ (streams data)) as [vs|] eqn:F; cbn [fst].
    + cbn [width height fps codec format audioCodec hasAudio fileSize].
      repeat split; try apply orZero_not_NaN;
        try (apply orString_not_empty; discriminate).
      destruct (List.find (fun st => String.eqb (codec_type st) "audio")
                  (streams data)); [reflexivity|].
      intros H. now contradiction H.
    + right. exists data. repeat split.
      apply List.Forall_forall. intros st Hin Hv.
      pose proof (List.find_none _ _ F st Hin) as Hn. cbv beta in Hn.
      rewrite Hv in Hn. discriminate.
Qed.
